(** * ClawDesk control plane: tenancy context, gateway client, provisioner

    A shallow embedding of

    - [clawdesk/tenancy/context.py]   (module [context]),
    - [clawdesk/openclaw/client.py]   (modules [client], [transport]),
    - [clawdesk/openclaw/provisioner.py] (modules [provisioner],
      [provisioning]),
    - [clawdesk/tenancy/resolver.py]  (module [resolver]),
    - [pick_model] of [clawdesk/models.py] (module [routing]) and the
      two message handlers of [clawdesk/app.py] (module [app]),

    together with the properties the design document states about them.

    Python coroutines are embedded as state-passing functions that return
    an [outcome]: a value, or a raised exception.  [exn] stands for
    instances of Python's [Exception] class, which is what every
    [except Exception] clause of the sources catches; interpreter-level
    signals that are not [Exception]s (cancellation of a coroutine,
    interpreter exit) are outside the model. *)

From stdpp Require Import base option list strings gmap pretty.
From Stdlib Require Import ZArith Lia Ascii.

Local Open Scope string_scope.
Local Open Scope list_scope.

(** ** JSON values, as [json.loads] builds them

    An object carries the items of the Python [dict] in insertion order,
    keys pairwise distinct.  Numbers with a fractional part are left out:
    documents and frames that hold them are outside the model. *)

#[warnings="-register-all"]
Inductive json : Type :=
  | JNull
  | JBool (b : bool)
  | JInt (n : Z)
  | JStr (s : string)
  | JList (l : list json)
  | JObj (items : list (string * json)).

Abbreviation dict := (list (string * json)).

(** [d.get(k)] on a [dict]; [None] of the option is Python's [None]. *)
Fixpoint dict_get (d : dict) (k : string) : option json :=
  match d with
  | [] => None
  | (k', v) :: d' => if String.eqb k' k then Some v else dict_get d' k
  end.

(** [{**d, k: v}]: an existing key keeps its place, a new one goes last. *)
Fixpoint dict_set (d : dict) (k : string) (v : json) : dict :=
  match d with
  | [] => [(k, v)]
  | (k', v') :: d' =>
      if String.eqb k' k then (k', v) :: d' else (k', v') :: dict_set d' k v
  end.

(** ** Exceptions and outcomes *)

(** [type(v).__name__] for the Python value [json.loads] builds. *)
Definition type_name (v : json) : string :=
  match v with
  | JNull => "NoneType"
  | JBool _ => "bool"
  | JInt _ => "int"
  | JStr _ => "str"
  | JList _ => "list"
  | JObj _ => "dict"
  end.

Inductive exn : Type :=
  | RuntimeError (msg : string)
  | ValueError (msg : string)
  | TimeoutError (msg : string)
  | AttributeError (msg : string)
  | TypeError (msg : string)
  | Exception (arg : json).

Inductive outcome (A : Type) : Type :=
  | Ret (a : A)
  | Raise (e : exn).
Arguments Ret {A} a.
Arguments Raise {A} e.

Definition raised {A} (o : outcome A) : Prop :=
  match o with Ret _ => False | Raise _ => True end.

(** The [AttributeError] of [v.attr] on a value that has no such
    attribute, and the [TypeError]s of iterating over and of unpacking
    ([**v]) a value that does not support it. *)
Definition no_attribute (v : json) (attr : string) : exn :=
  AttributeError
    (String.append "'"
       (String.append (type_name v)
          (String.append "' object has no attribute '"
             (String.append attr "'")))).

Definition not_iterable (v : json) : exn :=
  TypeError
    (String.append "'" (String.append (type_name v) "' object is not iterable")).

Definition not_a_mapping (v : json) : exn :=
  TypeError
    (String.append "'" (String.append (type_name v) "' object is not a mapping")).

(** ** [clawdesk/models.py] *)

Module models.

(** [Tenant]: the context only ever reads [id]; the remaining payload
    ([config], [billing], timestamps) is carried opaquely by callers and
    is not inspected by any modelled function. *)
Module Tenant.
Record t : Type := mk {
  id : string;
  name : string;
  slug : string;
  openclaw_agent_id : string
}.
End Tenant.

End models.
Import models.

(** ** [clawdesk/tenancy/context.py] *)

Module context.
Section TenancyContext.

(** The world the bootstrappers and callbacks act on (files, sockets,
    process-wide settings): everything outside the context object. *)
Context {W : Type}.

(** [class TenancyBootstrapper(Protocol)]. *)
Record TenancyBootstrapper : Type := {
  name : string;
  bootstrap : Tenant.t -> W -> outcome unit * W;
  revert : W -> outcome unit * W
}.

(** The fields of a [TenancyContext] that change over time. *)
Record TenancyContext : Type := {
  _tenant : option Tenant.t;
  _initialized : bool;
  _initialized_bootstrappers : list TenancyBootstrapper
}.

(** Calls that leave the context object, in the order they are made. *)
Inductive Event : Type :=
  | Up (b : TenancyBootstrapper) (t : Tenant.t)   (* b.bootstrap(t) *)
  | Down (b : TenancyBootstrapper)                (* b.revert() *)
  | Callback (arg : option Tenant.t).             (* callback(arg) *)

(** The context object, the world around it, the trace of outgoing
    calls and the records handed to [logger.exception]. *)
Record Sys : Type := {
  ctx : TenancyContext;
  world : W;
  trace : list Event;
  logged : list (string * exn)
}.

Definition M (A : Type) : Type := Sys -> outcome A * Sys.

Definition ret {A} (a : A) : M A := fun s => (Ret a, s).

Definition raise {A} (e : exn) : M A := fun s => (Raise e, s).

Definition bind {A B} (m : M A) (k : A -> M B) : M B :=
  fun s =>
    match m s with
    | (Ret a, s1) => k a s1
    | (Raise e, s1) => (Raise e, s1)
    end.

Notation "x <- m ;; k" := (bind m (fun x => k))
  (at level 100, m at next level, right associativity).
Notation "m ;;; k" := (bind m (fun _ => k))
  (at level 100, right associativity).

(** [try: body  except Exception: handler]. *)
Definition try_except {A} (body : M A) (handler : exn -> M A) : M A :=
  fun s =>
    match body s with
    | (Ret a, s1) => (Ret a, s1)
    | (Raise e, s1) => handler e s1
    end.

(** [try: body  finally: cleanup]: the cleanup always runs; when it
    raises, its exception is the one that leaves the statement. *)
Definition try_finally {A} (body : M A) (cleanup : M unit) : M A :=
  fun s =>
    match body s with
    | (r, s1) =>
        match cleanup s1 with
        | (Ret _, s2) => (r, s2)
        | (Raise e, s2) => (Raise e, s2)
        end
    end.

(** [for x in l: body(x)]. *)
Fixpoint for_each {A} (l : list A) (body : A -> M unit) : M unit :=
  match l with
  | [] => ret tt
  | x :: l' => body x ;;; for_each l' body
  end.

Definition get_ctx : M TenancyContext := fun s => (Ret (ctx s), s).

Definition set_ctx (c : TenancyContext) : M unit :=
  fun s => (Ret tt, {| ctx := c; world := world s;
                       trace := trace s; logged := logged s |}).

(** [self._tenant = o]. *)
Definition set_tenant (o : option Tenant.t) : M unit :=
  c <- get_ctx ;;
  set_ctx {| _tenant := o; _initialized := _initialized c;
             _initialized_bootstrappers := _initialized_bootstrappers c |}.

(** [self._initialized = b]. *)
Definition set_initialized (b : bool) : M unit :=
  c <- get_ctx ;;
  set_ctx {| _tenant := _tenant c; _initialized := b;
             _initialized_bootstrappers := _initialized_bootstrappers c |}.

(** [self._initialized_bootstrappers = l]. *)
Definition set_initialized_bootstrappers (l : list TenancyBootstrapper)
  : M unit :=
  c <- get_ctx ;;
  set_ctx {| _tenant := _tenant c; _initialized := _initialized c;
             _initialized_bootstrappers := l |}.

(** [await bootstrapper.bootstrap(tenant)]. *)
Definition call_bootstrap (b : TenancyBootstrapper) (t : Tenant.t) : M unit :=
  fun s =>
    let '(r, w) := bootstrap b t (world s) in
    (r, {| ctx := ctx s; world := w;
           trace := trace s ++ [Up b t]; logged := logged s |}).

(** [await bootstrapper.revert()]. *)
Definition call_revert (b : TenancyBootstrapper) : M unit :=
  fun s =>
    let '(r, w) := revert b (world s) in
    (r, {| ctx := ctx s; world := w;
           trace := trace s ++ [Down b]; logged := logged s |}).

(** [logger.exception('Failed to revert bootstrapper "%s"', name)]. *)
Definition logger_exception (nm : string) (e : exn) : M unit :=
  fun s => (Ret tt, {| ctx := ctx s; world := world s; trace := trace s;
                       logged := logged s ++ [(nm, e)] |}).

(** A callback may look at the context and act on the world; it
    returns a value or raises.  It does not drive the context itself:
    the context has a single writer. *)
Definition callback_t (Arg A : Type) : Type :=
  Arg -> TenancyContext -> W -> outcome A * W.

(** [await callback(arg)]. *)
Definition call_callback {Arg A} (view : Arg -> option Tenant.t)
    (cb : callback_t Arg A) (arg : Arg) : M A :=
  fun s =>
    let '(r, w) := cb arg (ctx s) (world s) in
    (r, {| ctx := ctx s; world := w;
           trace := trace s ++ [Callback (view arg)]; logged := logged s |}).

(** [self._bootstrappers], fixed at construction. *)
Variable _bootstrappers : list TenancyBootstrapper.

(** [TenancyContext.__init__]. *)
Definition init : TenancyContext :=
  {| _tenant := None; _initialized := false;
     _initialized_bootstrappers := [] |}.

(** [TenancyContext._revert_initialized]. *)
Definition _revert_initialized : M unit :=
  c <- get_ctx ;;
  for_each (rev (_initialized_bootstrappers c)) (fun bootstrapper =>
    try_except (call_revert bootstrapper)
               (fun e => logger_exception (name bootstrapper) e)).

(** [TenancyContext.end]. *)
Definition end_ : M unit :=
  c <- get_ctx ;;
  if negb (_initialized c) then ret tt
  else
    _revert_initialized ;;;
    set_tenant None ;;;
    set_initialized false ;;;
    set_initialized_bootstrappers [].

(** [self._initialized and self._tenant and self._tenant.id == tenant.id] *)
Definition same_tenant_active (c : TenancyContext) (tenant : Tenant.t) : bool :=
  _initialized c &&
  match _tenant c with
  | Some cur => String.eqb (Tenant.id cur) (Tenant.id tenant)
  | None => false
  end.

(** [TenancyContext.initialize]. *)
Definition initialize (tenant : Tenant.t) : M unit :=
  c <- get_ctx ;;
  if same_tenant_active c tenant then ret tt
  else
    (if _initialized c then end_ else ret tt) ;;;
    set_tenant (Some tenant) ;;;
    set_initialized_bootstrappers [] ;;;
    for_each _bootstrappers (fun bootstrapper =>
      try_except
        (call_bootstrap bootstrapper tenant ;;;
         c1 <- get_ctx ;;
         set_initialized_bootstrappers
           (_initialized_bootstrappers c1 ++ [bootstrapper]))
        (fun e =>
           _revert_initialized ;;;
           set_tenant None ;;;
           set_initialized false ;;;
           raise e)) ;;;
    set_initialized true.

(** [if previous_tenant: await self.initialize(previous_tenant)
     else: await self.end()], the closing step of [run] and
    [run_for_multiple]. *)
Definition restore (previous_tenant : option Tenant.t) : M unit :=
  match previous_tenant with
  | Some p => initialize p
  | None => end_
  end.

(** [TenancyContext.run]. *)
Definition run {A} (tenant : Tenant.t) (callback : callback_t Tenant.t A)
  : M A :=
  c <- get_ctx ;;
  let previous_tenant := _tenant c in
  result <- try_finally
              (initialize tenant ;;; call_callback Some callback tenant)
              (restore previous_tenant) ;;
  ret result.

(** [TenancyContext.central]. *)
Definition central {A} (callback : callback_t (option Tenant.t) A) : M A :=
  c <- get_ctx ;;
  let previous_tenant := _tenant c in
  end_ ;;;
  result <- call_callback (fun o => o) callback previous_tenant ;;
  match previous_tenant with
  | Some p => initialize p
  | None => ret tt
  end ;;;
  ret result.

(** [TenancyContext.run_for_multiple]. *)
Definition run_for_multiple (tenants : list Tenant.t)
    (callback : callback_t Tenant.t unit) : M unit :=
  c <- get_ctx ;;
  let original_tenant := _tenant c in
  for_each tenants (fun tenant =>
    initialize tenant ;;; call_callback Some callback tenant) ;;;
  restore original_tenant.

(** *** Notions used to state the properties *)

(** The world reached when every bootstrapper of [l] in turn completes
    [bootstrap(t)] starting from [w]; [None] when one of them raises. *)
Fixpoint boots (t : Tenant.t) (l : list TenancyBootstrapper) (w : W)
  : option W :=
  match l with
  | [] => Some w
  | b :: l' =>
      match bootstrap b t w with
      | (Ret _, w1) => boots t l' w1
      | (Raise _, _) => None
      end
  end.

(** The world reached when every bootstrapper of [l] in turn has had
    [revert()] called starting from [w], whatever the calls answered,
    and the reverts that raised, in order. *)
Fixpoint reverts (l : list TenancyBootstrapper) (w : W)
  : W * list (string * exn) :=
  match l with
  | [] => (w, [])
  | b :: l' =>
      let '(r, w1) := revert b w in
      let '(w2, fs) := reverts l' w1 in
      (w2, match r with Ret _ => fs | Raise e => (name b, e) :: fs end)
  end.

(** The bodies of the two loops, named. *)
Definition revert_step (b : TenancyBootstrapper) : M unit :=
  try_except (call_revert b) (fun e => logger_exception (name b) e).

Definition bootstrap_step (tenant : Tenant.t) (b : TenancyBootstrapper)
  : M unit :=
  try_except
    (call_bootstrap b tenant ;;;
     c1 <- get_ctx ;;
     set_initialized_bootstrappers (_initialized_bootstrappers c1 ++ [b]))
    (fun e =>
       _revert_initialized ;;;
       set_tenant None ;;;
       set_initialized false ;;;
       raise e).

(** The state [end] leaves behind. *)
Definition ended (s : Sys) : Sys := snd (end_ s).

(** [bootstrap(t)] of every configured bootstrapper succeeds in every
    world. *)
Definition always_boots (t : Tenant.t) : Prop :=
  Forall (fun b => forall w, fst (bootstrap b t w) = Ret tt) _bootstrappers.

(** The calls by which [run(t, _)] restores the context that was
    current before it, once [t] is active and the callback is over: the
    teardown of [t], followed by the bootstrap of the previous tenant
    when there was one; none at all when the previous tenant has the id
    of [t], since it stayed current throughout. *)
Definition restoration_calls (previous : option Tenant.t) (t : Tenant.t)
  : list Event :=
  match previous with
  | None => map Down (rev _bootstrappers)
  | Some p =>
      if String.eqb (Tenant.id p) (Tenant.id t) then []
      else map Down (rev _bootstrappers) ++
           map (fun b => Up b p) _bootstrappers
  end.

Definition NoTenant (c : TenancyContext) : Prop :=
  _tenant c = None /\ _initialized c = false.


(** The invariant of the data model: [initialized] exactly when a
    tenant is current, and then the stack holds the whole configured
    sequence, every bootstrapper of which completed. *)
Definition state_invariant (c : TenancyContext) : Prop :=
  (_initialized c = true <-> is_Some (_tenant c)) /\
  (_initialized c = true -> _initialized_bootstrappers c = _bootstrappers).

End TenancyContext.

Notation "x <- m ;; k" := (bind m (fun x => k))
  (at level 100, m at next level, right associativity).
Notation "m ;;; k" := (bind m (fun _ => k))
  (at level 100, right associativity).

End context.

(** ** [clawdesk/openclaw/client.py]

    The request table of [GatewayClient].  asyncio runs one coroutine at a
    time and switches only at an [await]; each function below is one
    stretch of code between two suspension points, so the interleavings of
    callers, timers and the reader are the sequences of these steps.
    Connection management ([connect], [disconnect], [_reject_all]) is not
    part of the model: the steps start past [await self.connect()]. *)

Module client.

(** An [asyncio.Future]. *)
Inductive Future : Type :=
  | Pending
  | Result (r : json)
  | Failed (e : exn)
  | Cancelled.

(** [future.done()]. *)
Definition done (f : Future) : bool :=
  match f with Pending => false | _ => true end.

(** Futures are objects shared by the table, the caller that awaits
    them and the reader: they live in a heap, the table holds their
    addresses. *)
Definition addr : Type := nat.

Record GatewayClient : Type := {
  _request_id : Z;
  _pending : gmap Z addr;
  heap : gmap addr Future;
  next_addr : addr;
  sent : list json                   (* frames given to [self._ws.send] *)
}.

(** [GatewayClient.__init__]. *)
Definition init : GatewayClient :=
  {| _request_id := 0; _pending := ∅; heap := ∅; next_addr := 0%nat;
     sent := [] |}.

Section GatewayClient.

(** [json.loads]; [None] stands for [JSONDecodeError]. *)
Variable json_loads : string -> option json.
(** [str(x)] as used by an f-string. *)
Variable py_str : option json -> string.
(** [str(self._options.request_timeout)]. *)
Variable request_timeout : string.

(** [_request], from the id allocation to the [send]: answers the id
    and the future the caller goes on to await. *)
Definition request_begin (method : string) (params : json)
    (c : GatewayClient) : (Z * addr) * GatewayClient :=
  let req_id := (_request_id c + 1)%Z in
  let future := next_addr c in
  ((req_id, future),
   {| _request_id := req_id;
      _pending := <[req_id := future]> (_pending c);
      heap := <[future := Pending]> (heap c);
      next_addr := S (next_addr c);
      sent := sent c ++
              [JObj [("id", JInt req_id); ("method", JStr method);
                     ("params", params)]] |}).

(** [asyncio.wait_for] running out of time: it cancels the future it
    was waiting for, then raises [TimeoutError] into [_request]. *)
Definition wait_for_expire (future : addr) (c : GatewayClient)
  : GatewayClient :=
  match heap c !! future with
  | Some Pending =>
      {| _request_id := _request_id c; _pending := _pending c;
         heap := <[future := Cancelled]> (heap c);
         next_addr := next_addr c; sent := sent c |}
  | _ => c
  end.

(** The [except asyncio.TimeoutError] clause of [_request]. *)
Definition request_on_timeout (req_id : Z) (method : string)
    (c : GatewayClient) : outcome json * GatewayClient :=
  (Raise (TimeoutError
            (String.append "Request timeout: "
               (String.append method
                  (String.append " ("
                     (String.append request_timeout "s)"))))),
   {| _request_id := _request_id c;
      _pending := delete req_id (_pending c);
      heap := heap c; next_addr := next_addr c; sent := sent c |}).

(** [wait_for] handing back a future that is done. *)
Definition request_on_done (future : addr) (c : GatewayClient)
  : option (outcome json) :=
  match heap c !! future with
  | Some (Result r) => Some (Ret r)
  | Some (Failed e) => Some (Raise e)
  | _ => None
  end.

(** [isinstance(msg_id, int)], and the key [msg_id] then denotes in
    the table: [bool] is a subclass of [int], [True == 1]. *)
Definition as_int (v : option json) : option Z :=
  match v with
  | Some (JInt n) => Some n
  | Some (JBool b) => Some (if b then 1%Z else 0%Z)
  | _ => None
  end.

Definition set_future (future : addr) (f : Future) (c : GatewayClient)
  : GatewayClient :=
  {| _request_id := _request_id c; _pending := _pending c;
     heap := <[future := f]> (heap c);
     next_addr := next_addr c; sent := sent c |}.

(** [self._pending.pop(i, None)]. *)
Definition pending_pop (i : Z) (c : GatewayClient)
  : option addr * GatewayClient :=
  (_pending c !! i,
   {| _request_id := _request_id c;
      _pending := delete i (_pending c);
      heap := heap c; next_addr := next_addr c; sent := sent c |}).

(** [future.done()] for the future at an address. *)
Definition is_done (future : addr) (c : GatewayClient) : bool :=
  match heap c !! future with
  | Some f => done f
  | None => true
  end.

(** [v.get(...)] on a value that is not a [dict]. *)
Definition no_get (v : json) : exn := no_attribute v "get".

(** One turn of the [async for raw in self._ws] loop of
    [_read_loop].  [Ret tt] is the end of the turn or a [continue];
    [Raise] is an exception that leaves the loop: the loop catches
    only a closed connection and its own cancellation. *)
Definition read_frame (raw : string) (c : GatewayClient)
  : outcome unit * GatewayClient :=
  match json_loads raw with
  | None => (Ret tt, c)
  | Some (JObj msg) =>
      match as_int (dict_get msg "id") with
      | None => (Ret tt, c)
      | Some msg_id =>
          let '(future, c1) := pending_pop msg_id c in
          match future with
          | None => (Ret tt, c1)
          | Some a =>
              if is_done a c1 then (Ret tt, c1)
              else
                match dict_get msg "error" with
                | Some (JObj err) =>
                    let dflt :=
                      JStr (String.append "RPC error "
                              (py_str (dict_get err "code"))) in
                    (Ret tt,
                     set_future a
                       (Failed (Exception
                                  (default dflt (dict_get err "message"))))
                       c1)
                | Some err => (Raise (no_get err), c1)
                | None =>
                    (Ret tt,
                     set_future a
                       (Result (default (JObj []) (dict_get msg "result")))
                       c1)
                end
          end
      end
  | Some msg => (Raise (no_get msg), c)
  end.

(** *** Notions used to state the properties *)

(** A frame that parses to an object whose ["id"] is the integer [i]. *)
Definition frame_for (raw : string) (i : Z) : Prop :=
  exists msg, json_loads raw = Some (JObj msg) /\
              as_int (dict_get msg "id") = Some i.

(** No call waits under id [i]: the table has no entry for it, or the
    entry's future is already done. *)
Definition settled (c : GatewayClient) (i : Z) : Prop :=
  match _pending c !! i with
  | None => True
  | Some a => is_done a c = true
  end.

End GatewayClient.

End client.

(** ** [clawdesk/openclaw/provisioner.py] *)

Module provisioner.

(** [OpenClawAgentConfig] and [OpenClawConfigSnapshot] of [models.py]. *)
Module OpenClawAgentConfig.
Record t : Type := mk {
  id : string;
  name : option string;
  workspace : option string;
  model : option json;
  skills : option (list string);
  sandbox : option dict;
  identity : option (list (string * string))
}.
End OpenClawAgentConfig.

Module OpenClawConfigSnapshot.
Record t : Type := mk { config : dict; hash : string }.
End OpenClawConfigSnapshot.

(** The calls that go to the gateway. *)
Inductive Rpc : Type :=
  | ConfigGet
  | ConfigPatch (patch : json) (base_hash : string).

Section TenantProvisioner.

(** The remote side, as far as the protocol shows it. *)
Context {G : Type}.

(** [class GatewayClientProtocol(Protocol)]. *)
Record GatewayClientProtocol : Type := {
  get_config : G -> outcome OpenClawConfigSnapshot.t * G;
  patch_config : json -> string -> G -> outcome unit * G
}.

Variable _gateway : GatewayClientProtocol.

(** pydantic's [agent_config.model_dump(exclude_none=True)]. *)
Variable model_dump : OpenClawAgentConfig.t -> json.

Record Sys : Type := { remote : G; calls : list Rpc }.

Definition M (A : Type) : Type := Sys -> outcome A * Sys.

Definition ret {A} (a : A) : M A := fun s => (Ret a, s).
Definition raise {A} (e : exn) : M A := fun s => (Raise e, s).
Definition bind {A B} (m : M A) (k : A -> M B) : M B :=
  fun s =>
    match m s with
    | (Ret a, s1) => k a s1
    | (Raise e, s1) => (Raise e, s1)
    end.
Definition lift {A} (o : outcome A) : M A := fun s => (o, s).

Notation "x <- m ;; k" := (bind m (fun x => k))
  (at level 100, m at next level, right associativity).
Notation "m ;;; k" := (bind m (fun _ => k))
  (at level 100, right associativity).

(** [await self._gateway.get_config()]. *)
Definition call_get_config : M OpenClawConfigSnapshot.t :=
  fun s =>
    let '(r, g) := get_config _gateway (remote s) in
    (r, {| remote := g; calls := calls s ++ [ConfigGet] |}).

(** [await self._gateway.patch_config(patch, base_hash)]. *)
Definition call_patch_config (patch : json) (base_hash : string) : M unit :=
  fun s =>
    let '(r, g) := patch_config _gateway patch base_hash (remote s) in
    (r, {| remote := g; calls := calls s ++ [ConfigPatch patch base_hash] |}).

(** [x.get(k, default)] on an arbitrary value. *)
Definition py_get (x : json) (k : string) (dflt : json) : outcome json :=
  match x with
  | JObj d => Ret (default dflt (dict_get d k))
  | _ => Raise (no_attribute x "get")
  end.

(** [a.get("id")]; Python's [None] is [JNull]. *)
Definition get_id (a : json) : outcome json := py_get a "id" JNull.

(** [iter(x)]: lists yield their elements, dicts their keys, strings
    their characters; the other values are not iterable. *)
Definition py_iter (x : json) : outcome (list json) :=
  match x with
  | JList l => Ret l
  | JObj d => Ret (map (fun kv => JStr (fst kv)) d)
  | JStr s => Ret (map (fun ch => JStr (String ch EmptyString))
                     (String.list_ascii_of_string s))
  | _ => Raise (not_iterable x)
  end.

(** [v == s] for a [str] [s]. *)
Definition eq_str (v : json) (s : string) : bool :=
  match v with JStr s' => String.eqb s' s | _ => false end.

(** [any(a.get("id") == id for a in l)]: stops at the first hit. *)
Fixpoint any_has_id (l : list json) (id : string) : outcome bool :=
  match l with
  | [] => Ret false
  | a :: l' =>
      match get_id a with
      | Raise e => Raise e
      | Ret v => if eq_str v id then Ret true else any_has_id l' id
      end
  end.

(** [[a for a in l if a.get("id") != id]]. *)
Fixpoint without_id (l : list json) (id : string) : outcome (list json) :=
  match l with
  | [] => Ret []
  | a :: l' =>
      match get_id a with
      | Raise e => Raise e
      | Ret v =>
          match without_id l' id with
          | Raise e => Raise e
          | Ret r => Ret (if eq_str v id then r else a :: r)
          end
      end
  end.

(** [TenantProvisioner._add_agent_to_config]. *)
Definition _add_agent_to_config (agent_config : OpenClawAgentConfig.t)
  : M unit :=
  snapshot <- call_get_config ;;
  let config := OpenClawConfigSnapshot.config snapshot in
  let agents := default (JObj []) (dict_get config "agents") in
  agent_list <- lift (py_get agents "list" (JList [])) ;;
  entries <- lift (py_iter agent_list) ;;
  dup <- lift (any_has_id entries (OpenClawAgentConfig.id agent_config)) ;;
  if (dup : bool) then
    raise (ValueError
             (String.append "Agent "
                (String.append (OpenClawAgentConfig.id agent_config)
                   " already exists")))
  else
    match agents with
    | JObj d =>
        call_patch_config
          (JObj [("agents",
                  JObj (dict_set d "list"
                          (JList (entries ++ [model_dump agent_config]))))])
          (OpenClawConfigSnapshot.hash snapshot)
    | _ => raise (not_a_mapping agents)
    end.

(** [TenantProvisioner._remove_agent_from_config]. *)
Definition _remove_agent_from_config (agent_id : string) : M unit :=
  snapshot <- call_get_config ;;
  let config := OpenClawConfigSnapshot.config snapshot in
  let agents := default (JObj []) (dict_get config "agents") in
  agent_list <- lift (py_get agents "list" (JList [])) ;;
  entries <- lift (py_iter agent_list) ;;
  filtered <- lift (without_id entries agent_id) ;;
  if Nat.eqb (length filtered) (length entries) then ret tt
  else
    match agents with
    | JObj d =>
        call_patch_config
          (JObj [("agents", JObj (dict_set d "list" (JList filtered)))])
          (OpenClawConfigSnapshot.hash snapshot)
    | _ => raise (not_a_mapping agents)
    end.

(** *** Notions used to state the properties *)

(** The [agents] section of a configuration and the registry list in
    it, when both have the shape the provisioner expects: an object,
    absent or present, holding an array, absent or present. *)
Definition registry_of (config : dict) : option (dict * list json) :=
  match dict_get config "agents" with
  | None => Some ([], [])
  | Some (JObj agents) =>
      match dict_get agents "list" with
      | None => Some (agents, [])
      | Some (JList l) => Some (agents, l)
      | Some _ => None
      end
  | Some _ => None
  end.

(** An entry of the registry: an object; [has_id] when its ["id"] is
    the given agent id. *)
Definition is_entry (a : json) : Prop := exists d, a = JObj d.

Definition has_id (id : string) (a : json) : Prop :=
  exists d, a = JObj d /\ dict_get d "id" = Some (JStr id).

End TenantProvisioner.

End provisioner.

(** ** Fixtures, after [tests/helpers.py] and [tests/test_context.py] *)

Module fixtures.

(** [make_tenant(id=...)] with the default name and slug. *)
Definition make_tenant (id : string) : Tenant.t :=
  {| Tenant.id := id; Tenant.name := "Acme Corp"; Tenant.slug := "acme";
     Tenant.openclaw_agent_id := "tenant-acme" |}.

(** [FakeBootstrapper]: the world is the shared [log] list.  The tests
    only ever fail [bootstrap]; [fail_on_revert] adds the same switch
    for [revert]. *)
Definition FakeBootstrapper (nm : string)
    (fail_on_bootstrap fail_on_revert : bool)
  : @context.TenancyBootstrapper (list string) :=
  {| context.name := nm;
     context.bootstrap := fun _ log =>
       (if fail_on_bootstrap
        then Raise (RuntimeError (String.append nm " failed"))
        else Ret tt,
        log ++ [String.append nm ":up"]);
     context.revert := fun log =>
       (if fail_on_revert
        then Raise (RuntimeError (String.append nm " stuck"))
        else Ret tt,
        log ++ [String.append nm ":down"]) |}.

Definition bA := FakeBootstrapper "A" false false.
Definition bB := FakeBootstrapper "B" false false.
Definition bB_stuck := FakeBootstrapper "B" false true.
Definition bC := FakeBootstrapper "C" false false.
Definition bC_failing := FakeBootstrapper "C" true false.
Definition bD := FakeBootstrapper "D" false false.

(** A freshly constructed context with an empty log. *)
Definition fresh : @context.Sys (list string) :=
  {| context.ctx := context.init; context.world := [];
     context.trace := []; context.logged := [] |}.

Definition tenant_1 : Tenant.t := make_tenant "tenant-1".
Definition tenant_a : Tenant.t := make_tenant "tenant-a".
Definition tenant_b : Tenant.t := make_tenant "tenant-b".

(** Another record for the tenant with id ["tenant-a"]. *)
Definition tenant_a_renamed : Tenant.t :=
  {| Tenant.id := "tenant-a"; Tenant.name := "Acme Ltd"; Tenant.slug := "acme";
     Tenant.openclaw_agent_id := "tenant-acme" |}.

(** The context of [ctx = TenancyContext([A]); await ctx.initialize(tenant_a)]. *)
Definition active_a : @context.Sys (list string) :=
  snd (context.initialize [bA] tenant_a fresh).

(** The callbacks of [TestRun]. *)
Definition callback_returning_name
  : @context.callback_t (list string) Tenant.t string :=
  fun t _ log => (Ret (Tenant.name t), log ++ ["callback"]).

Definition callback_that_throws
  : @context.callback_t (list string) Tenant.t string :=
  fun t _ log => (Raise (RuntimeError "callback boom"), log ++ ["callback"]).


(** A gateway client with one request in flight:
    [request_begin "config.get" {}] on a new client. *)
Definition one_in_flight : client.GatewayClient :=
  snd (client.request_begin "config.get" (JObj []) client.init).

(** Two requests in flight. *)
Definition two_in_flight : client.GatewayClient :=
  snd (client.request_begin "config.get" (JObj []) one_in_flight).

(** Stand-in for [json.loads] on the frames of the scenarios, which are
    named rather than spelled out. *)
Definition loads (raw : string) : option json :=
  if String.eqb raw "result for 1"
  then Some (JObj [("id", JInt 1); ("result", JObj [("hash", JStr "h1")])])
  else if String.eqb raw "error for 1"
  then Some (JObj [("id", JInt 1);
                   ("error", JObj [("code", JInt 7); ("message", JStr "no")])])
  else if String.eqb raw "result for 2"
  then Some (JObj [("id", JInt 2); ("result", JObj [])])
  else if String.eqb raw "an array"
  then Some (JList [JInt 1])
  else None.

(** Stand-in for [str] inside the f-string of the reader. *)
Definition str_stub : option json -> string := fun _ => "?".

(** [MockGateway] of [tests/test_provisioner.py]. *)
Record MockGateway : Type := {
  _config : dict;
  _hash : string;
  patch_config_calls : list (json * string);
  _fail_patch : bool
}.

Definition mock_get_config (g : MockGateway)
  : outcome provisioner.OpenClawConfigSnapshot.t * MockGateway :=
  (Ret {| provisioner.OpenClawConfigSnapshot.config := _config g;
          provisioner.OpenClawConfigSnapshot.hash := _hash g |}, g).

Definition mock_patch_config (patch : json) (base_hash : string)
    (g : MockGateway) : outcome unit * MockGateway :=
  if _fail_patch g then (Raise (RuntimeError "config write failed"), g)
  else if negb (String.eqb base_hash (_hash g))
  then (Raise (ValueError "Config hash mismatch"), g)
  else
    let calls := patch_config_calls g ++ [(patch, base_hash)] in
    (Ret tt,
     {| _config :=
          match patch with
          | JObj p =>
              match dict_get p "agents" with
              | Some v => dict_set (_config g) "agents" v
              | None => _config g
              end
          | _ => _config g
          end;
        _hash := String.append "hash-" (pretty (length calls));
        patch_config_calls := calls;
        _fail_patch := _fail_patch g |}).

Definition mock : @provisioner.GatewayClientProtocol MockGateway :=
  {| provisioner.get_config := mock_get_config;
     provisioner.patch_config := mock_patch_config |}.

Definition entry (id : string) : json :=
  JObj [("id", JStr id); ("name", JStr "Existing")].

(** A gateway whose registry lists the given entries. *)
Definition gateway_with (entries : list json) : MockGateway :=
  {| _config := [("agents", JObj [("list", JList entries)])];
     _hash := "hash-1"; patch_config_calls := []; _fail_patch := false |}.

Definition at_gateway (g : MockGateway) : @provisioner.Sys MockGateway :=
  {| provisioner.remote := g; provisioner.calls := [] |}.

Definition field {A} (k : string) (f : A -> json) (o : option A) : dict :=
  match o with Some a => [(k, f a)] | None => [] end.

(** [model_dump(exclude_none=True)] on agent configurations whose
    [model] and [sandbox] hold no [None] inside: the fields that are
    set, in declaration order. *)
Definition dump (c : provisioner.OpenClawAgentConfig.t) : json :=
  JObj ([("id", JStr (provisioner.OpenClawAgentConfig.id c))] ++
        field "name" JStr (provisioner.OpenClawAgentConfig.name c) ++
        field "workspace" JStr (provisioner.OpenClawAgentConfig.workspace c) ++
        field "model" (fun m => m) (provisioner.OpenClawAgentConfig.model c) ++
        field "skills" (fun l => JList (map JStr l))
          (provisioner.OpenClawAgentConfig.skills c) ++
        field "sandbox" JObj (provisioner.OpenClawAgentConfig.sandbox c) ++
        field "identity"
          (fun d => JObj (map (fun kv => (fst kv, JStr (snd kv))) d))
          (provisioner.OpenClawAgentConfig.identity c)).

(** [build_agent_config(make_tenant(), ...)]. *)
Definition acme_agent : provisioner.OpenClawAgentConfig.t :=
  {| provisioner.OpenClawAgentConfig.id := "tenant-acme";
     provisioner.OpenClawAgentConfig.name := Some "Acme Corp";
     provisioner.OpenClawAgentConfig.workspace := Some "/tmp/tenant-acme";
     provisioner.OpenClawAgentConfig.model := Some (JStr "azure/gpt-4o");
     provisioner.OpenClawAgentConfig.skills := None;
     provisioner.OpenClawAgentConfig.sandbox :=
       Some [("mode", JStr "all"); ("workspaceAccess", JStr "rw")];
     provisioner.OpenClawAgentConfig.identity := None |}.

End fixtures.

(** ** Further notions for the tenancy context *)

Module context_notions.
Section Notions.

Context {W : Type}.

(** The arguments of the callback invocations in a trace, in order. *)
Fixpoint callbacks_of (tr : list (@context.Event W))
  : list (option Tenant.t) :=
  match tr with
  | [] => []
  | context.Callback arg :: tr' => arg :: callbacks_of tr'
  | _ :: tr' => callbacks_of tr'
  end.

(** A context in which a tenant with the id of [t] is active. *)
Definition active_for (t : Tenant.t) (c : @context.TenancyContext W) : Prop :=
  context._initialized c = true /\
  exists cur, context._tenant c = Some cur /\ Tenant.id cur = Tenant.id t.

End Notions.
End context_notions.

(** ** [clawdesk/tenancy/resolver.py] *)

Module resolver.

(** [RequestContext] of [models.py]. *)
Record RequestContext : Type := {
  headers : gmap string (option string);
  hostname : option string;
  path : option string;
  query : gmap string string;
  claims : gmap string json
}.

(** [s.endswith(suffix)]. *)
Definition endswith (s suffix : string) : bool :=
  (String.length suffix <=? String.length s)%nat &&
  String.eqb
    (String.substring (String.length s - String.length suffix)
       (String.length suffix) s)
    suffix.

(** [s[:-n]]: all but the last [n] characters; nothing at all for
    [n = 0], where the slice reads [s[:0]]. *)
Definition slice_before_last (n : nat) (s : string) : string :=
  match n with
  | O => EmptyString
  | _ => String.substring 0 (String.length s - n) s
  end.

(** ["." in s]. *)
Fixpoint has_dot (s : string) : bool :=
  match s with
  | EmptyString => false
  | String ch s' => Ascii.eqb ch "."%char || has_dot s'
  end.

Section Resolvers.

(** What the lookup functions read and write: the tenant database. *)
Context {L : Type}.

(** [str.lower]. *)
Variable str_lower : string -> string.
(** [_IP_RE.match(s)] found a match, for
    [_IP_RE = re.compile(r"^\d+\.\d+\.\d+\.\d+$")]. *)
Variable ip_re_match : string -> bool.

(** [LookupFn = Callable[[str], Awaitable[str | None]]]. *)
Definition LookupFn : Type := string -> L -> outcome (option string) * L.

(** [class TenantResolver(Protocol)]. *)
Record TenantResolver : Type := {
  name : string;
  resolve : RequestContext -> L -> outcome (option string) * L
}.

(** [TenantResolverChain.resolve], for the chain built on [resolvers]. *)
Fixpoint chain_resolve (resolvers : list TenantResolver)
    (context : RequestContext) (w : L) : outcome (option string) * L :=
  match resolvers with
  | [] => (Ret None, w)
  | resolver :: rest =>
      match resolve resolver context w with
      | (Ret (Some tenant_id), w1) => (Ret (Some tenant_id), w1)
      | (Ret None, w1) => chain_resolve rest context w1
      | (Raise e, w1) => (Raise e, w1)
      end
  end.

(** [TenantResolverChain.resolver_names]. *)
Definition resolver_names (resolvers : list TenantResolver) : list string :=
  map name resolvers.

(** [HeaderTenantResolver(header_name, lookup_fn)]. *)
Definition HeaderTenantResolver (header_name : string) (lookup_fn : LookupFn)
  : TenantResolver :=
  let _header_name := str_lower header_name in
  {| name := "header";
     resolve := fun context w =>
       match headers context !! _header_name with
       | Some (Some value) =>
           if String.eqb value "" then (Ret None, w) else lookup_fn value w
       | _ => (Ret None, w)
       end |}.

(** [SubdomainTenantResolver(root_domain, lookup_fn)]. *)
Definition SubdomainTenantResolver (root_domain : string)
    (lookup_fn : LookupFn) : TenantResolver :=
  let _root_domain := str_lower root_domain in
  {| name := "subdomain";
     resolve := fun context w =>
       let hostname := str_lower (default "" (hostname context)) in
       if String.eqb hostname "" then (Ret None, w)
       else if String.eqb hostname _root_domain ||
               String.eqb hostname (String.append "www." _root_domain)
       then (Ret None, w)
       else if ip_re_match hostname then (Ret None, w)
       else
         let suffix := String.append "." _root_domain in
         if negb (endswith hostname suffix) then (Ret None, w)
         else
           let subdomain :=
             slice_before_last (String.length suffix) hostname in
           if String.eqb subdomain "" || has_dot subdomain
           then (Ret None, w)
           else lookup_fn subdomain w |}.

(** [JwtClaimTenantResolver(claim_name)]. *)
Definition JwtClaimTenantResolver (claim_name : string) : TenantResolver :=
  {| name := "jwt-claim";
     resolve := fun context w =>
       match claims context !! claim_name with
       | Some (JStr value) =>
           if String.eqb value "" then (Ret None, w)
           else (Ret (Some value), w)
       | _ => (Ret None, w)
       end |}.

(** *** Notions used to state the properties *)

(** The database reached when every resolver of [l] in turn has been
    asked and has answered [None]; [None] when one of them answers a
    tenant or raises. *)
Fixpoint misses (l : list TenantResolver) (context : RequestContext)
    (w : L) : option L :=
  match l with
  | [] => Some w
  | r :: l' =>
      match resolve r context w with
      | (Ret None, w1) => misses l' context w1
      | _ => None
      end
  end.

End Resolvers.

End resolver.

(** ** Model routing, from [clawdesk/models.py] *)

Module routing.

(** [ModelRoutingConfig]; [escalation_sentiment], a float that no
    modelled function reads, is left out. *)
Record ModelRoutingConfig : Type := {
  primary : string;
  fallbacks : list string;
  vision_model : option string;
  long_context_model : option string;
  long_context_threshold : Z
}.

(** [MessageAnalysis], without the float [sentiment_score]. *)
Record MessageAnalysis : Type := {
  has_images : bool;
  estimated_tokens : Z
}.

(** Truth value of a [str | None]: [None] and [""] are false. *)
Definition truthy (o : option string) : bool :=
  match o with
  | Some s => negb (String.eqb s "")
  | None => false
  end.

(** [pick_model]. *)
Definition pick_model (config : ModelRoutingConfig)
    (analysis : MessageAnalysis) : string :=
  if has_images analysis && truthy (vision_model config)
  then default "" (vision_model config)
  else if (long_context_threshold config <? estimated_tokens analysis)%Z &&
          truthy (long_context_model config)
  then default "" (long_context_model config)
  else primary config.

End routing.

(** ** Tenant records, from [clawdesk/models.py] *)

Module tenants.

(** [TenantStatus] and its [value]. *)
Inductive TenantStatus : Type :=
  | PROVISIONING | ACTIVE | PAUSED | SUSPENDED | DELETING.

Definition status_value (s : TenantStatus) : string :=
  match s with
  | PROVISIONING => "provisioning"
  | ACTIVE => "active"
  | PAUSED => "paused"
  | SUSPENDED => "suspended"
  | DELETING => "deleting"
  end.

Definition is_active (s : TenantStatus) : bool :=
  match s with ACTIVE => true | _ => false end.

(** [TenantConfig]: the two fields the modelled code reads; the
    thresholds are floats and the knowledge base id is unused. *)
Record TenantConfig : Type := {
  model_routing : routing.ModelRoutingConfig;
  system_prompt : option string
}.

(** A whole [Tenant]: the identity fields of [Tenant.t] together with
    its [status] and [config]. *)
Record TenantRecord : Type := {
  tenant : Tenant.t;
  status : TenantStatus;
  config : TenantConfig
}.

End tenants.

(** ** Message routing handlers of [clawdesk/app.py] *)

Module app.

Import tenants.

Definition routing_of (t : TenantRecord) : routing.ModelRoutingConfig :=
  model_routing (config t).

(** The in-memory store: [_tenants] and [_api_keys]. *)
Record Store : Type := {
  _tenants : gmap string TenantRecord;
  _api_keys : gmap string string
}.

Record SendMessageRequest : Type := {
  req_customer_id : string;
  req_message : string;
  req_has_images : bool;
  req_estimated_tokens : Z
}.

Record SendMessageResponse : Type := {
  tenant_id : string;
  customer_id : string;
  model_used : string;
  routing_reason : string;
  session_key : string
}.

(** A handler returns its response or raises [HTTPException]. *)
Inductive http (A : Type) : Type :=
  | Ok (a : A)
  | HTTPException (status_code : nat) (detail : string).
Arguments Ok {A} a.
Arguments HTTPException {A} status_code detail.

Definition analysis_of (req : SendMessageRequest) : routing.MessageAnalysis :=
  {| routing.has_images := req_has_images req;
     routing.estimated_tokens := req_estimated_tokens req |}.

(** [f"agent:{tenant.openclaw_agent_id}:customer-{req.customer_id}"]. *)
Definition session_key_of (t : TenantRecord) (req : SendMessageRequest)
  : string :=
  String.append "agent:"
    (String.append (Tenant.openclaw_agent_id (tenant t))
       (String.append ":customer-" (req_customer_id req))).

(** [send_message], the handler of [POST /tenants/{tenant_id}/messages]. *)
Definition send_message (store : Store) (tenant_id : string)
    (req : SendMessageRequest) : http SendMessageResponse :=
  match _tenants store !! tenant_id with
  | None => HTTPException 404 "Tenant not found"
  | Some t =>
      if negb (is_active (status t))
      then HTTPException 403
             (String.append "Tenant is "
                (String.append (status_value (status t))
                   ", not accepting messages"))
      else
        let selected_model :=
          routing.pick_model (routing_of t) (analysis_of req) in
        let reason :=
          if req_has_images req &&
             routing.truthy (routing.vision_model (routing_of t))
          then "vision: images detected"
          else if (routing.long_context_threshold (routing_of t)
                   <? req_estimated_tokens req)%Z &&
                  routing.truthy (routing.long_context_model (routing_of t))
          then String.append "long-context: "
                 (String.append (pretty (req_estimated_tokens req))
                    (String.append " tokens > "
                       (String.append
                          (pretty (routing.long_context_threshold
                                     (routing_of t)))
                          " threshold")))
          else "default: text-only" in
        Ok {| tenant_id := Tenant.id (tenant t);
              customer_id := req_customer_id req;
              model_used := selected_model;
              routing_reason := reason;
              session_key := session_key_of t req |}
  end.

(** [chat_via_api_key], the handler of [POST /chat]. *)
Definition chat_via_api_key (store : Store) (x_api_key : string)
    (req : SendMessageRequest) : http SendMessageResponse :=
  match _api_keys store !! x_api_key with
  | None => HTTPException 401 "Invalid API key"
  | Some tid =>
      if String.eqb tid "" then HTTPException 401 "Invalid API key"
      else
        match _tenants store !! tid with
        | None => HTTPException 404 "Tenant not found"
        | Some t =>
            let selected_model :=
              routing.pick_model (routing_of t) (analysis_of req) in
            let reason :=
              if req_has_images req &&
                 routing.truthy (routing.vision_model (routing_of t))
              then "vision: images detected"
              else if (routing.long_context_threshold (routing_of t)
                       <? req_estimated_tokens req)%Z &&
                      routing.truthy
                        (routing.long_context_model (routing_of t))
              then String.append "long-context: "
                     (String.append (pretty (req_estimated_tokens req))
                        " tokens")
              else "default: text-only" in
            Ok {| tenant_id := Tenant.id (tenant t);
                  customer_id := req_customer_id req;
                  model_used := selected_model;
                  routing_reason := reason;
                  session_key := session_key_of t req |}
        end
  end.

End app.

(** ** Connection handling of [clawdesk/openclaw/client.py] *)

Module transport.

Import client.

(** [future.set_exception(error)] on the future at [a] unless it is
    done: one turn of the loop of [_reject_all]. *)
Definition reject_one (error : exn) (a : addr) (h : gmap addr Future)
  : gmap addr Future :=
  match h !! a with
  | Some Pending => <[a := Failed error]> h
  | _ => h
  end.

(** [GatewayClient._reject_all]. *)
Definition _reject_all (error : exn) (c : GatewayClient) : GatewayClient :=
  {| _request_id := _request_id c;
     _pending := ∅;
     heap := map_fold (fun _ a h => reject_one error a h) (heap c) (_pending c);
     next_addr := next_addr c;
     sent := sent c |}.

(** The client with its connection: [_ws] and [_reader_task] are set or
    [None]. *)
Record Connection : Type := {
  table : GatewayClient;
  _ws : bool;
  _reader_task : bool
}.

(** [GatewayClient.connected]. *)
Definition connected (t : Connection) : bool := _ws t.

(** [GatewayClient.connect]; [attempt] is how
    [asyncio.wait_for(websockets.connect(...))] ends. *)
Definition connect (attempt : outcome unit) (t : Connection)
  : outcome unit * Connection :=
  if _ws t then (Ret tt, t)
  else
    match attempt with
    | Ret _ => (Ret tt, {| table := table t; _ws := true; _reader_task := true |})
    | Raise e => (Raise e, t)
    end.

Definition closed : exn := Exception (JStr "WebSocket closed").

(** [GatewayClient.disconnect]; [close] is how [await self._ws.close()]
    ends. *)
Definition disconnect (close : outcome unit) (t : Connection)
  : outcome unit * Connection :=
  if _ws t then
    match close with
    | Ret _ =>
        (Ret tt, {| table := _reject_all closed (table t);
                    _ws := false; _reader_task := false |})
    | Raise e =>
        (Raise e, {| table := table t; _ws := true; _reader_task := false |})
    end
  else (Ret tt, t).

(** The [except websockets.ConnectionClosed] clause of [_read_loop]. *)
Definition read_loop_closed (t : Connection) : Connection :=
  {| table := _reject_all closed (table t);
     _ws := _ws t; _reader_task := _reader_task t |}.

Section Steps.

Variable json_loads : string -> option json.
Variable py_str : option json -> string.
Variable request_timeout : string.

(** *** Notions used to state the properties *)

(** One step of the client: a call registered, a timer running out, a
    caller waking from its timeout, a frame read, all calls rejected. *)
Inductive step : GatewayClient -> GatewayClient -> Prop :=
  | step_begin method params c :
      step c (snd (request_begin method params c))
  | step_expire future c :
      step c (wait_for_expire future c)
  | step_timeout req_id method c :
      step c (snd (request_on_timeout request_timeout req_id method c))
  | step_frame raw c :
      step c (snd (read_frame json_loads py_str raw c))
  | step_reject error c :
      step c (_reject_all error c).

(** The table is well formed: its ids have been issued, its futures
    allocated, no future serves two ids, and the heap holds nothing
    beyond the allocated addresses. *)
Definition well_formed (c : GatewayClient) : Prop :=
  (forall (i : Z) (a : addr), _pending c !! i = Some a ->
               (0 < i <= _request_id c)%Z /\ (a < next_addr c)%nat) /\
  (forall (i j : Z) (a : addr),
      _pending c !! i = Some a -> _pending c !! j = Some a -> i = j) /\
  (forall a : addr, is_Some (heap c !! a) -> (a < next_addr c)%nat) /\
  (0 <= _request_id c)%Z.

End Steps.

End transport.

(** ** Provisioning workflow of [clawdesk/openclaw/provisioner.py] *)

Module provisioning.

Import tenants.

(** [TenantProvisioningResult] and [TenantDeprovisioningResult]. *)
Record TenantProvisioningResult : Type := {
  prov_tenant_id : string;
  prov_agent_id : string;
  prov_workspace_path : string;
  prov_status : string;
  prov_error : option string
}.

Record TenantDeprovisioningResult : Type := {
  deprov_tenant_id : string;
  deprov_status : string;
  deprov_error : option string
}.

(** [OpenClawAgentMapping]. *)
Record OpenClawAgentMapping : Type := {
  map_tenant_id : string;
  map_agent_id : string;
  map_workspace_path : string;
  map_agent_config : provisioner.OpenClawAgentConfig.t
}.

(** [TenantProvisioner.tenant_to_agent_id]. *)
Definition tenant_to_agent_id (slug : string) : string :=
  String.append "tenant-" slug.

(** [TenantProvisioner.build_agent_config]. *)
Definition build_agent_config (t : TenantRecord) (workspace_path : string)
  : provisioner.OpenClawAgentConfig.t :=
  let routing := model_routing (config t) in
  let model :=
    match routing.fallbacks routing with
    | [] => JStr (routing.primary routing)
    | fallbacks =>
        JObj [("primary", JStr (routing.primary routing));
              ("fallbacks", JList (map JStr fallbacks))]
    end in
  {| provisioner.OpenClawAgentConfig.id :=
       tenant_to_agent_id (Tenant.slug (tenant t));
     provisioner.OpenClawAgentConfig.name := Some (Tenant.name (tenant t));
     provisioner.OpenClawAgentConfig.workspace := Some workspace_path;
     provisioner.OpenClawAgentConfig.model := Some model;
     provisioner.OpenClawAgentConfig.skills := None;
     provisioner.OpenClawAgentConfig.sandbox :=
       Some [("mode", JStr "all"); ("workspaceAccess", JStr "rw")];
     provisioner.OpenClawAgentConfig.identity := None |}.

Definition nl : string := String (Ascii.ascii_of_nat 10) EmptyString.

(** The text written to [SOUL.md]. *)
Definition soul_content (t : TenantRecord) : string :=
  if routing.truthy (system_prompt (config t))
  then default "" (system_prompt (config t))
  else
    String.concat ""
      ["# "; Tenant.name (tenant t); " Support Agent"; nl; nl;
       "You are a helpful customer support agent for ";
       Tenant.name (tenant t); "."; nl;
       "Be friendly, professional, and concise."; nl;
       "If you're unsure about something, say so honestly."; nl].

(** The text written to [AGENTS.md]. *)
Definition agents_content (t : TenantRecord) : string :=
  String.concat ""
    ["# "; Tenant.name (tenant t); " — ClawDesk Agent"; nl; nl;
     "This workspace is managed by ClawDesk."; nl;
     "Tenant ID: "; Tenant.id (tenant t); nl].

Section TenantProvisioner.

(** The gateway side and the file system. *)
Context {G F : Type}.

Variable _gateway : @provisioner.GatewayClientProtocol G.
Variable model_dump : provisioner.OpenClawAgentConfig.t -> json.

(** [self._workspace_base_dir]. *)
Variable _workspace_base_dir : string.
(** [str(base / name)] of [pathlib]. *)
Variable path_join : string -> string -> string.
(** [path.mkdir(parents=True, exist_ok=True)]. *)
Variable mkdir : string -> F -> outcome unit * F.
(** [path.write_text(content)]. *)
Variable write_text : string -> string -> F -> outcome unit * F.
(** [shutil.rmtree(path, ignore_errors=True)]. *)
Variable rmtree : string -> F -> F.
(** [path.exists()]. *)
Variable path_exists : string -> F -> bool.
(** [path.rename(target)]. *)
Variable rename : string -> string -> F -> outcome unit * F.
(** [str(path.with_suffix(suffix))]. *)
Variable with_suffix : string -> string -> string.
(** [int(time.time())]. *)
Variable time_now : F -> Z.
(** [str(e)]. *)
Variable exn_str : exn -> string.

Record Sys : Type := { gw : @provisioner.Sys G; fs : F }.

Definition M (A : Type) : Type := Sys -> outcome A * Sys.

Definition ret {A} (a : A) : M A := fun s => (Ret a, s).

Definition bind {A B} (m : M A) (k : A -> M B) : M B :=
  fun s =>
    match m s with
    | (Ret a, s1) => k a s1
    | (Raise e, s1) => (Raise e, s1)
    end.

Notation "x <- m ;; k" := (bind m (fun x => k))
  (at level 100, m at next level, right associativity).
Notation "m ;;; k" := (bind m (fun _ => k))
  (at level 100, right associativity).

(** [try: body  except Exception as e: handler]. *)
Definition try_except {A} (body : M A) (handler : exn -> M A) : M A :=
  fun s =>
    match body s with
    | (Ret a, s1) => (Ret a, s1)
    | (Raise e, s1) => handler e s1
    end.

(** A file system operation, a gateway operation. *)
Definition on_fs {A} (op : F -> outcome A * F) : M A :=
  fun s => let '(r, f) := op (fs s) in (r, {| gw := gw s; fs := f |}).

Definition on_gw {A} (op : @provisioner.M G A) : M A :=
  fun s => let '(r, g) := op (gw s) in (r, {| gw := g; fs := fs s |}).

(** [TenantProvisioner._create_workspace]. *)
Definition _create_workspace (workspace_path : string) (t : TenantRecord)
  : M unit :=
  on_fs (mkdir workspace_path) ;;;
  on_fs (write_text (path_join workspace_path "SOUL.md") (soul_content t)) ;;;
  on_fs (write_text (path_join workspace_path "AGENTS.md")
           (agents_content t)).

(** [TenantProvisioner.get_mapping]. *)
Definition get_mapping (t : TenantRecord) : OpenClawAgentMapping :=
  let agent_id := tenant_to_agent_id (Tenant.slug (tenant t)) in
  let workspace_path := path_join _workspace_base_dir agent_id in
  {| map_tenant_id := Tenant.id (tenant t);
     map_agent_id := agent_id;
     map_workspace_path := workspace_path;
     map_agent_config := build_agent_config t workspace_path |}.

(** [TenantProvisioner.provision]. *)
Definition provision (t : TenantRecord) : M TenantProvisioningResult :=
  let agent_id := tenant_to_agent_id (Tenant.slug (tenant t)) in
  let workspace_path := path_join _workspace_base_dir agent_id in
  try_except
    (_create_workspace workspace_path t ;;;
     let agent_config := build_agent_config t workspace_path in
     on_gw (provisioner._add_agent_to_config _gateway model_dump agent_config) ;;;
     ret {| prov_tenant_id := Tenant.id (tenant t);
            prov_agent_id := agent_id;
            prov_workspace_path := workspace_path;
            prov_status := "success";
            prov_error := None |})
    (fun e =>
       on_fs (fun f => (Ret tt, rmtree workspace_path f)) ;;;
       ret {| prov_tenant_id := Tenant.id (tenant t);
              prov_agent_id := agent_id;
              prov_workspace_path := workspace_path;
              prov_status := "failed";
              prov_error := Some (exn_str e) |}).

(** [TenantProvisioner.deprovision]. *)
Definition deprovision (t : TenantRecord) : M TenantDeprovisioningResult :=
  let agent_id := tenant_to_agent_id (Tenant.slug (tenant t)) in
  try_except
    (on_gw (provisioner._remove_agent_from_config _gateway agent_id) ;;;
     let workspace_path := path_join _workspace_base_dir agent_id in
     (fun s =>
        if path_exists workspace_path (fs s) then
          let archive_path :=
            with_suffix workspace_path
              (String.append ".archived." (pretty (time_now (fs s)))) in
          on_fs (rename workspace_path archive_path) s
        else ret tt s) ;;;
     ret {| deprov_tenant_id := Tenant.id (tenant t);
            deprov_status := "success";
            deprov_error := None |})
    (fun e =>
       ret {| deprov_tenant_id := Tenant.id (tenant t);
              deprov_status := "failed";
              deprov_error := Some (exn_str e) |}).

End TenantProvisioner.

End provisioning.

(** ** Further notions for the provisioner *)

Module provisioner_notions.

(** [a.get("id") == id] for an entry of the registry. *)
Definition entry_has_id (id : string) (a : json) : bool :=
  match a with
  | JObj d => provisioner.eq_str (default JNull (dict_get d "id")) id
  | _ => false
  end.

(** The registry list without the entries that carry [id]. *)
Definition others (id : string) (l : list json) : list json :=
  List.filter (fun a => negb (entry_has_id id a)) l.

End provisioner_notions.

(** ** Further notions for provisioning *)

Module provisioning_notions.

(** The workspace of a tenant: the directory named after its agent id
    under the base directory. *)
Definition workspace_of (_workspace_base_dir : string)
    (path_join : string -> string -> string) (t : tenants.TenantRecord)
  : string :=
  path_join _workspace_base_dir
    (provisioning.tenant_to_agent_id
       (models.Tenant.slug (tenants.tenant t))).

End provisioning_notions.

(** ** Further fixtures *)

Module fixtures_further.

Import fixtures.

(** A callback that checks the tenant the context holds before it
    works. *)
Definition callback_checking_tenant
  : @context.callback_t (list string) Tenant.t string :=
  fun t c log =>
    match context._tenant c with
    | Some cur =>
        if String.eqb (Tenant.id cur) (Tenant.id t)
        then (Ret (Tenant.name t), log ++ ["callback"])
        else (Raise (RuntimeError "another tenant"), log)
    | None => (Raise (RuntimeError "no tenant"), log)
    end.

(** Central callbacks: one works in any context, one refuses to work
    while a tenant is set. *)
Definition central_callback_working
  : @context.callback_t (list string) (option Tenant.t) string :=
  fun _ _ log => (Ret "done", log ++ ["central-work"]).

Definition central_callback_checking
  : @context.callback_t (list string) (option Tenant.t) string :=
  fun _ c log =>
    match context._tenant c with
    | None => (Ret "done", log ++ ["central-work"])
    | Some _ => (Raise (RuntimeError "tenant set"), log)
    end.

(** The callbacks of [TestRunForMultiple]: one records the tenant, one
    fails for a given tenant id. *)
Definition callback_recording
  : @context.callback_t (list string) Tenant.t unit :=
  fun t _ log => (Ret tt, log ++ [Tenant.id t]).

Definition callback_failing_for (id : string)
  : @context.callback_t (list string) Tenant.t unit :=
  fun t _ log =>
    if String.eqb (Tenant.id t) id
    then (Raise (RuntimeError "callback boom"), log)
    else (Ret tt, log ++ [Tenant.id t]).

(** A bootstrapper with a quota: [bootstrap] raises once the log holds
    [n] of its [up] records; [revert] always returns. *)
Definition QuotaBootstrapper (nm : string) (n : nat)
  : @context.TenancyBootstrapper (list string) :=
  {| context.name := nm;
     context.bootstrap := fun _ log =>
       (if (length (List.filter (String.eqb (String.append nm ":up")) log)
            <? n)%nat
        then Ret tt
        else Raise (RuntimeError (String.append nm " exhausted")),
        log ++ [String.append nm ":up"]);
     context.revert := fun log =>
       (Ret tt, log ++ [String.append nm ":down"]) |}.

(** Room for two bootstraps; the first is spent on [tenant_a]. *)
Definition bQ := QuotaBootstrapper "Q" 2.

Definition active_q : @context.Sys (list string) :=
  snd (context.initialize [bQ] tenant_a fresh).

(** [str.lower] on ASCII text. *)
Definition lower_char (ch : ascii) : ascii :=
  let n := nat_of_ascii ch in
  if (65 <=? n)%nat && (n <=? 90)%nat then ascii_of_nat (n + 32) else ch.

Fixpoint lower (s : string) : string :=
  match s with
  | EmptyString => EmptyString
  | String ch s' => String (lower_char ch) (lower s')
  end.

(** Stand-in for [_IP_RE.match] on the host names of the scenarios. *)
Definition ip_match (s : string) : bool := String.eqb s "10.0.0.1".

(** The tenant database of the resolver tests: a table from slug or
    header value to tenant id, with the lookups made so far. *)
Record Database : Type := {
  rows : list (string * string);
  lookups : list string
}.

Definition find_row (k : string) (l : list (string * string))
  : option string :=
  snd <$> List.find (fun kv => String.eqb (fst kv) k) l.

Definition lookup_row : @resolver.LookupFn Database :=
  fun value db =>
    (Ret (find_row value (rows db)),
     {| rows := rows db; lookups := lookups db ++ [value] |}).

(** A lookup that refuses the empty string and dotted names. *)
Definition lookup_row_strict : @resolver.LookupFn Database :=
  fun value db =>
    if String.eqb value "" || resolver.has_dot value
    then (Raise (ValueError "bad key"), db)
    else lookup_row value db.

Definition database : Database :=
  {| rows := [("acme", "tenant-1"); ("globex", "tenant-2")]; lookups := [] |}.

Definition request_for (host : option string)
    (hs : list (string * option string)) (cs : list (string * json))
  : resolver.RequestContext :=
  {| resolver.headers := list_to_map hs;
     resolver.hostname := host;
     resolver.path := None;
     resolver.query := ∅;
     resolver.claims := list_to_map cs |}.

Definition header_resolver :=
  resolver.HeaderTenantResolver lower "X-Tenant-ID" lookup_row.
Definition subdomain_resolver :=
  resolver.SubdomainTenantResolver lower ip_match "ClawDesk.com" lookup_row.
Definition jwt_resolver : @resolver.TenantResolver Database :=
  resolver.JwtClaimTenantResolver "tenant_id".

(** Tenants of the store. *)
Definition routing_with_vision : routing.ModelRoutingConfig :=
  {| routing.primary := "azure/gpt-4o";
     routing.fallbacks := [];
     routing.vision_model := Some "azure/gpt-4o-vision";
     routing.long_context_model := Some "azure/gpt-4o-long";
     routing.long_context_threshold := 100000 |}.

Definition record_of (t : Tenant.t) (st : tenants.TenantStatus)
  : tenants.TenantRecord :=
  {| tenants.tenant := t; tenants.status := st;
     tenants.config :=
       {| tenants.model_routing := routing_with_vision;
          tenants.system_prompt := None |} |}.

Definition store : app.Store :=
  {| app._tenants :=
       list_to_map [("tenant-a", record_of tenant_a tenants.ACTIVE);
                    ("tenant-b", record_of tenant_b tenants.PAUSED)];
     app._api_keys := list_to_map [("key-a", "tenant-a"); ("key-b", "tenant-b")] |}.

Definition picture : app.SendMessageRequest :=
  {| app.req_customer_id := "c-1"; app.req_message := "look";
     app.req_has_images := true; app.req_estimated_tokens := 10 |}.

(** [loads] with one more frame, whose [error] member is a string. *)
Definition loads_further (raw : string) : option json :=
  if String.eqb raw "text error for 1"
  then Some (JObj [("id", JInt 1); ("error", JStr "boom")])
  else loads raw.

(** The first call answered, the second still waiting. *)
Definition first_answered : client.GatewayClient :=
  snd (client.read_frame loads str_stub "result for 1" two_in_flight).

(** A connected client with one call in flight. *)
Definition connected_one : transport.Connection :=
  {| transport.table := one_in_flight; transport._ws := true;
     transport._reader_task := true |}.

(** A file system that records what is done to it. *)
Definition Disk : Type := list string.

Definition disk_join (base name : string) : string :=
  String.append base (String.append "/" name).

Definition disk_mkdir (p : string) (f : Disk) : outcome unit * Disk :=
  (Ret tt, f ++ [String.append "mkdir " p]).

Definition disk_write_text (p content : string) (f : Disk)
  : outcome unit * Disk :=
  (Ret tt, f ++ [String.append "write " p]).

Definition disk_rmtree (p : string) (f : Disk) : Disk :=
  f ++ [String.append "rmtree " p].

Definition exn_text (e : exn) : string :=
  match e with
  | RuntimeError m | ValueError m | TimeoutError m | AttributeError m
  | TypeError m => m
  | Exception _ => "?"
  end.

(** The tenant of [make_tenant()] as a whole record. *)
Definition acme : tenants.TenantRecord := record_of tenant_1 tenants.ACTIVE.

(** A provisioner state whose gateway already lists ["tenant-acme"]. *)
Definition acme_registered : @provisioning.Sys MockGateway Disk :=
  {| provisioning.gw := at_gateway (gateway_with [entry "tenant-acme"]);
     provisioning.fs := [] |}.

End fixtures_further.

(** * Properties of the tenancy context *)

Import context.

Section TenancyContextFacts.

Context {W : Type}.
Variable bs : list (@TenancyBootstrapper W).

Abbreviation Sys := (@Sys W).

Implicit Types (s : Sys) (c : @TenancyContext W) (t p : Tenant.t).
Implicit Types (l : list (@TenancyBootstrapper W)).

Lemma revert_loop l s :
  for_each l revert_step s =
    (Ret tt, {| ctx := ctx s;
                world := fst (reverts l (world s));
                trace := trace s ++ map Down l;
                logged := logged s ++ snd (reverts l (world s)) |}).
Proof.
  revert s. induction l as [|b l IH]; intros [c w tr lg]; simpl.
  - unfold ret. by rewrite !app_nil_r.
  - unfold bind, revert_step, try_except, call_revert, logger_exception. simpl.
    destruct (revert b w) as [[[]|e] w1]; rewrite IH; simpl;
      destruct (reverts l w1) as [w2 fs]; simpl;
      by rewrite <- !app_assoc.
Qed.

Lemma revert_initialized_eq s :
  _revert_initialized s =
    (Ret tt,
     {| ctx := ctx s;
        world := fst (reverts (rev (_initialized_bootstrappers (ctx s))) (world s));
        trace := trace s ++ map Down (rev (_initialized_bootstrappers (ctx s)));
        logged := logged s ++
                  snd (reverts (rev (_initialized_bootstrappers (ctx s))) (world s)) |}).
Proof.
  unfold _revert_initialized, bind, get_ctx.
  apply (revert_loop (rev (_initialized_bootstrappers (ctx s))) s).
Qed.

Lemma end_idle s : _initialized (ctx s) = false -> end_ s = (Ret tt, s).
Proof. intros H. unfold end_, bind, get_ctx. by rewrite H. Qed.

Lemma end_active s :
  _initialized (ctx s) = true ->
  end_ s =
    (Ret tt,
     {| ctx := init;
        world := fst (reverts (rev (_initialized_bootstrappers (ctx s))) (world s));
        trace := trace s ++ map Down (rev (_initialized_bootstrappers (ctx s)));
        logged := logged s ++
                  snd (reverts (rev (_initialized_bootstrappers (ctx s))) (world s)) |}).
Proof.
  intros H. unfold end_. unfold bind at 1. unfold get_ctx at 1. rewrite H. simpl.
  unfold bind at 1. rewrite revert_initialized_eq. reflexivity.
Qed.

Lemma end_returns s : end_ s = (Ret tt, ended s).
Proof.
  unfold ended. destruct (_initialized (ctx s)) eqn:H.
  - by rewrite end_active.
  - by rewrite end_idle.
Qed.

Lemma ended_ctx s :
  _initialized (ctx (ended s)) = false /\
  _tenant (ctx (ended s)) = (if _initialized (ctx s) then None else _tenant (ctx s)).
Proof.
  unfold ended. destruct (_initialized (ctx s)) eqn:H.
  - by rewrite end_active.
  - by rewrite end_idle.
Qed.

Lemma bootstrap_step_ok t b s w1 :
  bootstrap b t (world s) = (Ret tt, w1) ->
  bootstrap_step t b s =
    (Ret tt,
     {| ctx := {| _tenant := _tenant (ctx s);
                  _initialized := _initialized (ctx s);
                  _initialized_bootstrappers :=
                    _initialized_bootstrappers (ctx s) ++ [b] |};
        world := w1;
        trace := trace s ++ [Up b t];
        logged := logged s |}).
Proof.
  intros H. unfold bootstrap_step, try_except, bind, call_bootstrap.
  by rewrite H.
Qed.

Lemma bootstrap_step_fail t b s e w1 :
  bootstrap b t (world s) = (Raise e, w1) ->
  bootstrap_step t b s =
    (Raise e,
     {| ctx := {| _tenant := None; _initialized := false;
                  _initialized_bootstrappers :=
                    _initialized_bootstrappers (ctx s) |};
        world := fst (reverts (rev (_initialized_bootstrappers (ctx s))) w1);
        trace := (trace s ++ [Up b t]) ++
                 map Down (rev (_initialized_bootstrappers (ctx s)));
        logged := logged s ++
                  snd (reverts (rev (_initialized_bootstrappers (ctx s))) w1) |}).
Proof.
  intros H. unfold bootstrap_step, try_except, call_bootstrap.
  unfold bind at 1. rewrite H. unfold bind at 1.
  rewrite revert_initialized_eq. reflexivity.
Qed.

Lemma for_each_app {A} (l1 l2 : list A) (body : A -> M unit) s :
  for_each (l1 ++ l2) body s = (for_each l1 body ;;; for_each l2 body) s.
Proof.
  revert s. induction l1 as [|x l1 IH]; intros s; simpl.
  - reflexivity.
  - unfold bind. destruct (body x s) as [[[]|e] s1]; [|reflexivity].
    rewrite IH. reflexivity.
Qed.

Lemma boot_loop_ok t l s w1 :
  boots t l (world s) = Some w1 ->
  for_each l (bootstrap_step t) s =
    (Ret tt,
     {| ctx := {| _tenant := _tenant (ctx s);
                  _initialized := _initialized (ctx s);
                  _initialized_bootstrappers :=
                    _initialized_bootstrappers (ctx s) ++ l |};
        world := w1;
        trace := trace s ++ map (fun b => Up b t) l;
        logged := logged s |}).
Proof.
  revert s. induction l as [|b l IH]; intros [[ten ini st] w tr lg]; simpl.
  - intros [= ->]. unfold ret. by rewrite !app_nil_r.
  - destruct (bootstrap b t w) as [[[]|e] w2] eqn:Hb; [|done].
    intros Hl. unfold bind.
    erewrite bootstrap_step_ok by exact Hb. simpl.
    rewrite IH by exact Hl. simpl. by rewrite <- !app_assoc.
Qed.

Lemma boot_loop_fail t pre b post s e wk wk' :
  boots t pre (world s) = Some wk ->
  bootstrap b t wk = (Raise e, wk') ->
  for_each (pre ++ b :: post) (bootstrap_step t) s =
    (Raise e,
     {| ctx := {| _tenant := None; _initialized := false;
                  _initialized_bootstrappers :=
                    _initialized_bootstrappers (ctx s) ++ pre |};
        world := fst (reverts (rev (_initialized_bootstrappers (ctx s) ++ pre)) wk');
        trace := trace s ++ map (fun b => Up b t) (pre ++ [b]) ++
                 map Down (rev (_initialized_bootstrappers (ctx s) ++ pre));
        logged := logged s ++
                  snd (reverts (rev (_initialized_bootstrappers (ctx s) ++ pre)) wk') |}).
Proof.
  intros Hpre Hb. rewrite for_each_app. unfold bind at 1.
  rewrite (boot_loop_ok _ _ _ _ Hpre). simpl. unfold bind.
  erewrite bootstrap_step_fail by exact Hb. simpl.
  rewrite map_app. simpl. by rewrite <- !app_assoc.
Qed.

Lemma boots_cases t l w :
  (exists w1, boots t l w = Some w1) \/
  (exists pre b post e wk wk',
      l = pre ++ b :: post /\ boots t pre w = Some wk /\
      bootstrap b t wk = (Raise e, wk')).
Proof.
  revert w. induction l as [|b l IH]; intros w; simpl.
  - left. by eexists.
  - destruct (bootstrap b t w) as [[[]|e] w1] eqn:Hb.
    + destruct (IH w1) as [[w2 H]|(pre & b' & post & e & wk & wk' & -> & H1 & H2)].
      * left. by eexists.
      * right. exists (b :: pre), b', post, e, wk, wk'. simpl. by rewrite Hb.
    + right. by exists [], b, l, e, w, w1.
Qed.

Lemma always_boots_total t l w :
  Forall (fun b => forall w, fst (bootstrap b t w) = Ret tt) l ->
  exists w1, boots t l w = Some w1.
Proof.
  intros H. revert w. induction H as [|b l Hb _ IH]; intros w; simpl.
  - by eexists.
  - specialize (Hb w). destruct (bootstrap b t w) as [[[]|e] w1]; [|done].
    apply IH.
Qed.

Lemma initialize_noop s t :
  same_tenant_active (ctx s) t = true -> initialize bs t s = (Ret tt, s).
Proof. intros H. unfold initialize, bind, get_ctx. by rewrite H. Qed.

Lemma initialize_fresh s t :
  same_tenant_active (ctx s) t = false ->
  initialize bs t s =
    (set_tenant (Some t) ;;;
     set_initialized_bootstrappers [] ;;;
     for_each bs (bootstrap_step t) ;;;
     set_initialized true) (ended s).
Proof.
  intros H. unfold initialize. unfold bind at 1. unfold get_ctx at 1.
  rewrite H. unfold bind at 1.
  destruct (_initialized (ctx s)) eqn:Hi.
  - by rewrite end_returns.
  - unfold ret, ended. by rewrite end_idle.
Qed.

Lemma initialize_ok s t w1 :
  same_tenant_active (ctx s) t = false ->
  boots t bs (world (ended s)) = Some w1 ->
  initialize bs t s =
    (Ret tt,
     {| ctx := {| _tenant := Some t; _initialized := true;
                  _initialized_bootstrappers := bs |};
        world := w1;
        trace := trace (ended s) ++ map (fun b => Up b t) bs;
        logged := logged (ended s) |}).
Proof.
  intros Hs Hb. rewrite initialize_fresh by done.
  unfold bind at 1. simpl. unfold bind at 1. simpl. unfold bind at 1.
  erewrite boot_loop_ok by exact Hb. reflexivity.
Qed.

Lemma initialize_fail s t pre b post e wk wk' :
  same_tenant_active (ctx s) t = false ->
  bs = pre ++ b :: post ->
  boots t pre (world (ended s)) = Some wk ->
  bootstrap b t wk = (Raise e, wk') ->
  initialize bs t s =
    (Raise e,
     {| ctx := {| _tenant := None; _initialized := false;
                  _initialized_bootstrappers := pre |};
        world := fst (reverts (rev pre) wk');
        trace := trace (ended s) ++ map (fun b => Up b t) (pre ++ [b]) ++
                 map Down (rev pre);
        logged := logged (ended s) ++ snd (reverts (rev pre) wk') |}).
Proof.
  intros Hs Hl Hpre Hb. rewrite initialize_fresh by done.
  unfold bind at 1. simpl. unfold bind at 1. simpl. unfold bind at 1.
  rewrite Hl. erewrite boot_loop_fail; [reflexivity| exact Hpre | exact Hb].
Qed.

(** However the bootstrappers behave, [initialize] for a tenant that is
    not already current either completes with that tenant active over
    the whole configured sequence, or fails with no tenant. *)
Lemma initialize_outcomes s t :
  same_tenant_active (ctx s) t = false ->
  (fst (initialize bs t s) = Ret tt /\
   ctx (snd (initialize bs t s)) =
     {| _tenant := Some t; _initialized := true;
        _initialized_bootstrappers := bs |}) \/
  (raised (fst (initialize bs t s)) /\
   NoTenant (ctx (snd (initialize bs t s)))).
Proof.
  intros Hs.
  destruct (boots_cases t bs (world (ended s)))
    as [[w1 H]|(pre & b & post & e & wk & wk' & Hl & H1 & H2)].
  - left. by rewrite (initialize_ok _ _ _ Hs H).
  - right. by rewrite (initialize_fail _ _ _ _ _ _ _ _ Hs Hl H1 H2).
Qed.

Lemma initialize_always s p :
  always_boots bs p ->
  same_tenant_active (ctx s) p = false ->
  exists w1,
    initialize bs p s =
      (Ret tt,
       {| ctx := {| _tenant := Some p; _initialized := true;
                    _initialized_bootstrappers := bs |};
          world := w1;
          trace := trace (ended s) ++ map (fun b => Up b p) bs;
          logged := logged (ended s) |}).
Proof.
  intros Ha Hs.
  destruct (always_boots_total p bs (world (ended s)) Ha) as [w1 H].
  exists w1. by apply initialize_ok.
Qed.

(** *** The invariant under the building blocks *)

Lemma invariant_no_tenant c : NoTenant c -> state_invariant bs c.
Proof.
  intros [Ht Hi]. unfold state_invariant. rewrite Ht, Hi.
  split; [split|]; by intros H.
Qed.

Lemma invariant_active t :
  state_invariant bs {| _tenant := Some t; _initialized := true;
                        _initialized_bootstrappers := bs |}.
Proof. unfold state_invariant. simpl. split; [split|]; eauto. Qed.

Lemma invariant_idle c :
  state_invariant bs c -> _initialized c = false -> _tenant c = None.
Proof.
  intros [[_ H] _] Hi. destruct (_tenant c); [|done].
  rewrite Hi in H. by discriminate H.
Qed.

Lemma invariant_busy c p :
  state_invariant bs c -> _tenant c = Some p ->
  _initialized c = true /\ _initialized_bootstrappers c = bs.
Proof.
  intros [[_ H] H2] Ht. rewrite Ht in H.
  assert (_initialized c = true) by (by apply H). auto.
Qed.

Lemma init_invariant : state_invariant bs init.
Proof. by apply invariant_no_tenant. Qed.

Lemma initialize_invariant t s :
  state_invariant bs (ctx s) ->
  state_invariant bs (ctx (snd (initialize bs t s))).
Proof.
  intros HI. destruct (same_tenant_active (ctx s) t) eqn:Hs.
  - by rewrite initialize_noop.
  - destruct (initialize_outcomes s t Hs) as [[_ ->]|[_ H]].
    + apply invariant_active.
    + by apply invariant_no_tenant.
Qed.

Lemma end_invariant s :
  state_invariant bs (ctx s) -> state_invariant bs (ctx (ended s)).
Proof.
  intros HI. apply invariant_no_tenant.
  destruct (ended_ctx s) as [Hi Ht]. split; [|done].
  rewrite Ht. destruct (_initialized (ctx s)) eqn:E; [done|].
  by apply invariant_idle.
Qed.

Lemma restore_invariant o s :
  state_invariant bs (ctx s) ->
  state_invariant bs (ctx (snd (restore bs o s))).
Proof.
  destruct o as [p|]; simpl.
  - apply initialize_invariant.
  - apply end_invariant.
Qed.

Lemma call_callback_ctx {Arg A} view (cb : callback_t Arg A) arg s :
  ctx (snd (call_callback view cb arg s)) = ctx s.
Proof.
  unfold call_callback. by destruct (cb arg (ctx s) (world s)).
Qed.

Lemma visit_invariant {A} t (cb : callback_t Tenant.t A) s :
  state_invariant bs (ctx s) ->
  state_invariant bs
    (ctx (snd ((initialize bs t ;;; call_callback Some cb t) s))).
Proof.
  intros HI. unfold bind.
  pose proof (initialize_invariant t s HI) as H1.
  destruct (initialize bs t s) as [[[]|e] s1]; simpl in *; [|done].
  by rewrite call_callback_ctx.
Qed.

Lemma visits_invariant ts (cb : callback_t Tenant.t unit) s :
  state_invariant bs (ctx s) ->
  state_invariant bs
    (ctx (snd (for_each ts
                 (fun t => initialize bs t ;;; call_callback Some cb t) s))).
Proof.
  revert s. induction ts as [|t ts IH]; intros s HI; simpl; [done|].
  unfold bind at 1.
  pose proof (visit_invariant t cb s HI) as H1.
  destruct ((initialize bs t ;;; call_callback Some cb t) s)
    as [[[]|e] s1]; simpl in *; [|done].
  by apply IH.
Qed.

(** *** The scoped operations unfolded *)

Lemma run_unfold {A} t (cb : callback_t Tenant.t A) s :
  let body := (initialize bs t ;;; call_callback Some cb t) s in
  let final := restore bs (_tenant (ctx s)) (snd body) in
  run bs t cb s =
    (match fst final with Ret _ => fst body | Raise e => Raise e end,
     snd final).
Proof.
  simpl. unfold run. unfold bind at 1. unfold get_ctx at 1.
  unfold bind at 1. unfold try_finally.
  destruct ((initialize bs t ;;; call_callback Some cb t) s) as [r s1].
  simpl. destruct (restore bs (_tenant (ctx s)) s1) as [[[]|e] s2]; simpl.
  - by destruct r.
  - done.
Qed.

Lemma call_callback_eq {Arg A} view (cb : callback_t Arg A) arg s :
  call_callback view cb arg s =
    (fst (cb arg (ctx s) (world s)),
     {| ctx := ctx s; world := snd (cb arg (ctx s) (world s));
        trace := trace s ++ [Callback (view arg)]; logged := logged s |}).
Proof.
  unfold call_callback. by destruct (cb arg (ctx s) (world s)).
Qed.

Lemma same_tenant_active_idle c t :
  _initialized c = false -> same_tenant_active c t = false.
Proof. intros H. unfold same_tenant_active. by rewrite H. Qed.

Lemma same_tenant_active_eqb c cur t :
  _initialized c = true -> _tenant c = Some cur ->
  same_tenant_active c t = String.eqb (Tenant.id cur) (Tenant.id t).
Proof. intros H1 H2. unfold same_tenant_active. by rewrite H1, H2. Qed.

Lemma central_unfold {A} (cb : callback_t (option Tenant.t) A) s :
  central bs cb s =
    (result <- call_callback (fun o => o) cb (_tenant (ctx s)) ;;
     match _tenant (ctx s) with
     | Some p => initialize bs p
     | None => ret tt
     end ;;;
     ret result) (ended s).
Proof.
  unfold central. unfold bind at 1. unfold get_ctx at 1.
  unfold bind at 1. by rewrite end_returns.
Qed.

(** ** Claims *)



(** What re-initializing a previous tenant [p] can do from a state in
    which [p] is not current: complete, with [p] active over the whole
    sequence, or fail, with no tenant. *)
Lemma reinitialize_outcomes x p :
  same_tenant_active (ctx x) p = false ->
  (fst (initialize bs p x) = Ret tt /\
   ctx (snd (initialize bs p x)) =
     {| _tenant := Some p; _initialized := true;
        _initialized_bootstrappers := bs |} /\
   trace (snd (initialize bs p x)) =
     trace (ended x) ++ map (fun b => Up b p) bs) \/
  (exists e, fst (initialize bs p x) = Raise e /\
             NoTenant (ctx (snd (initialize bs p x)))).
Proof.
  intros Hs.
  destruct (boots_cases p bs (world (ended x)))
    as [[w1 H]|(pre & b & post & e & wk & wk' & Hl & H1 & H2)].
  - left. by rewrite (initialize_ok _ _ _ Hs H).
  - right. exists e. by rewrite (initialize_fail _ _ _ _ _ _ _ _ Hs Hl H1 H2).
Qed.

(** C3.  [run(tenant, callback)] ends with the restoring step, whether
    the callback returned or raised: [end()] when no tenant was current
    before the call, else [initialize] of the previous tenant, called in
    the state the [try] block left ([body] below).  When that step
    completes, the context is as before the call (the previous tenant
    current and initialized, or no tenant), the caller receives just
    what the callback answered, its value or its exception (or the
    exception of [initialize(tenant)] when that failed and the callback
    was not called), and the restoring calls come after the callback.
    When re-initializing the previous tenant raises, that exception is
    what the caller receives, whatever the callback answered, and the
    context is left without tenant.  Nothing is assumed of [tenant]'s
    bootstrap, of any revert or of the callback. *)
Theorem run_restores {A} s t (cb : callback_t Tenant.t A) :
  state_invariant bs (ctx s) ->
  let body := (initialize bs t ;;; call_callback Some cb t) s in
  ((forall p, _tenant (ctx s) = Some p ->
              fst (initialize bs p (snd body)) = Ret tt) ->
   _tenant (ctx (snd (run bs t cb s))) = _tenant (ctx s) /\
   _initialized (ctx (snd (run bs t cb s))) = _initialized (ctx s) /\
   (forall s1, initialize bs t s = (Ret tt, s1) ->
      fst (run bs t cb s) = fst (cb t (ctx s1) (world s1)) /\
      trace (snd (run bs t cb s)) =
        trace s1 ++ [Callback (Some t)] ++
        restoration_calls bs (_tenant (ctx s)) t) /\
   (forall e s1, initialize bs t s = (Raise e, s1) ->
      fst (run bs t cb s) = Raise e)) /\
  (forall p e, _tenant (ctx s) = Some p ->
               fst (initialize bs p (snd body)) = Raise e ->
     fst (run bs t cb s) = Raise e /\
     NoTenant (ctx (snd (run bs t cb s)))).
Proof.
  intros HI. cbv zeta. rewrite run_unfold. cbv zeta. unfold bind.
  destruct (_tenant (ctx s)) as [p|] eqn:Ht.
  - (* a previous tenant p *)
    destruct (invariant_busy _ _ HI Ht) as [Hi Hst].
    pose proof (same_tenant_active_eqb _ _ t Hi Ht) as Hs.
    cbn [restore].
    destruct (String.eqb (Tenant.id p) (Tenant.id t)) eqn:Hid.
    + (* same id: p stays current throughout *)
      rewrite (initialize_noop _ _ Hs). rewrite call_callback_eq.
      cbn [fst snd].
      assert (same_tenant_active (ctx s) p = true) as Hsp.
      { rewrite (same_tenant_active_eqb _ _ p Hi Ht). apply String.eqb_refl. }
      rewrite initialize_noop by exact Hsp. cbn [fst snd ctx trace].
      split.
      * intros _. split; [done|]. split; [done|]. split; [|done].
        intros s1 [= <-]. unfold restoration_calls. by rewrite Hid.
      * intros p0 e0 [= <-] Hfail.
        rewrite initialize_noop in Hfail by exact Hsp. discriminate Hfail.
    + (* another id *)
      destruct (boots_cases t bs (world (ended s)))
        as [[w1 H]|(pre & b & post & e & wk & wk' & Hl & H1 & H2)].
      * rewrite (initialize_ok _ _ _ Hs H). rewrite call_callback_eq.
        cbn [fst snd ctx world].
        match goal with |- context [initialize bs p ?x] => set (s2 := x) end.
        assert (same_tenant_active (ctx s2) p = false) as Hs2.
        { unfold same_tenant_active. simpl.
          by rewrite String.eqb_sym. }
        destruct (reinitialize_outcomes s2 p Hs2)
          as [(Hr & Hc & Htr)|(e2 & Hr & Hc)].
        -- split.
           ++ intros _. rewrite Hr, Hc. cbn [_tenant _initialized].
              split; [done|]. split; [done|]. split; [|done].
              intros s1 [= <-]. cbn [trace]. split; [done|].
              unfold restoration_calls. rewrite Htr, Hid. unfold ended, s2.
              rewrite end_active by reflexivity. cbn [trace snd].
              by rewrite <- !app_assoc.
           ++ intros p0 e0 [= <-] Hfail. rewrite Hr in Hfail.
              discriminate Hfail.
        -- split.
           ++ intros Hok. specialize (Hok p eq_refl). by rewrite Hr in Hok.
           ++ intros p0 e0 [= <-] Hfail. rewrite Hr in Hfail.
              injection Hfail as <-. rewrite Hr. cbn [fst snd]. by split.
      * rewrite (initialize_fail _ _ _ _ _ _ _ _ Hs Hl H1 H2).
        cbn [fst snd].
        match goal with |- context [initialize bs p ?x] => set (s2 := x) end.
        assert (same_tenant_active (ctx s2) p = false) as Hs2
          by (by apply same_tenant_active_idle).
        destruct (reinitialize_outcomes s2 p Hs2)
          as [(Hr & Hc & Htr)|(e2 & Hr & Hc)].
        -- split.
           ++ intros _. rewrite Hr, Hc. cbn [_tenant _initialized].
              split; [done|]. split; [done|]. split; [done|].
              by intros e0 s1 [= <- _].
           ++ intros p0 e0 [= <-] Hfail. rewrite Hr in Hfail.
              discriminate Hfail.
        -- split.
           ++ intros Hok. specialize (Hok p eq_refl). by rewrite Hr in Hok.
           ++ intros p0 e0 [= <-] Hfail. rewrite Hr in Hfail.
              injection Hfail as <-. rewrite Hr. cbn [fst snd]. by split.
  - (* no previous tenant *)
    assert (_initialized (ctx s) = false) as Hi.
    { destruct (_initialized (ctx s)) eqn:E; [|done].
      destruct HI as [[H _] _]. rewrite Ht in H.
      destruct (H E) as [x Hx]. discriminate Hx. }
    pose proof (same_tenant_active_idle _ t Hi) as Hs.
    split; [intros _|done].
    destruct (boots_cases t bs (world (ended s)))
      as [[w1 H]|(pre & b & post & e & wk & wk' & Hl & H1 & H2)].
    + rewrite (initialize_ok _ _ _ Hs H). rewrite call_callback_eq. simpl.
      rewrite end_active by reflexivity. simpl.
      split; [done|]. split; [done|]. split; [|done].
      intros s1 [= <-]. simpl. split; [done|]. by rewrite <- !app_assoc.
    + rewrite (initialize_fail _ _ _ _ _ _ _ _ Hs Hl H1 H2). simpl.
      split; [done|]. split; [done|]. split; [done|].
      by intros e0 s1 [= <- _].
Qed.

(** C5.  A [revert()] that raises during a rollback is swallowed and only
    recorded by the logger: [_revert_initialized] never raises and calls
    [revert] on every entry of the stack in reverse order whatever the
    individual calls answer, so [end] never raises either, and a failed
    [initialize] still raises the exception of the bootstrap that
    triggered the rollback. *)
Theorem revert_failures_are_swallowed s :
  _revert_initialized s =
    (Ret tt,
     {| ctx := ctx s;
        world := fst (reverts (rev (_initialized_bootstrappers (ctx s))) (world s));
        trace := trace s ++ map Down (rev (_initialized_bootstrappers (ctx s)));
        logged := logged s ++
                  snd (reverts (rev (_initialized_bootstrappers (ctx s))) (world s)) |}) /\
  fst (end_ s) = Ret tt /\
  (_initialized (ctx s) = true ->
   NoTenant (ctx (ended s)) /\
   trace (ended s) =
     trace s ++ map Down (rev (_initialized_bootstrappers (ctx s)))) /\
  (forall t pre b post e wk wk',
      same_tenant_active (ctx s) t = false ->
      bs = pre ++ b :: post ->
      boots t pre (world (ended s)) = Some wk ->
      bootstrap b t wk = (Raise e, wk') ->
      fst (initialize bs t s) = Raise e /\
      trace (snd (initialize bs t s)) =
        trace (ended s) ++ map (fun b => Up b t) (pre ++ [b]) ++
        map Down (rev pre) /\
      logged (snd (initialize bs t s)) =
        logged (ended s) ++ snd (reverts (rev pre) wk')).
Proof.
  split; [apply revert_initialized_eq|].
  split; [by rewrite end_returns|].
  split.
  { intros Hi. unfold ended. by rewrite end_active. }
  intros t pre b post e wk wk' Hs Hl Hpre Hb.
  by rewrite (initialize_fail _ _ _ _ _ _ _ _ Hs Hl Hpre Hb).
Qed.

(** C8.  [initialize(t)] on a context already active for a tenant with
    the same id does nothing: it returns at once, calls no [bootstrap]
    and no [revert], and leaves the state as it was.  Hence a second
    [initialize] with the same tenant id, right after one that
    completed, adds nothing to what the first one did. *)
Theorem initialize_same_tenant_noop s t t' :
  Tenant.id t' = Tenant.id t ->
  (forall cur,
      _initialized (ctx s) = true -> _tenant (ctx s) = Some cur ->
      Tenant.id cur = Tenant.id t ->
      initialize bs t s = (Ret tt, s)) /\
  (fst (initialize bs t s) = Ret tt ->
   initialize bs t' (snd (initialize bs t s)) =
     (Ret tt, snd (initialize bs t s))) /\
  (forall w1,
      same_tenant_active (ctx s) t = false ->
      boots t bs (world (ended s)) = Some w1 ->
      trace (snd ((initialize bs t ;;; initialize bs t') s)) =
        trace (ended s) ++ map (fun b => Up b t) bs).
Proof.
  intros Hid.
  assert (fst (initialize bs t s) = Ret tt ->
          initialize bs t' (snd (initialize bs t s)) =
            (Ret tt, snd (initialize bs t s))) as Hagain.
  { intros Hret. apply initialize_noop.
    destruct (same_tenant_active (ctx s) t) eqn:Hs.
    - rewrite (initialize_noop _ _ Hs). simpl.
      unfold same_tenant_active in *. by rewrite Hid.
    - destruct (initialize_outcomes s t Hs) as [[_ Hc]|[Hr _]].
      + rewrite Hc. unfold same_tenant_active. simpl.
        rewrite Hid. apply String.eqb_refl.
      + by rewrite Hret in Hr. }
  split; [|split; [exact Hagain|]].
  - intros cur Hi Ht Hc. apply initialize_noop.
    unfold same_tenant_active. rewrite Hi, Ht, Hc. simpl.
    apply String.eqb_refl.
  - intros w1 Hs Hb. unfold bind.
    pose proof (initialize_ok _ _ _ Hs Hb) as Hfirst.
    rewrite Hfirst in Hagain |- *. simpl in Hagain.
    by rewrite (Hagain eq_refl).
Qed.

(** C9.  Each of the five public operations, whether it returns or
    raises, preserves the invariant of the data model; and under that
    invariant [initialized] holds exactly when a tenant is current and
    the stack is the whole configured sequence. *)
Theorem lifecycle_preserves_invariant s :
  state_invariant bs (ctx s) ->
  (_initialized (ctx s) = true <->
   is_Some (_tenant (ctx s)) /\ _initialized_bootstrappers (ctx s) = bs) /\
  (forall t, state_invariant bs (ctx (snd (initialize bs t s)))) /\
  state_invariant bs (ctx (snd (end_ s))) /\
  (forall A t (cb : callback_t Tenant.t A),
      state_invariant bs (ctx (snd (run bs t cb s)))) /\
  (forall A (cb : callback_t (option Tenant.t) A),
      state_invariant bs (ctx (snd (central bs cb s)))) /\
  (forall ts (cb : callback_t Tenant.t unit),
      state_invariant bs (ctx (snd (run_for_multiple bs ts cb s)))).
Proof.
  intros HI. split; [|split; [|split; [|split; [|split]]]].
  - destruct HI as [[H1 H2] H3]. split; [auto|]. intros [H _]. auto.
  - intros t. by apply initialize_invariant.
  - by apply end_invariant.
  - intros A t cb. rewrite run_unfold. simpl.
    apply restore_invariant. by apply visit_invariant.
  - intros A cb. unfold central. unfold bind at 1. unfold get_ctx at 1.
    unfold bind at 1. rewrite end_returns.
    pose proof (end_invariant s HI) as H1.
    unfold bind at 1.
    pose proof (call_callback_ctx (fun o => o) cb (_tenant (ctx s)) (ended s)) as Hc.
    destruct (call_callback (fun o => o) cb (_tenant (ctx s)) (ended s))
      as [[a|e] s1]; simpl in Hc; [|simpl; by rewrite Hc].
    unfold bind.
    destruct (_tenant (ctx s)) as [p|].
    + assert (state_invariant bs (ctx (snd (initialize bs p s1)))) as H2
        by (apply initialize_invariant; by rewrite Hc).
      by destruct (initialize bs p s1) as [[[]|e] s2].
    + simpl. by rewrite Hc.
  - intros ts cb. unfold run_for_multiple. unfold bind at 1.
    unfold get_ctx at 1. unfold bind.
    pose proof (visits_invariant ts cb s HI) as H1.
    destruct (for_each ts _ s) as [[[]|e] s1]; simpl in *; [|done].
    by apply restore_invariant.
Qed.


End TenancyContextFacts.

(** * Properties of the gateway client *)

Section GatewayClientFacts.

Import client.

Variable json_loads : string -> option json.
Variable py_str : option json -> string.
Variable request_timeout : string.

Implicit Types (c : GatewayClient) (i req_id : Z) (future : addr).

Lemma wait_for_expire_pending c future :
  _pending (wait_for_expire future c) = _pending c.
Proof.
  unfold wait_for_expire. by destruct (heap c !! future) as [[]|].
Qed.

Lemma wait_for_expire_done c future :
  is_done future (wait_for_expire future c) = true.
Proof.
  unfold is_done, wait_for_expire.
  destruct (heap c !! future) as [[]|] eqn:H; simpl;
    rewrite ?lookup_insert_eq, ?H; done.
Qed.

(** A call that has just been issued waits in the table on a future
    that is not done. *)
Lemma request_begin_waits method params c :
  let '((req_id, future), c1) := request_begin method params c in
  _pending c1 !! req_id = Some future /\ heap c1 !! future = Some Pending.
Proof. simpl. by rewrite !lookup_insert_eq. Qed.

(** A frame for an id under which no call waits is dropped: no
    exception, no future touched, and the table loses at most the entry
    of that id. *)
Lemma read_frame_settled raw c i :
  frame_for json_loads raw i ->
  settled c i ->
  read_frame json_loads py_str raw c =
    (Ret tt,
     {| _request_id := _request_id c;
        _pending := delete i (_pending c);
        heap := heap c; next_addr := next_addr c; sent := sent c |}).
Proof.
  intros (msg & Hl & Hid) Hs. unfold read_frame, settled in *.
  rewrite Hl, Hid. unfold pending_pop.
  destruct (_pending c !! i) as [a|] eqn:Hp; [|done].
  change (is_done a _) with (is_done a c). by rewrite Hs.
Qed.

(** C4.  When the timeout of a call runs out before a response has
    arrived, the call's entry leaves the table and the call fails with a
    timeout error of its own.  A frame that comes for that id afterwards,
    or between the timer and the caller waking up, and more generally a
    frame for any id under which no call waits (no entry, or an entry
    whose future is done), is dropped: the reader raises nothing, touches
    no future and no entry of another id. *)
Theorem timed_out_call_and_late_frames c req_id future method raw :
  _pending c !! req_id = Some future ->
  heap c !! future = Some Pending ->
  frame_for json_loads raw req_id ->
  let expired := wait_for_expire future c in
  let out := request_on_timeout request_timeout req_id method expired in
  fst out =
    Raise (TimeoutError
             (String.append "Request timeout: "
                (String.append method
                   (String.append " (" (String.append request_timeout "s)"))))) /\
  _pending (snd out) = delete req_id (_pending c) /\
  (forall j, j <> req_id -> _pending (snd out) !! j = _pending c !! j) /\
  read_frame json_loads py_str raw (snd out) = (Ret tt, snd out) /\
  read_frame json_loads py_str raw expired = (Ret tt, snd out) /\
  (forall c' raw' i,
      frame_for json_loads raw' i -> settled c' i ->
      exists c'',
        read_frame json_loads py_str raw' c' = (Ret tt, c'') /\
        heap c'' = heap c' /\
        (forall j, j <> i -> _pending c'' !! j = _pending c' !! j)).
Proof.
  intros Hp Hh Hraw. cbv zeta.
  split; [reflexivity|].
  split; [simpl; by rewrite wait_for_expire_pending|].
  split.
  { intros j Hj. simpl. rewrite wait_for_expire_pending.
    by apply lookup_delete_ne. }
  split.
  { rewrite (read_frame_settled raw _ req_id Hraw).
    - simpl. by rewrite delete_delete_eq.
    - unfold settled. simpl. by rewrite lookup_delete_eq. }
  split.
  { rewrite (read_frame_settled raw _ req_id Hraw); [done|].
    unfold settled. rewrite wait_for_expire_pending, Hp.
    apply wait_for_expire_done. }
  intros c' raw' i Hf Hs. eexists.
  split; [by apply read_frame_settled|]. split; [done|].
  intros j Hj. simpl. by apply lookup_delete_ne.
Qed.

End GatewayClientFacts.

(** * Properties of the provisioner *)

Section TenantProvisionerFacts.

Import provisioner.

Context {G : Type}.
Variable gw : @GatewayClientProtocol G.
Variable model_dump : OpenClawAgentConfig.t -> json.

Implicit Types (l : list json) (a : json) (id : string).

(** Runs the next pure step of an operation: a value read out of the
    snapshot and bound to a name. *)
Ltac next_step := unfold bind at 1; unfold lift at 1.

Lemma eq_str_true v id : eq_str v id = true <-> v = JStr id.
Proof.
  destruct v; simpl; try (split; [discriminate|discriminate]).
  rewrite String.eqb_eq. split; [by intros ->|by intros [= ->]].
Qed.

Lemma eq_str_entry d id :
  eq_str (default JNull (dict_get d "id")) id = true <-> has_id id (JObj d).
Proof.
  rewrite eq_str_true. unfold has_id. split.
  - intros H. exists d. split; [done|].
    destruct (dict_get d "id"); simpl in *; [by rewrite H|done].
  - intros (d' & [= <-] & H). by rewrite H.
Qed.

Lemma any_has_id_absent l id :
  Forall (fun a => is_entry a /\ ~ has_id id a) l ->
  any_has_id l id = Ret false.
Proof.
  induction 1 as [|a l [[d ->] Hn] _ IH]; simpl; [done|].
  destruct (eq_str _ id) eqn:E; [|done].
  by apply eq_str_entry in E.
Qed.

Lemma any_has_id_present l id :
  Forall is_entry l -> Exists (has_id id) l -> any_has_id l id = Ret true.
Proof.
  induction 1 as [|a l [d ->] _ IH]; intros Hex; simpl.
  - by apply Exists_nil in Hex.
  - destruct (eq_str _ id) eqn:E; [done|].
    apply Exists_cons in Hex as [Hex|Hex]; [|by apply IH].
    apply eq_str_entry in Hex. by rewrite Hex in E.
Qed.

Lemma without_id_absent l id :
  Forall (fun a => is_entry a /\ ~ has_id id a) l ->
  without_id l id = Ret l.
Proof.
  induction 1 as [|a l [[d ->] Hn] _ IH]; simpl; [done|].
  rewrite IH. destruct (eq_str _ id) eqn:E; [|done].
  by apply eq_str_entry in E.
Qed.

Lemma absent_or_present l id :
  Forall is_entry l ->
  ~ Exists (has_id id) l ->
  Forall (fun a => is_entry a /\ ~ has_id id a) l.
Proof.
  intros Hl Hn. apply Forall_forall. intros a Ha. split.
  - by apply (proj1 (Forall_forall _ _) Hl).
  - intros H. apply Hn. apply Exists_exists. eauto.
Qed.

(** What both operations read out of the snapshot. *)
Lemma registry_read config agents l :
  registry_of config = Some (agents, l) ->
  default (JObj []) (dict_get config "agents") = JObj agents /\
  py_get (JObj agents) "list" (JList []) = Ret (JList l).
Proof.
  unfold registry_of. intros H.
  destruct (dict_get config "agents") as [[| | | | |d]|]; simpl; try done.
  - destruct (dict_get d "list") as [[| | | |l'|]|] eqn:E; simpl; try done.
    + injection H as <- <-. simpl. by rewrite E.
    + injection H as <- <-. simpl. by rewrite E.
  - by injection H as <- <-.
Qed.

Lemma fetch s snapshot g1 :
  get_config gw (remote s) = (Ret snapshot, g1) ->
  call_get_config gw s =
    (Ret snapshot, {| remote := g1; calls := calls s ++ [ConfigGet] |}).
Proof. intros H. unfold call_get_config. by rewrite H. Qed.

(** C6.  When the registry list of the snapshot holds no entry with the
    target agent id, removing the agent succeeds without any
    [config.patch]: the one call made is the [config.get] that fetched
    the snapshot, and the remote side is as that fetch left it. *)
Theorem remove_absent_agent_is_noop s snapshot g1 agents l agent_id :
  get_config gw (remote s) = (Ret snapshot, g1) ->
  registry_of (OpenClawConfigSnapshot.config snapshot) = Some (agents, l) ->
  Forall (fun a => is_entry a /\ ~ has_id agent_id a) l ->
  _remove_agent_from_config gw agent_id s =
    (Ret tt, {| remote := g1; calls := calls s ++ [ConfigGet] |}).
Proof.
  intros Hget Hreg Habs. unfold _remove_agent_from_config.
  unfold bind at 1. rewrite (fetch _ _ _ Hget).
  destruct (registry_read _ _ _ Hreg) as [-> Hlist].
  next_step. rewrite Hlist.
  next_step. simpl py_iter. cbv iota beta.
  next_step. rewrite (without_id_absent _ _ Habs).
  by rewrite Nat.eqb_refl.
Qed.

(** [{**d, k: v}] read back: [v] under [k], and under every other key
    what [d] holds. *)
Lemma dict_get_set (d : dict) k v : dict_get (dict_set d k v) k = Some v.
Proof.
  induction d as [|[k' v'] d IH]; simpl.
  - by rewrite String.eqb_refl.
  - destruct (String.eqb k' k) eqn:E; simpl; by rewrite E.
Qed.

Lemma dict_get_set_ne (d : dict) k k0 v :
  k0 <> k -> dict_get (dict_set d k v) k0 = dict_get d k0.
Proof.
  intros Hne. induction d as [|[k' v'] d IH]; simpl.
  - destruct (String.eqb_spec k k0) as [E|_]; [by destruct Hne|done].
  - destruct (String.eqb_spec k' k) as [->|E]; simpl.
    + destruct (String.eqb_spec k k0) as [E0|_]; [by destruct Hne|done].
    + by rewrite IH.
Qed.

(** C7.  When the registry list of the snapshot already holds an entry
    with the id of the new agent, adding it fails with the duplicate
    error before anything is sent: the one call made is the [config.get]
    and the remote side is as that call left it.  Otherwise one
    [config.patch] is sent, guarded by the hash of the snapshot read;
    the agents section it carries holds, under [list], the entries read
    followed by the new entry, and under every other key what the
    section read holds.  The outcome of the patch is the outcome of the
    operation. *)
Theorem add_agent_checks_duplicate s snapshot g1 agents l agent_config :
  get_config gw (remote s) = (Ret snapshot, g1) ->
  registry_of (OpenClawConfigSnapshot.config snapshot) = Some (agents, l) ->
  Forall is_entry l ->
  (Exists (has_id (OpenClawAgentConfig.id agent_config)) l ->
   _add_agent_to_config gw model_dump agent_config s =
     (Raise (ValueError
               (String.append "Agent "
                  (String.append (OpenClawAgentConfig.id agent_config)
                     " already exists"))),
      {| remote := g1; calls := calls s ++ [ConfigGet] |})) /\
  (~ Exists (has_id (OpenClawAgentConfig.id agent_config)) l ->
   let section :=
     dict_set agents "list" (JList (l ++ [model_dump agent_config])) in
   let patch := JObj [("agents", JObj section)] in
   let base := OpenClawConfigSnapshot.hash snapshot in
   _add_agent_to_config gw model_dump agent_config s =
     (fst (patch_config gw patch base g1),
      {| remote := snd (patch_config gw patch base g1);
         calls := calls s ++ [ConfigGet; ConfigPatch patch base] |}) /\
   dict_get section "list" = Some (JList (l ++ [model_dump agent_config])) /\
   (forall k, k <> "list" -> dict_get section k = dict_get agents k)).
Proof.
  intros Hget Hreg Hl.
  destruct (registry_read _ _ _ Hreg) as [Hagents Hlist].
  split.
  - intros Hex. unfold _add_agent_to_config.
    unfold bind at 1. rewrite (fetch _ _ _ Hget). rewrite Hagents.
    next_step. rewrite Hlist.
    next_step. simpl py_iter. cbv iota beta.
    next_step.
    by rewrite (any_has_id_present _ _ Hl Hex).
  - intros Hn. cbv zeta. split; [|split].
    + unfold _add_agent_to_config.
      unfold bind at 1. rewrite (fetch _ _ _ Hget). rewrite Hagents.
      next_step. rewrite Hlist.
      next_step. simpl py_iter. cbv iota beta.
      next_step.
      rewrite (any_has_id_absent _ _ (absent_or_present _ _ Hl Hn)).
      unfold call_patch_config. simpl.
      destruct (patch_config gw _ _ g1) as [r g2]. simpl.
      by rewrite <- app_assoc.
    + apply dict_get_set.
    + intros k Hk. by apply dict_get_set_ne.
Qed.

End TenantProvisionerFacts.

(** ** The claims on the fixtures of the test suite *)

Section TenancyContextScenarios.

Import fixtures.


(** Scenario: A, B, C all succeed, then [end()]. *)
Example scenario_all_succeed :
  world (snd ((initialize [bA; bB; bC] tenant_1 ;;; end_) fresh)) =
    ["A:up"; "B:up"; "C:up"; "C:down"; "B:down"; "A:down"].
Proof. reflexivity. Qed.


(** Scenario: A, B, C (fails), D. *)
Example scenario_third_fails :
  world (snd (initialize [bA; bB; bC_failing; bD] tenant_1 fresh)) =
    ["A:up"; "B:up"; "C:up"; "B:down"; "A:down"].
Proof. reflexivity. Qed.

(** A revert that raises in the middle of a rollback: B is stuck, A is
    still reverted, and the caller sees C's failure. *)
Lemma revert_failures_are_swallowed_witness :
  fst (initialize [bA; bB_stuck; bC_failing] tenant_1 fresh) =
    Raise (RuntimeError "C failed") /\
  trace (snd (initialize [bA; bB_stuck; bC_failing] tenant_1 fresh)) =
    [Up bA tenant_1; Up bB_stuck tenant_1; Up bC_failing tenant_1;
     Down bB_stuck; Down bA] /\
  logged (snd (initialize [bA; bB_stuck; bC_failing] tenant_1 fresh)) =
    [("B", RuntimeError "B stuck")].
Proof.
  apply (proj2 (proj2 (proj2
           (revert_failures_are_swallowed [bA; bB_stuck; bC_failing] fresh)))
           tenant_1 [bA; bB_stuck] bC_failing []
           (RuntimeError "C failed")
           ["A:up"; "B:up"] ["A:up"; "B:up"; "C:up"]); reflexivity.
Defined.

Lemma initialize_same_tenant_noop_witness :
  initialize [bA] tenant_a active_a = (Ret tt, active_a) /\
  initialize [bA] tenant_a_renamed (snd (initialize [bA] tenant_a fresh)) =
    (Ret tt, snd (initialize [bA] tenant_a fresh)).
Proof.
  split.
  - apply (proj1 (initialize_same_tenant_noop [bA] active_a tenant_a tenant_a
                    eq_refl) tenant_a); reflexivity.
  - apply (proj1 (proj2 (initialize_same_tenant_noop [bA] fresh tenant_a
                           tenant_a_renamed eq_refl))).
    reflexivity.
Defined.

(** [test_noop_if_already_initialized_for_same_tenant]. *)
Example scenario_initialize_twice :
  world (snd ((initialize [bA] tenant_1 ;;; initialize [bA] tenant_1) fresh)) =
    ["A:up"].
Proof. reflexivity. Qed.

Lemma active_a_invariant : state_invariant [bA] (ctx active_a).
Proof. split; [split|]; simpl; eauto. Qed.

Lemma lifecycle_preserves_invariant_witness :
  state_invariant [bA] (ctx (snd (initialize [bA] tenant_b active_a))) /\
  state_invariant [bA] (ctx (snd (end_ active_a))).
Proof.
  pose proof (lifecycle_preserves_invariant [bA] active_a active_a_invariant)
    as (_ & Hinit & Hend & _).
  split; [apply Hinit | apply Hend].
Defined.

Lemma active_q_invariant :
  state_invariant [fixtures_further.bQ] (ctx fixtures_further.active_q).
Proof. split; [split|]; simpl; eauto. Qed.

(** [test_restores_previous_tenant_context] with a callback that
    raises, and the same call where the quota of the bootstrapper runs
    out when the previous tenant is initialized again. *)
Lemma run_restores_witness :
  (_tenant (ctx (snd (run [bA] tenant_b callback_that_throws active_a))) =
     Some tenant_a /\
   _initialized (ctx (snd (run [bA] tenant_b callback_that_throws active_a))) =
     true /\
   fst (run [bA] tenant_b callback_that_throws active_a) =
     Raise (RuntimeError "callback boom")) /\
  (fst (run [fixtures_further.bQ] tenant_b callback_that_throws
          fixtures_further.active_q) =
     Raise (RuntimeError "Q exhausted") /\
   NoTenant (ctx (snd (run [fixtures_further.bQ] tenant_b callback_that_throws
                         fixtures_further.active_q)))).
Proof.
  split.
  - destruct (run_restores [bA] active_a tenant_b callback_that_throws
                active_a_invariant) as [Hok _].
    destruct Hok as (Ht & Hi & Hr & _).
    + intros p [= <-]. vm_compute. reflexivity.
    + split; [exact Ht|]. split; [exact Hi|].
      apply (Hr (snd (initialize [bA] tenant_b active_a))).
      vm_compute. reflexivity.
  - destruct (run_restores [fixtures_further.bQ] fixtures_further.active_q
                tenant_b callback_that_throws active_q_invariant)
      as [_ Hfail].
    apply (Hfail tenant_a (RuntimeError "Q exhausted"));
      vm_compute; reflexivity.
Defined.

(** The previous tenant is not restored when its bootstrap fails in the
    restoring step: [tenant_a] is current before the call, the callback
    is called and returns (or raises its own exception), and the call
    ends without tenant, raising the failure of the bootstrap. *)
Lemma run_restore_can_fail :
  _tenant (ctx fixtures_further.active_q) = Some tenant_a /\
  _initialized (ctx fixtures_further.active_q) = true /\
  run [fixtures_further.bQ] tenant_b callback_returning_name
    fixtures_further.active_q =
    (Raise (RuntimeError "Q exhausted"),
     {| ctx := {| _tenant := None; _initialized := false;
                  _initialized_bootstrappers := [] |};
        world := ["Q:up"; "Q:down"; "Q:up"; "callback"; "Q:down"; "Q:up"];
        trace := [Up fixtures_further.bQ tenant_a; Down fixtures_further.bQ;
                  Up fixtures_further.bQ tenant_b; Callback (Some tenant_b);
                  Down fixtures_further.bQ; Up fixtures_further.bQ tenant_a];
        logged := [] |}) /\
  fst (run [fixtures_further.bQ] tenant_b callback_that_throws
         fixtures_further.active_q) =
    Raise (RuntimeError "Q exhausted") /\
  ~ (_tenant (ctx (snd (run [fixtures_further.bQ] tenant_b
                          callback_returning_name
                          fixtures_further.active_q))) =
       _tenant (ctx fixtures_further.active_q)) /\
  fst (run [fixtures_further.bQ] tenant_b callback_that_throws
         fixtures_further.active_q) <>
    Raise (RuntimeError "callback boom").
Proof.
  split; [reflexivity|]. split; [reflexivity|].
  split; [vm_compute; reflexivity|]. split; [vm_compute; reflexivity|].
  split; [vm_compute; discriminate|vm_compute; discriminate].
Qed.

(** [test_initializes_runs_callback_then_reverts]. *)
Example scenario_run_callback_returns :
  let out := run [bA] tenant_1 callback_returning_name fresh in
  fst out = Ret "Acme Corp" /\
  world (snd out) = ["A:up"; "callback"; "A:down"] /\
  _initialized (ctx (snd out)) = false.
Proof. by repeat split. Qed.

(** [test_reverts_even_if_callback_throws]. *)
Example scenario_run_callback_throws :
  world (snd (run [bA] tenant_1 callback_that_throws fresh)) =
    ["A:up"; "callback"; "A:down"].
Proof. reflexivity. Qed.


End TenancyContextScenarios.

Section GatewayScenarios.

Import fixtures.

(** Two calls in flight; the first one times out, then its response
    arrives: the caller got the timeout, the frame changes nothing, and
    call 2 is still waiting. *)
Lemma timed_out_call_and_late_frames_witness :
  let expired := client.wait_for_expire 0%nat two_in_flight in
  let out := client.request_on_timeout "30.0" 1 "config.get" expired in
  fst out = Raise (TimeoutError "Request timeout: config.get (30.0s)") /\
  client._pending (snd out) !! 1%Z = None /\
  client._pending (snd out) !! 2%Z = Some 1%nat /\
  client.heap (snd out) !! 1%nat = Some client.Pending /\
  client.read_frame loads str_stub "result for 1" (snd out) = (Ret tt, snd out).
Proof.
  destruct (timed_out_call_and_late_frames loads str_stub "30.0"
              two_in_flight 1 0%nat "config.get" "result for 1")
    as (Hout & Hpend & Hother & Hlate & _).
  - reflexivity.
  - reflexivity.
  - eexists. split; reflexivity.
  - cbv zeta. split; [exact Hout|].
    split; [rewrite Hpend; apply lookup_delete_eq|].
    split; [rewrite Hother; [reflexivity|done]|].
    split; [reflexivity|exact Hlate].
Defined.

(** The reader at work on a waiting call: a result frame and an error
    frame settle its future and take its entry out of the table. *)
Example scenario_result_frame :
  let c := snd (client.read_frame loads str_stub "result for 1" one_in_flight) in
  client.heap c !! 0%nat = Some (client.Result (JObj [("hash", JStr "h1")])) /\
  client._pending c !! 1%Z = None.
Proof. by split. Qed.

Example scenario_error_frame :
  let c := snd (client.read_frame loads str_stub "error for 1" one_in_flight) in
  client.heap c !! 0%nat = Some (client.Failed (Exception (JStr "no"))) /\
  client._pending c !! 1%Z = None.
Proof. by split. Qed.

(** Two calls answered in reverse order: each future receives the
    result sent under its own id. *)
Example scenario_reverse_order :
  let c1 := snd (client.read_frame loads str_stub "result for 2" two_in_flight) in
  let c2 := snd (client.read_frame loads str_stub "result for 1" c1) in
  client.heap c2 !! 0%nat = Some (client.Result (JObj [("hash", JStr "h1")])) /\
  client.heap c2 !! 1%nat = Some (client.Result (JObj [])) /\
  client._pending c2 = ∅.
Proof. by repeat split. Qed.

(** A frame that is valid JSON but not an object has no [get]: the
    exception leaves the loop. *)
Example scenario_array_frame :
  client.read_frame loads str_stub "an array" one_in_flight =
    (Raise (AttributeError "'list' object has no attribute 'get'"),
     one_in_flight).
Proof. reflexivity. Qed.

(** [test_idempotent_for_nonexistent_agent], with another tenant
    registered. *)
Lemma remove_absent_agent_is_noop_witness :
  provisioner._remove_agent_from_config mock "tenant-acme"
    (at_gateway (gateway_with [entry "tenant-other"])) =
    (Ret tt,
     {| provisioner.remote := gateway_with [entry "tenant-other"];
        provisioner.calls := [provisioner.ConfigGet] |}).
Proof.
  apply (remove_absent_agent_is_noop mock
           (at_gateway (gateway_with [entry "tenant-other"]))
           {| provisioner.OpenClawConfigSnapshot.config :=
                _config (gateway_with [entry "tenant-other"]);
              provisioner.OpenClawConfigSnapshot.hash := "hash-1" |}
           (gateway_with [entry "tenant-other"])
           [("list", JList [entry "tenant-other"])]
           [entry "tenant-other"] "tenant-acme").
  - reflexivity.
  - reflexivity.
  - constructor; [|constructor]. split.
    + eexists. reflexivity.
    + intros (d & Hd & Hid). injection Hd as <-. discriminate Hid.
Defined.

(** [test_fails_if_agent_already_exists]. *)
Lemma add_agent_checks_duplicate_witness :
  provisioner._add_agent_to_config mock dump acme_agent
    (at_gateway (gateway_with [entry "tenant-acme"])) =
    (Raise (ValueError "Agent tenant-acme already exists"),
     {| provisioner.remote := gateway_with [entry "tenant-acme"];
        provisioner.calls := [provisioner.ConfigGet] |}) /\
  provisioner._add_agent_to_config mock dump acme_agent
    (at_gateway (gateway_with [entry "tenant-other"])) =
    (Ret tt,
     {| provisioner.remote :=
          {| _config :=
               [("agents",
                 JObj [("list",
                        JList [entry "tenant-other"; dump acme_agent])])];
             _hash := "hash-1";
             patch_config_calls :=
               [(JObj [("agents",
                        JObj [("list",
                               JList [entry "tenant-other";
                                      dump acme_agent])])],
                 "hash-1")];
             _fail_patch := false |};
        provisioner.calls :=
          [provisioner.ConfigGet;
           provisioner.ConfigPatch
             (JObj [("agents",
                     JObj [("list",
                            JList [entry "tenant-other";
                                   JObj [("id", JStr "tenant-acme");
                                         ("name", JStr "Acme Corp");
                                         ("workspace", JStr "/tmp/tenant-acme");
                                         ("model", JStr "azure/gpt-4o");
                                         ("sandbox",
                                          JObj [("mode", JStr "all");
                                                ("workspaceAccess",
                                                 JStr "rw")])]])])])
             "hash-1"] |}).
Proof.
  split.
  - destruct (add_agent_checks_duplicate mock dump
                (at_gateway (gateway_with [entry "tenant-acme"]))
                {| provisioner.OpenClawConfigSnapshot.config :=
                     _config (gateway_with [entry "tenant-acme"]);
                   provisioner.OpenClawConfigSnapshot.hash := "hash-1" |}
                (gateway_with [entry "tenant-acme"])
                [("list", JList [entry "tenant-acme"])]
                [entry "tenant-acme"] acme_agent) as [Hdup _].
    + reflexivity.
    + reflexivity.
    + constructor; [|constructor]. eexists. reflexivity.
    + apply Hdup. apply Exists_cons_hd. eexists. split; reflexivity.
  - destruct (add_agent_checks_duplicate mock dump
                (at_gateway (gateway_with [entry "tenant-other"]))
                {| provisioner.OpenClawConfigSnapshot.config :=
                     _config (gateway_with [entry "tenant-other"]);
                   provisioner.OpenClawConfigSnapshot.hash := "hash-1" |}
                (gateway_with [entry "tenant-other"])
                [("list", JList [entry "tenant-other"])]
                [entry "tenant-other"] acme_agent) as [_ Hadd].
    + reflexivity.
    + reflexivity.
    + constructor; [|constructor]. eexists. reflexivity.
    + destruct Hadd as (Heq & _ & _).
      * intros Hex. apply Exists_cons in Hex as [(d & [= <-] & Hd)|Hex].
        -- discriminate Hd.
        -- by apply Exists_nil in Hex.
      * rewrite Heq. vm_compute. reflexivity.
Defined.

(** Adding to a registry that holds another tenant: one patch, the new
    entry last, sent under the hash that was read. *)
Example scenario_add_agent :
  provisioner.calls
    (snd (provisioner._add_agent_to_config mock dump acme_agent
            (at_gateway (gateway_with [entry "tenant-other"])))) =
    [provisioner.ConfigGet;
     provisioner.ConfigPatch
       (JObj [("agents",
               JObj [("list",
                      JList [entry "tenant-other";
                             JObj [("id", JStr "tenant-acme");
                                   ("name", JStr "Acme Corp");
                                   ("workspace", JStr "/tmp/tenant-acme");
                                   ("model", JStr "azure/gpt-4o");
                                   ("sandbox",
                                    JObj [("mode", JStr "all");
                                          ("workspaceAccess", JStr "rw")])]])])])
       "hash-1"].
Proof. reflexivity. Qed.

End GatewayScenarios.

(** * Further properties of the tenancy context *)

Section TenancyContextFurther.

Import context_notions.

Context {W : Type}.
Variable bs : list (@TenancyBootstrapper W).

Implicit Types (s : @Sys W) (c : @TenancyContext W) (t p : Tenant.t).

Lemma callbacks_of_app (tr1 tr2 : list (@Event W)) :
  callbacks_of (tr1 ++ tr2) = callbacks_of tr1 ++ callbacks_of tr2.
Proof.
  induction tr1 as [|[b t|b|arg] tr1 IH]; simpl; by rewrite ?IH.
Qed.

Lemma callbacks_of_ups t (l : list (@TenancyBootstrapper W)) :
  callbacks_of (map (fun b => Up b t) l) = [].
Proof. by induction l. Qed.

Lemma callbacks_of_downs (l : list (@TenancyBootstrapper W)) :
  callbacks_of (map Down l) = [].
Proof. by induction l. Qed.

Lemma ended_callbacks s :
  callbacks_of (trace (ended s)) = callbacks_of (trace s).
Proof.
  unfold ended. destruct (_initialized (ctx s)) eqn:Hi.
  - rewrite end_active by done. simpl.
    by rewrite callbacks_of_app, callbacks_of_downs, app_nil_r.
  - by rewrite end_idle.
Qed.

(** [initialize] calls bootstrappers only, never a callback. *)
Lemma initialize_callbacks t s :
  callbacks_of (trace (snd (initialize bs t s))) = callbacks_of (trace s).
Proof.
  destruct (same_tenant_active (ctx s) t) eqn:Hs.
  - by rewrite initialize_noop.
  - destruct (boots_cases t bs (world (ended s)))
      as [[w1 H]|(pre & b & post & e & wk & wk' & Hl & H1 & H2)].
    + rewrite (initialize_ok _ _ _ _ Hs H). simpl.
      by rewrite callbacks_of_app, callbacks_of_ups, app_nil_r, ended_callbacks.
    + rewrite (initialize_fail _ _ _ _ _ _ _ _ _ Hs Hl H1 H2). simpl.
      by rewrite !callbacks_of_app, callbacks_of_ups, callbacks_of_downs,
        !app_nil_r, ended_callbacks.
Qed.

(** A completed [initialize(t)] leaves a tenant with the id of [t]
    active. *)
Lemma initialize_active_for t s s1 :
  initialize bs t s = (Ret tt, s1) -> active_for t (ctx s1).
Proof.
  intros H. destruct (same_tenant_active (ctx s) t) eqn:Hs.
  - rewrite initialize_noop in H by done. injection H as <-.
    unfold same_tenant_active in Hs. apply andb_true_iff in Hs as [Hi Ht].
    split; [done|]. destruct (_tenant (ctx s)) as [cur|]; [|done].
    exists cur. split; [done|]. by apply String.eqb_eq.
  - destruct (initialize_outcomes bs s t Hs) as [[_ Hc]|[Hr _]].
    + rewrite H in Hc. simpl in Hc. rewrite Hc. split; [done|]. by exists t.
    + by rewrite H in Hr.
Qed.

(** Under [always_boots], [initialize] completes. *)
Lemma initialize_completes t s :
  always_boots bs t -> fst (initialize bs t s) = Ret tt.
Proof.
  intros Ha. destruct (same_tenant_active (ctx s) t) eqn:Hs.
  - by rewrite initialize_noop.
  - by destruct (initialize_always bs s t Ha Hs) as [w1 ->].
Qed.

(** X1.  Two [end()] in a row do what one does: the second finds no
    tenant and calls no [revert]. *)
Theorem end_twice s : (end_ ;;; end_) s = end_ s.
Proof.
  unfold bind. rewrite end_returns.
  rewrite end_idle by apply ended_ctx. reflexivity.
Qed.

(** X2.  The bootstrappers reverted by the rollback of a failed
    [initialize] are not reverted again: an [end()] that follows the
    failure returns at once and leaves the state, trace included, as the
    failure left it. *)
Theorem end_after_failed_initialize s t e s' :
  initialize bs t s = (Raise e, s') ->
  end_ s' = (Ret tt, s').
Proof.
  intros H. apply end_idle.
  destruct (same_tenant_active (ctx s) t) eqn:Hs.
  - by rewrite initialize_noop in H.
  - destruct (initialize_outcomes bs s t Hs) as [[Hr _]|[_ [_ Hi]]].
    + by rewrite H in Hr.
    + by rewrite H in Hi.
Qed.

(** X3.  [initialize(t)] while another tenant is active first ends that
    tenancy, reverting the whole configured sequence in reverse order,
    and then bootstraps [t] over the sequence in order. *)
Theorem initialize_switches_tenant s t p w1 :
  state_invariant bs (ctx s) ->
  _tenant (ctx s) = Some p ->
  Tenant.id p <> Tenant.id t ->
  boots t bs (fst (reverts (rev bs) (world s))) = Some w1 ->
  initialize bs t s =
    (Ret tt,
     {| ctx := {| _tenant := Some t; _initialized := true;
                  _initialized_bootstrappers := bs |};
        world := w1;
        trace := trace s ++ map Down (rev bs) ++ map (fun b => Up b t) bs;
        logged := logged s ++ snd (reverts (rev bs) (world s)) |}).
Proof.
  intros HI Ht Hid Hb.
  destruct (invariant_busy bs _ _ HI Ht) as [Hi Hst].
  assert (same_tenant_active (ctx s) t = false) as Hs.
  { rewrite (same_tenant_active_eqb _ _ t Hi Ht). by apply String.eqb_neq. }
  assert (ended s =
          {| ctx := init;
             world := fst (reverts (rev bs) (world s));
             trace := trace s ++ map Down (rev bs);
             logged := logged s ++ snd (reverts (rev bs) (world s)) |}) as He.
  { unfold ended. rewrite end_active by done. by rewrite Hst. }
  rewrite (initialize_ok bs s t w1 Hs); rewrite He; simpl; [|done].
  by rewrite <- app_assoc.
Qed.

(** One turn of the loop of [run_for_multiple]. *)
Lemma visit_completes t (cb : callback_t Tenant.t unit) s :
  always_boots bs t ->
  (forall c w, fst (cb t c w) = Ret tt) ->
  exists s',
    (initialize bs t ;;; call_callback Some cb t) s = (Ret tt, s') /\
    callbacks_of (trace s') = callbacks_of (trace s) ++ [Some t].
Proof.
  intros Ha Hcb. unfold bind.
  pose proof (initialize_completes t s Ha) as Hr.
  pose proof (initialize_callbacks t s) as Htr.
  destruct (initialize bs t s) as [r s1]. simpl in Hr, Htr. subst r.
  rewrite call_callback_eq, Hcb. eexists. split; [reflexivity|]. simpl.
  by rewrite callbacks_of_app, Htr.
Qed.

Lemma visits_complete tenants (cb : callback_t Tenant.t unit) s :
  Forall (always_boots bs) tenants ->
  (forall t c w, t ∈ tenants -> fst (cb t c w) = Ret tt) ->
  exists s',
    for_each tenants
      (fun t => initialize bs t ;;; call_callback Some cb t) s = (Ret tt, s') /\
    callbacks_of (trace s') = callbacks_of (trace s) ++ map Some tenants.
Proof.
  intros Ha. revert s. induction Ha as [|t tenants Ht _ IH]; intros s Hcb; simpl.
  - exists s. by rewrite app_nil_r.
  - destruct (visit_completes t cb s Ht) as (s1 & H1 & Htr1).
    { intros c w. apply Hcb. by left. }
    destruct (IH s1) as (s2 & H2 & Htr2).
    { intros t' c w Hin. apply Hcb. by right. }
    unfold bind at 1. rewrite H1. exists s2. split; [done|].
    by rewrite Htr2, Htr1, <- app_assoc.
Qed.

Lemma restore_callbacks o s :
  callbacks_of (trace (snd (restore bs o s))) = callbacks_of (trace s).
Proof.
  destruct o as [p|]; simpl.
  - apply initialize_callbacks.
  - apply ended_callbacks.
Qed.

Lemma run_for_multiple_unfold tenants (cb : callback_t Tenant.t unit) s :
  run_for_multiple bs tenants cb s =
    (for_each tenants (fun t => initialize bs t ;;; call_callback Some cb t) ;;;
     restore bs (_tenant (ctx s))) s.
Proof. reflexivity. Qed.

(** X4.  When every bootstrap succeeds and the callback returns,
    [run_for_multiple] calls the callback once for each tenant, in the
    order given, and then restores the context: no tenant when there was
    none before, else a tenant with the id of the one that was active. *)
Theorem run_for_multiple_visits_all tenants (cb : callback_t Tenant.t unit) s :
  state_invariant bs (ctx s) ->
  Forall (always_boots bs) tenants ->
  (forall p, _tenant (ctx s) = Some p -> always_boots bs p) ->
  (forall t c w, fst (cb t c w) = Ret tt) ->
  fst (run_for_multiple bs tenants cb s) = Ret tt /\
  callbacks_of (trace (snd (run_for_multiple bs tenants cb s))) =
    callbacks_of (trace s) ++ map Some tenants /\
  Tenant.id <$> _tenant (ctx (snd (run_for_multiple bs tenants cb s))) =
    Tenant.id <$> _tenant (ctx s) /\
  _initialized (ctx (snd (run_for_multiple bs tenants cb s))) =
    _initialized (ctx s).
Proof.
  intros HI Ha Hp Hcb.
  destruct (visits_complete tenants cb s Ha) as (s1 & H1 & Htr1).
  { intros t c w _. apply Hcb. }
  assert (run_for_multiple bs tenants cb s =
          restore bs (_tenant (ctx s)) s1) as ->.
  { rewrite run_for_multiple_unfold. unfold bind at 1. by rewrite H1. }
  pose proof (restore_callbacks (_tenant (ctx s)) s1) as Htr2.
  destruct (_tenant (ctx s)) as [p|] eqn:Ht; simpl in *.
  - destruct (invariant_busy bs _ _ HI Ht) as [Hi _].
    pose proof (initialize_completes p s1 (Hp p eq_refl)) as Hr.
    destruct (initialize bs p s1) as [r s2] eqn:Hinit. simpl in *. subst r.
    destruct (initialize_active_for p s1 s2 Hinit) as (Hi2 & cur & Hc & Hid).
    split; [done|]. split; [by rewrite Htr2, Htr1|].
    split; [by rewrite Hc; simpl; rewrite Hid | by rewrite Hi, Hi2].
  - rewrite end_returns. simpl.
    destruct (ended_ctx s1) as [Hi1 Ht1].
    assert (_initialized (ctx s) = false) as Hi.
    { destruct (_initialized (ctx s)) eqn:E; [|done].
      destruct HI as [[H _] _]. rewrite Ht in H.
      destruct (H E) as [x Hx]. discriminate Hx. }
    assert (state_invariant bs (ctx (ended s1))) as HI1.
    { pose proof (visits_invariant bs tenants cb s HI) as Hv.
      rewrite H1 in Hv. by apply end_invariant. }
    split; [done|]. split; [by rewrite ended_callbacks, Htr1|].
    split; [|by rewrite Hi, Hi1].
    by rewrite (invariant_idle bs _ HI1 Hi1).
Qed.

(** X5.  When the callback raises for one of the tenants,
    [run_for_multiple] lets the exception through at once: the tenants
    after it are not visited and the context is not restored, that
    tenant stays active. *)
Theorem run_for_multiple_stops_at_failure pre t post
    (cb : callback_t Tenant.t unit) e s :
  Forall (always_boots bs) (pre ++ [t]) ->
  (forall t' c w, t' ∈ pre -> fst (cb t' c w) = Ret tt) ->
  (forall c w, fst (cb t c w) = Raise e) ->
  fst (run_for_multiple bs (pre ++ t :: post) cb s) = Raise e /\
  callbacks_of (trace (snd (run_for_multiple bs (pre ++ t :: post) cb s))) =
    callbacks_of (trace s) ++ map Some (pre ++ [t]) /\
  active_for t (ctx (snd (run_for_multiple bs (pre ++ t :: post) cb s))).
Proof.
  intros Ha Hpre Ht.
  apply Forall_app in Ha as [Hapre Hat]. apply Forall_cons in Hat as [Hat _].
  destruct (visits_complete pre cb s Hapre Hpre) as (s1 & H1 & Htr1).
  pose proof (initialize_completes t s1 Hat) as Hr.
  pose proof (initialize_callbacks t s1) as Htr.
  destruct (initialize bs t s1) as [r s2] eqn:Hinit. simpl in Hr, Htr. subst r.
  assert (run_for_multiple bs (pre ++ t :: post) cb s =
          (Raise e,
           {| ctx := ctx s2; world := snd (cb t (ctx s2) (world s2));
              trace := trace s2 ++ [Callback (Some t)];
              logged := logged s2 |})) as ->.
  { rewrite run_for_multiple_unfold. unfold bind at 1.
    rewrite for_each_app. unfold bind at 1. rewrite H1.
    simpl. unfold bind at 1. unfold bind at 1.
    by rewrite Hinit, call_callback_eq, Ht. }
  simpl. split; [done|]. split.
  - by rewrite callbacks_of_app, Htr, Htr1, map_app, <- app_assoc.
  - by apply (initialize_active_for t s1).
Qed.

(** X6.  Whenever [run(t, callback)] calls the callback, a tenant with
    the id of [t] is active: two callbacks that answer alike on such
    contexts are interchangeable, from any start state.  In particular
    the callback is not called when [initialize(t)] fails. *)
Theorem run_callback_sees_tenant {A} t (cb1 cb2 : callback_t Tenant.t A) s :
  (forall c w, active_for t c -> cb1 t c w = cb2 t c w) ->
  run bs t cb1 s = run bs t cb2 s.
Proof.
  intros Heq. rewrite !run_unfold. cbv zeta.
  assert ((initialize bs t ;;; call_callback Some cb1 t) s =
          (initialize bs t ;;; call_callback Some cb2 t) s) as ->; [|done].
  unfold bind. destruct (initialize bs t s) as [[[]|e] s1] eqn:Hinit; [|done].
  rewrite !call_callback_eq.
  by rewrite (Heq _ _ (initialize_active_for t s s1 Hinit)).
Qed.

(** X7.  Whenever [central(callback)] calls the callback, no tenant is
    active: two callbacks that answer alike on contexts without tenant
    are interchangeable. *)
Theorem central_callback_sees_no_tenant {A}
    (cb1 cb2 : callback_t (option Tenant.t) A) s :
  state_invariant bs (ctx s) ->
  (forall o c w, NoTenant c -> cb1 o c w = cb2 o c w) ->
  central bs cb1 s = central bs cb2 s.
Proof.
  intros HI Heq. rewrite !central_unfold. unfold bind at 1 3.
  rewrite !call_callback_eq. rewrite Heq; [done|].
  apply end_invariant in HI. destruct (ended_ctx s) as [Hi _].
  split; [|done]. by apply (invariant_idle bs).
Qed.

End TenancyContextFurther.

(** * Properties of the resolvers *)

Section StringFacts.

Lemma length_append (a b : string) :
  String.length (String.append a b) = (String.length a + String.length b)%nat.
Proof. induction a as [|ch a IH]; simpl; [done|by rewrite IH]. Qed.

Lemma substring_all (b : string) : String.substring 0 (String.length b) b = b.
Proof. induction b as [|ch b IH]; simpl; [done|by rewrite IH]. Qed.

Lemma substring_append_l (a b : string) :
  String.substring 0 (String.length a) (String.append a b) = a.
Proof.
  induction a as [|ch a IH]; simpl; [by destruct b|by rewrite IH].
Qed.

Lemma substring_append_r (a b : string) :
  String.substring (String.length a) (String.length b) (String.append a b) = b.
Proof. induction a as [|ch a IH]; simpl; [apply substring_all|done]. Qed.

Lemma substring_split (s : string) (n : nat) :
  (n <= String.length s)%nat ->
  s = String.append (String.substring 0 n s)
        (String.substring n (String.length s - n) s).
Proof.
  revert n. induction s as [|ch s IH]; intros n Hn; simpl in *.
  - by destruct n.
  - destruct n as [|n]; simpl.
    + by rewrite substring_all.
    + change (String ch s =
              String ch (String.append (String.substring 0 n s)
                           (String.substring n (String.length s - n) s))).
      by rewrite <- IH by lia.
Qed.

Lemma append_inj_r (a1 a2 b : string) :
  String.append a1 b = String.append a2 b -> a1 = a2.
Proof.
  revert a2. induction a1 as [|ch a1 IH]; intros [|ch2 a2] H.
  - done.
  - apply (f_equal String.length) in H.
    rewrite !length_append in H. simpl in H. lia.
  - apply (f_equal String.length) in H.
    rewrite !length_append in H. simpl in H. lia.
  - change (String ch (String.append a1 b) = String ch2 (String.append a2 b))
      in H.
    injection H as -> H. by rewrite (IH _ H).
Qed.

Lemma endswith_append (a b : string) :
  resolver.endswith (String.append a b) b = true.
Proof.
  unfold resolver.endswith. rewrite length_append.
  replace (String.length a + String.length b - String.length b)%nat
    with (String.length a) by lia.
  rewrite substring_append_r, String.eqb_refl, andb_true_r.
  apply Nat.leb_le. lia.
Qed.

Lemma endswith_split (s suffix : string) :
  resolver.endswith s suffix = true ->
  s = String.append
        (String.substring 0 (String.length s - String.length suffix) s)
        suffix.
Proof.
  unfold resolver.endswith. intros H. apply andb_true_iff in H as [Hle Heq].
  apply Nat.leb_le in Hle. apply String.eqb_eq in Heq.
  rewrite (substring_split s (String.length s - String.length suffix)) at 1
    by lia.
  replace (String.length s - (String.length s - String.length suffix))%nat
    with (String.length suffix) by lia.
  by rewrite Heq.
Qed.

End StringFacts.

Section ResolverFacts.

Import resolver.

Context {L : Type}.
Variable str_lower : string -> string.
Variable ip_re_match : string -> bool.

Implicit Types (l pre post : list (@TenantResolver L)).
Implicit Types (r : @TenantResolver L) (context : RequestContext) (w : L).

Lemma chain_resolve_app pre l context w w1 :
  misses pre context w = Some w1 ->
  chain_resolve (pre ++ l) context w = chain_resolve l context w1.
Proof.
  revert w. induction pre as [|r pre IH]; intros w; simpl.
  - by intros [= ->].
  - destruct (resolve r context w) as [[[id|]|e] w2]; try done. apply IH.
Qed.

(** X8.  The chain asks its resolvers in order, and the first one that
    does not answer [None] decides: its tenant id, or the exception it
    raised, is the answer of the chain, and the resolvers after it are
    not asked. *)
Theorem chain_first_answer_wins pre r post context w w1 o w2 :
  misses pre context w = Some w1 ->
  resolve r context w1 = (o, w2) ->
  o <> Ret None ->
  chain_resolve (pre ++ r :: post) context w = (o, w2).
Proof.
  intros Hpre Hr Ho. rewrite (chain_resolve_app _ _ _ _ _ Hpre). simpl.
  rewrite Hr. by destruct o as [[id|]|e].
Qed.

(** X9.  The chain answers [None] exactly when every resolver, asked in
    turn, answered [None]; an empty chain does. *)
Theorem chain_none_iff_all_miss l context w w1 :
  chain_resolve l context w = (Ret None, w1) <-> misses l context w = Some w1.
Proof.
  revert w. induction l as [|r l IH]; intros w; simpl.
  - split; [by intros [= ->]|by intros [= ->]].
  - destruct (resolve r context w) as [[[id|]|e] w2]; try done.
Qed.

(** X10.  The header resolver answers what its lookup answers for the
    value found under the lower-cased header name when that value is
    not empty, and consults the lookup with nothing else: two lookups
    that agree on that value are interchangeable.  A header that is
    missing, [None] or empty resolves to [None] without any lookup. *)
Theorem header_lookup_argument header_name (lookup1 lookup2 : @LookupFn L)
    context w :
  (forall value w',
      headers context !! str_lower header_name = Some (Some value) ->
      value <> "" ->
      lookup1 value w' = lookup2 value w') ->
  resolve (HeaderTenantResolver str_lower header_name lookup1) context w =
    resolve (HeaderTenantResolver str_lower header_name lookup2) context w /\
  (forall value,
      headers context !! str_lower header_name = Some (Some value) ->
      value <> "" ->
      resolve (HeaderTenantResolver str_lower header_name lookup1) context w =
        lookup1 value w) /\
  (headers context !! str_lower header_name = None \/
   headers context !! str_lower header_name = Some None \/
   headers context !! str_lower header_name = Some (Some "") ->
   resolve (HeaderTenantResolver str_lower header_name lookup1) context w =
     (Ret None, w)).
Proof.
  intros H. cbn [resolve HeaderTenantResolver]. split; [|split].
  - destruct (headers context !! str_lower header_name) as [[value|]|] eqn:E;
      try done.
    destruct (String.eqb value "") eqn:Ev; [done|].
    apply H; [done|]. by apply String.eqb_neq.
  - intros value -> Hne. apply String.eqb_neq in Hne. by rewrite Hne.
  - by intros [->|[->| ->]].
Qed.

(** X11.  A host name made of one label in front of the root domain
    resolves to what the lookup answers for that label, provided the
    label is not [www] and the host name does not look like an IP
    address. *)
Theorem subdomain_resolves_label root_domain (lookup_fn : @LookupFn L)
    context w sub :
  str_lower (default "" (hostname context)) =
    String.append sub (String.append "." (str_lower root_domain)) ->
  sub <> "" ->
  has_dot sub = false ->
  sub <> "www" ->
  ip_re_match (String.append sub (String.append "." (str_lower root_domain)))
    = false ->
  resolve (SubdomainTenantResolver str_lower ip_re_match root_domain lookup_fn)
    context w = lookup_fn sub w.
Proof.
  intros Hhost Hne Hdot Hwww Hip.
  set (root := str_lower root_domain) in *.
  assert (String.length (String.append "." root) = S (String.length root))
    as Hlen by reflexivity.
  assert (String.eqb (String.append sub (String.append "." root)) ""
          = false) as E1.
  { apply String.eqb_neq. intros E. apply (f_equal String.length) in E.
    rewrite length_append, Hlen in E. simpl in E. lia. }
  assert (String.eqb (String.append sub (String.append "." root)) root
          = false) as E2.
  { apply String.eqb_neq. intros E. apply (f_equal String.length) in E.
    rewrite length_append, Hlen in E. lia. }
  assert (String.eqb (String.append sub (String.append "." root))
            (String.append "www." root) = false) as E3.
  { apply String.eqb_neq. intros E. apply Hwww.
    apply (append_inj_r sub "www" (String.append "." root)). exact E. }
  assert (slice_before_last (String.length (String.append "." root))
            (String.append sub (String.append "." root)) = sub) as E4.
  { rewrite Hlen. unfold slice_before_last. rewrite length_append, Hlen.
    replace (String.length sub + S (String.length root)
             - S (String.length root))%nat with (String.length sub) by lia.
    apply substring_append_l. }
  apply String.eqb_neq in Hne.
  unfold SubdomainTenantResolver. cbn [resolve]. fold root.
  rewrite Hhost, E1, E2, E3. cbn [orb].
  rewrite Hip, endswith_append. cbn [negb].
  rewrite E4, Hne, Hdot. reflexivity.
Qed.

Lemma has_dot_append (a b : string) :
  has_dot (String.append a (String.append "." b)) = true.
Proof. induction a as [|ch a IH]; simpl; [done|]. by rewrite IH, orb_true_r. Qed.

(** The two ways the subdomain resolver can end: with [None] and no
    lookup, or with the lookup of the one label in front of the root
    domain. *)
Lemma subdomain_cases root_domain (lookup_fn : @LookupFn L) context w :
  let host := str_lower (default "" (hostname context)) in
  let root := str_lower root_domain in
  resolve (SubdomainTenantResolver str_lower ip_re_match root_domain lookup_fn)
    context w = (Ret None, w) \/
  exists sub,
    host = String.append sub (String.append "." root) /\
    sub <> "" /\ has_dot sub = false /\
    host <> "" /\ host <> root /\ host <> String.append "www." root /\
    ip_re_match host = false /\
    resolve (SubdomainTenantResolver str_lower ip_re_match root_domain
               lookup_fn) context w = lookup_fn sub w.
Proof.
  cbv zeta. unfold SubdomainTenantResolver. cbn [resolve].
  set (host := str_lower (default "" (hostname context))) in *.
  set (root := str_lower root_domain) in *.
  assert (String.length (String.append "." root) = S (String.length root))
    as Hlen by reflexivity.
  destruct (String.eqb_spec host "") as [|E1]; [by left|].
  destruct (String.eqb_spec host root) as [|E2]; [by left|].
  destruct (String.eqb_spec host (String.append "www." root)) as [|E3];
    [by left|].
  cbn [orb].
  destruct (ip_re_match host) eqn:E4; [by left|].
  destruct (endswith host (String.append "." root)) eqn:E5; [|by left].
  cbn [negb].
  set (sub := slice_before_last (String.length (String.append "." root)) host).
  destruct (String.eqb sub "") eqn:E6; [by left|]. cbn [orb].
  destruct (has_dot sub) eqn:E7; [by left|].
  right. exists sub. apply String.eqb_neq in E6.
  repeat (split; [done|]). split; [|by repeat split].
  apply endswith_split in E5. rewrite E5 at 1.
  unfold sub, slice_before_last. by rewrite Hlen.
Qed.

(** X12.  The subdomain resolver consults its lookup only with a single
    non-empty label that stands right in front of the root domain in the
    lower-cased host name: two lookups that agree on such labels are
    interchangeable.  Everything else resolves to [None] without any
    lookup: no host name, the root domain itself or its [www], a host
    name that looks like an IP address, one that does not end with the
    root domain, and one with no label or more than one label in front
    of it. *)
Theorem subdomain_lookup_argument root_domain (lookup1 lookup2 : @LookupFn L)
    context w :
  (forall sub w',
      str_lower (default "" (hostname context)) =
        String.append sub (String.append "." (str_lower root_domain)) ->
      sub <> "" ->
      has_dot sub = false ->
      lookup1 sub w' = lookup2 sub w') ->
  let host := str_lower (default "" (hostname context)) in
  let root := str_lower root_domain in
  resolve (SubdomainTenantResolver str_lower ip_re_match root_domain lookup1)
    context w =
    resolve (SubdomainTenantResolver str_lower ip_re_match root_domain lookup2)
      context w /\
  (host = "" \/ host = root \/ host = String.append "www." root \/
   ip_re_match host = true \/
   (forall sub, host <> String.append sub (String.append "." root)) \/
   host = String.append "." root \/
   (exists a b,
       host = String.append (String.append a (String.append "." b))
                (String.append "." root)) ->
   resolve (SubdomainTenantResolver str_lower ip_re_match root_domain lookup1)
     context w = (Ret None, w)).
Proof.
  intros H. cbv zeta. split.
  - unfold SubdomainTenantResolver. cbn [resolve].
    set (host := str_lower (default "" (hostname context))) in *.
    set (root := str_lower root_domain) in *.
    assert (String.length (String.append "." root) = S (String.length root))
      as Hlen by reflexivity.
    destruct (String.eqb host "") eqn:E1; [done|].
    destruct (String.eqb host root ||
              String.eqb host (String.append "www." root)); [done|].
    destruct (ip_re_match host); [done|].
    destruct (endswith host (String.append "." root)) eqn:E2; [|done].
    cbn [negb].
    set (sub := slice_before_last (String.length (String.append "." root))
                  host).
    destruct (String.eqb sub "") eqn:E3; [done|]. cbn [orb].
    destruct (has_dot sub) eqn:E4; [done|].
    apply H; [|by apply String.eqb_neq|done].
    apply endswith_split in E2. rewrite E2 at 1.
    unfold sub, slice_before_last. by rewrite Hlen.
  - destruct (subdomain_cases root_domain lookup1 context w)
      as [E1|(sub & Hh & Hne & Hd & Hn1 & Hn2 & Hn3 & Hip & _)]; [done|].
    intros [E|[E|[E|[E|[E|[E|(a & b & E)]]]]]]; try done.
    + by rewrite E in Hip.
    + by destruct (E sub).
    + exfalso. apply Hne.
      apply (append_inj_r sub "" (String.append "." (str_lower root_domain))).
      by rewrite <- Hh, E.
    + exfalso.
      assert (sub = String.append a (String.append "." b)) as Hs.
      { apply (append_inj_r _ _ (String.append "." (str_lower root_domain))).
        by rewrite <- Hh, <- E. }
      rewrite Hs, has_dot_append in Hd. done.
Qed.

(** X13.  The JWT resolver answers a tenant id exactly when the claim
    holds a non-empty string, and then that string; a missing claim, a
    value that is no string and the empty string give [None].  It never
    raises and leaves the database alone. *)
Theorem jwt_claim_resolves claim_name context w :
  exists o,
    resolve (JwtClaimTenantResolver claim_name) context w = (Ret o, w) /\
    forall value,
      o = Some value <->
      claims context !! claim_name = Some (JStr value) /\ value <> "".
Proof.
  simpl. destruct (claims context !! claim_name) as [[| | |v| |]|] eqn:E;
    try (exists None; split; [done|]; intros value; split;
         [done|by intros [[=] _]]).
  destruct (String.eqb v "") eqn:Ev.
  - exists None. split; [done|]. intros value. split; [done|].
    intros [[= <-] Hne]. by apply String.eqb_eq in Ev.
  - exists (Some v). split; [done|]. intros value. split.
    + intros [= <-]. split; [done|]. by apply String.eqb_neq.
    + by intros [[= <-] _].
Qed.

End ResolverFacts.

(** * Properties of model routing and of the message handlers *)

Section RoutingFacts.

Import routing tenants app.

Implicit Types (config : ModelRoutingConfig) (analysis : MessageAnalysis).

Lemma truthy_some o s : o = Some s -> s <> "" -> truthy o = true.
Proof. intros -> H. simpl. by apply String.eqb_neq in H as ->. Qed.

Lemma truthy_inv o :
  truthy o = true -> exists s, o = Some s /\ s <> "".
Proof.
  destruct o as [s|]; simpl; [|done]. intros H. exists s. split; [done|].
  apply String.eqb_neq. by destruct (String.eqb s "").
Qed.

(** X14.  [pick_model] answers one of the three configured models, and
    a special model only when it is set and not empty: the answer is
    the empty string only when the primary model is. *)
Theorem pick_model_is_configured config analysis :
  (pick_model config analysis = primary config \/
   vision_model config = Some (pick_model config analysis) \/
   long_context_model config = Some (pick_model config analysis)) /\
  (pick_model config analysis = "" -> primary config = "").
Proof.
  unfold pick_model.
  destruct (has_images analysis && truthy (vision_model config)) eqn:E1.
  - apply andb_true_iff in E1 as [_ Hv].
    destruct (truthy_inv _ Hv) as (v & -> & Hne). simpl. split; [auto|done].
  - destruct ((long_context_threshold config <? estimated_tokens analysis)%Z
              && truthy (long_context_model config)) eqn:E2.
    + apply andb_true_iff in E2 as [_ Hl].
      destruct (truthy_inv _ Hl) as (v & -> & Hne). simpl. split; [auto|done].
    + split; [auto|done].
Qed.

(** X15.  Images win over length: with images and a vision model set,
    the vision model is chosen whatever the token estimate.  Without
    images the long-context model needs an estimate strictly above the
    threshold; at the threshold or below, the primary model is chosen. *)
Theorem pick_model_priorities config analysis :
  (forall v, has_images analysis = true -> vision_model config = Some v ->
             v <> "" -> pick_model config analysis = v) /\
  (has_images analysis = false ->
   (estimated_tokens analysis <= long_context_threshold config)%Z ->
   pick_model config analysis = primary config) /\
  (forall m, has_images analysis = false ->
             (long_context_threshold config < estimated_tokens analysis)%Z ->
             long_context_model config = Some m -> m <> "" ->
             pick_model config analysis = m).
Proof.
  unfold pick_model. split; [|split].
  - intros v Hi Hv Hne. by rewrite Hi, (truthy_some _ _ Hv Hne), Hv.
  - intros Hi Hle. rewrite Hi. simpl.
    by apply Z.ltb_ge in Hle as ->.
  - intros m Hi Hlt Hm Hne. rewrite Hi. simpl.
    apply Z.ltb_lt in Hlt as ->. by rewrite (truthy_some _ _ Hm Hne), Hm.
Qed.

Implicit Types (store : Store) (req : SendMessageRequest).

(** X16.  [chat_via_api_key] does not look at the status of the tenant:
    for a key of a stored tenant it answers with the routed model
    whatever the status, even where [send_message] refuses the same
    tenant with 403. *)
Theorem chat_ignores_status store key tid t req :
  _api_keys store !! key = Some tid ->
  tid <> "" ->
  _tenants store !! tid = Some t ->
  (exists resp,
      chat_via_api_key store key req = Ok resp /\
      model_used resp = pick_model (routing_of t) (analysis_of req) /\
      session_key resp = session_key_of t req) /\
  (status t <> ACTIVE ->
   send_message store tid req =
     HTTPException 403
       (String.append "Tenant is "
          (String.append (status_value (status t))
             ", not accepting messages"))).
Proof.
  intros Hk Hne Ht. split.
  - unfold chat_via_api_key. rewrite Hk.
    apply String.eqb_neq in Hne as ->. rewrite Ht.
    eexists. split; [reflexivity|]. by split.
  - intros Hs. unfold send_message. rewrite Ht.
    by destruct (status t).
Qed.

(** X17.  The reason [send_message] reports names the branch by which
    [pick_model] chose: with the vision reason the model used is the
    configured vision model, with the default reason the primary model,
    and with any other reason the long-context model. *)
Theorem send_message_reason_matches_model store tid t req resp :
  _tenants store !! tid = Some t ->
  send_message store tid req = Ok resp ->
  (routing_reason resp = "vision: images detected" ->
   vision_model (routing_of t) = Some (model_used resp)) /\
  (routing_reason resp = "default: text-only" ->
   model_used resp = primary (routing_of t)) /\
  (routing_reason resp <> "vision: images detected" ->
   routing_reason resp <> "default: text-only" ->
   long_context_model (routing_of t) = Some (model_used resp) /\
   (long_context_threshold (routing_of t) < req_estimated_tokens req)%Z).
Proof.
  intros Ht. unfold send_message. rewrite Ht.
  destruct (negb (is_active (status t))); [done|].
  intros [= <-]. simpl. unfold pick_model, analysis_of. simpl.
  destruct (req_has_images req && truthy (vision_model (routing_of t)))
    eqn:E1.
  - apply andb_true_iff in E1 as [_ Hv].
    destruct (truthy_inv _ Hv) as (v & -> & Hne). simpl.
    split; [done|]. split; [done|]. done.
  - destruct ((long_context_threshold (routing_of t) <? req_estimated_tokens req)%Z
              && truthy (long_context_model (routing_of t))) eqn:E2.
    + apply andb_true_iff in E2 as [Hlt Hl]. apply Z.ltb_lt in Hlt.
      destruct (truthy_inv _ Hl) as (m & -> & Hne). simpl.
      split; [done|]. split; [done|]. done.
    + split; [done|]. split; [done|]. done.
Qed.

End RoutingFacts.

(** * Properties of the request table *)

Section TransportFacts.

Import client transport.

Variable json_loads : string -> option json.
Variable py_str : option json -> string.
Variable request_timeout : string.

Implicit Types (c : GatewayClient) (i j req_id : Z) (a future : addr).
Implicit Types (f : Future) (h : gmap addr Future).

Abbreviation step := (step json_loads py_str request_timeout).

Lemma reject_one_other error a a' h :
  a' <> a -> reject_one error a h !! a' = h !! a'.
Proof.
  intros Hne. unfold reject_one.
  destruct (h !! a) as [[]|]; try done. by rewrite lookup_insert_ne.
Qed.

Lemma reject_one_same error a h :
  reject_one error a h !! a =
    match h !! a with
    | Some Pending => Some (Failed error)
    | o => o
    end.
Proof.
  unfold reject_one. destruct (h !! a) as [[]|] eqn:E; try done.
  by rewrite lookup_insert_eq.
Qed.

(** What the loop of [_reject_all] does to each address. *)
Lemma reject_fold error h0 (m : gmap Z addr) :
  let r := map_fold (fun _ a h => reject_one error a h) h0 m in
  (forall i a, m !! i = Some a -> h0 !! a = Some Pending ->
               r !! a = Some (Failed error)) /\
  (forall a, r !! a = h0 !! a \/
             (h0 !! a = Some Pending /\ r !! a = Some (Failed error) /\
              exists i, m !! i = Some a)).
Proof.
  cbv zeta.
  apply (map_fold_weak_ind
           (fun r (m : gmap Z addr) =>
              (forall i a, m !! i = Some a -> h0 !! a = Some Pending ->
                           r !! a = Some (Failed error)) /\
              (forall a, r !! a = h0 !! a \/
                         (h0 !! a = Some Pending /\
                          r !! a = Some (Failed error) /\
                          exists i, m !! i = Some a)))).
  - split; [by intros i a; rewrite lookup_empty|by left].
  - intros i x m' r Hi [IH1 IH2]. split.
    + intros j a Hj Ha. destruct (decide (a = x)) as [->|Hne].
      * rewrite reject_one_same.
        destruct (IH2 x) as [E|(_ & E & _)]; by rewrite E, ?Ha.
      * rewrite reject_one_other by done.
        apply (IH1 j); [|done].
        destruct (decide (j = i)) as [->|Hji].
        -- rewrite lookup_insert_eq in Hj. congruence.
        -- by rewrite lookup_insert_ne in Hj.
    + intros a. destruct (decide (a = x)) as [->|Hne].
      * rewrite reject_one_same.
        destruct (IH2 x) as [E|(E0 & E & j & Hj)].
        -- rewrite E. destruct (h0 !! x) as [[]|] eqn:E0; try (by left).
           right. split; [done|]. split; [done|]. exists i.
           by rewrite lookup_insert_eq.
        -- rewrite E. right. split; [done|]. split; [done|]. exists j.
           rewrite lookup_insert_ne; [done|]. intros ->. congruence.
      * rewrite reject_one_other by done.
        destruct (IH2 a) as [E|(E0 & E & j & Hj)]; [by left|].
        right. split; [done|]. split; [done|]. exists j.
        rewrite lookup_insert_ne; [done|]. intros ->. congruence.
Qed.

Lemma reject_all_heap error c :
  (forall i a, _pending c !! i = Some a -> heap c !! a = Some Pending ->
               heap (_reject_all error c) !! a = Some (Failed error)) /\
  (forall a f, heap c !! a = Some f -> done f = true ->
               heap (_reject_all error c) !! a = Some f).
Proof.
  destruct (reject_fold error (heap c) (_pending c)) as [H1 H2].
  split; [exact H1|].
  intros a f Hf Hd. simpl. destruct (H2 a) as [E|(E0 & _)].
  - by rewrite E.
  - rewrite Hf in E0. by injection E0 as ->.
Qed.

(** X18.  [_reject_all] fails every call that still waits with the
    given error and empties the table; futures that are already done
    and futures of no entry stay as they are. *)
Theorem reject_all_fails_every_waiting_call error c :
  _pending (_reject_all error c) = ∅ /\
  (forall i a, _pending c !! i = Some a -> heap c !! a = Some Pending ->
               heap (_reject_all error c) !! a = Some (Failed error)) /\
  (forall a f, heap c !! a = Some f -> done f = true ->
               heap (_reject_all error c) !! a = Some f) /\
  (forall a, (forall i, _pending c !! i <> Some a) ->
             heap (_reject_all error c) !! a = heap c !! a).
Proof.
  destruct (reject_fold error (heap c) (_pending c)) as [H1 H2].
  split; [done|]. split; [exact H1|]. split.
  - intros a f Hf Hd. simpl. destruct (H2 a) as [E|(E0 & _)].
    + by rewrite E.
    + rewrite Hf in E0. by injection E0 as ->.
  - intros a Hno. simpl. destruct (H2 a) as [E|(_ & _ & i & Hi)]; [done|].
    by destruct (Hno i).
Qed.

(** What a frame can do to the table: nothing, or take out the entry of
    one id and, when that entry's future was waiting, settle it. *)
Lemma read_frame_shape raw c :
  let c' := snd (read_frame json_loads py_str raw c) in
  _request_id c' = _request_id c /\ next_addr c' = next_addr c /\
  sent c' = sent c /\
  ((_pending c' = _pending c /\ heap c' = heap c) \/
   exists i, _pending c' = delete i (_pending c) /\
     (heap c' = heap c \/
      exists a f, _pending c !! i = Some a /\ heap c !! a = Some Pending /\
                  done f = true /\ heap c' = <[a := f]> (heap c))).
Proof.
  cbv zeta. unfold read_frame.
  assert (forall c0 : GatewayClient,
             _request_id c0 = _request_id c0 /\ next_addr c0 = next_addr c0 /\
             sent c0 = sent c0 /\
             ((_pending c0 = _pending c0 /\ heap c0 = heap c0) \/
              exists i, _pending c0 = delete i (_pending c0) /\
                (heap c0 = heap c0 \/
                 exists a f, _pending c0 !! i = Some a /\
                   heap c0 !! a = Some Pending /\
                   done f = true /\ heap c0 = <[a := f]> (heap c0))))
    as Hsame by (intros c0; repeat split; left; by split).
  destruct (json_loads raw) as [[|b|n|s0|l|msg]|]; simpl; try apply Hsame.
  destruct (as_int (dict_get msg "id")) as [i|]; simpl; [|apply Hsame].
  clear Hsame.
  destruct (_pending c !! i) as [a|] eqn:Hp; simpl.
  2:{ split; [done|]. split; [done|]. split; [done|]. right. exists i. auto. }
  unfold is_done. simpl.
  destruct (heap c !! a) as [[]|] eqn:Hh; simpl;
    try (split; [done|]; split; [done|]; split; [done|]; right; exists i;
         by auto).
  destruct (dict_get msg "error") as [[|b|n|s0|l|err]|]; simpl;
    try (split; [done|]; split; [done|]; split; [done|]; right; exists i;
         by auto).
  - split; [done|]. split; [done|]. split; [done|]. right. exists i.
    split; [done|]. right. eexists a, _. by repeat split.
  - split; [done|]. split; [done|]. split; [done|]. right. exists i.
    split; [done|]. right. eexists a, _. by repeat split.
Qed.

Lemma init_well_formed : well_formed client.init.
Proof.
  unfold well_formed. simpl. split; [|split; [|split]]; try done.
  intros a [f Hf]. by rewrite lookup_empty in Hf.
Qed.

Lemma well_formed_delete i c c' :
  well_formed c ->
  _pending c' = delete i (_pending c) ->
  _request_id c' = _request_id c -> next_addr c' = next_addr c ->
  (forall a, is_Some (heap c' !! a) -> is_Some (heap c !! a)) ->
  well_formed c'.
Proof.
  intros (H1 & H2 & H3 & H4) Hp Hr Hn Hh. unfold well_formed.
  rewrite Hp, Hr, Hn. split; [|split; [|split]]; [| | |done].
  - intros j a Hj. apply lookup_delete_Some in Hj as [_ Hj]. by apply H1.
  - intros j1 j2 a Hj1 Hj2.
    apply lookup_delete_Some in Hj1 as [_ Hj1].
    apply lookup_delete_Some in Hj2 as [_ Hj2]. by apply (H2 _ _ a).
  - intros a Ha. apply H3. by apply Hh.
Qed.

Lemma step_well_formed c c1 :
  well_formed c -> step c c1 -> well_formed c1.
Proof.
  intros Hwf Hstep. destruct Hwf as (H1 & H2 & H3 & H4).
  destruct Hstep as [method params c|future c|req_id method c|raw c|error c].
  - (* a call is registered *)
    unfold well_formed. simpl. split; [|split; [|split]]; [| | |lia].
    + intros i a Hi. destruct (decide (i = (_request_id c + 1)%Z)) as [->|Hne].
      * rewrite lookup_insert_eq in Hi. injection Hi as <-. lia.
      * rewrite lookup_insert_ne in Hi by done.
        destruct (H1 _ _ Hi). lia.
    + intros i j a Hi Hj.
      destruct (decide (i = (_request_id c + 1)%Z)) as [->|Hi'];
        destruct (decide (j = (_request_id c + 1)%Z)) as [->|Hj']; try done.
      * rewrite lookup_insert_eq in Hi. injection Hi as <-.
        rewrite lookup_insert_ne in Hj by done. destruct (H1 _ _ Hj). lia.
      * rewrite lookup_insert_eq in Hj. injection Hj as <-.
        rewrite lookup_insert_ne in Hi by done. destruct (H1 _ _ Hi). lia.
      * rewrite lookup_insert_ne in Hi, Hj by done. by apply (H2 _ _ a).
    + intros a Ha. destruct (decide (a = next_addr c)) as [->|Hne]; [lia|].
      rewrite lookup_insert_ne in Ha by done. specialize (H3 _ Ha). lia.
  - (* a timer runs out *)
    unfold wait_for_expire. destruct (heap c !! future) as [[]|] eqn:Hf;
      try done.
    unfold well_formed. simpl. split; [done|]. split; [done|].
    split; [|done]. intros a Ha.
    destruct (decide (a = future)) as [->|Hne].
    + apply H3. by exists Pending.
    + rewrite lookup_insert_ne in Ha by done. by apply H3.
  - (* a caller wakes from its timeout *)
    by apply (well_formed_delete req_id c).
  - (* a frame is read *)
    destruct (read_frame_shape raw c) as (Hr & Hn & _ & Hshape).
    destruct Hshape as [[Hp Hh]|(i & Hp & Hh)].
    + unfold well_formed. by rewrite Hp, Hh, Hr, Hn.
    + apply (well_formed_delete i c); try done.
      intros a Ha. destruct Hh as [Hh|(a' & f & Ha' & Hpend & _ & Hh)];
        [by rewrite Hh in Ha|].
      rewrite Hh in Ha. destruct (decide (a = a')) as [->|Hne].
      * by rewrite Hpend.
      * by rewrite lookup_insert_ne in Ha.
  - (* all calls are rejected *)
    unfold well_formed. simpl. split; [|split; [|split]]; [| | |done].
    + intros i a Hi. by rewrite lookup_empty in Hi.
    + intros i j a Hi. by rewrite lookup_empty in Hi.
    + intros a Ha. apply H3.
      destruct (reject_fold error (heap c) (_pending c)) as [_ Hr].
      destruct (Hr a) as [E|(E & _)];
        [rewrite E in Ha; exact Ha|exists Pending; exact E].
Qed.

(** X19.  The table stays well formed under every run of the client,
    starting from a new client: ids in the table have been issued,
    their futures allocated, and no future is shared by two ids. *)
Theorem steps_keep_table_well_formed c :
  rtc step client.init c -> well_formed c.
Proof.
  revert c. apply rtc_ind_r.
  - apply init_well_formed.
  - intros c1 c2 _ Hstep IH. by apply (step_well_formed c1).
Qed.


(** X21.  A future is assigned once: whatever steps the client takes, a
    future that is done keeps its state. *)
Theorem done_future_never_changes c c' a f :
  well_formed c ->
  rtc step c c' ->
  heap c !! a = Some f -> done f = true ->
  heap c' !! a = Some f.
Proof.
  intros Hwf Hsteps. induction Hsteps as [c|c c1 c2 Hstep Hrest IH]; [done|].
  intros Hf Hd. apply IH; [| |exact Hd].
  { by apply (step_well_formed c). }
  clear IH Hrest c2. destruct Hwf as (H1 & H2 & H3 & H4).
  destruct Hstep as [method params c|future c|req_id method c|raw c|error c].
  - simpl. rewrite lookup_insert_ne; [done|]. intros <-.
    assert (next_addr c < next_addr c)%nat by (apply H3; by rewrite Hf). lia.
  - unfold wait_for_expire. destruct (heap c !! future) as [[]|] eqn:E;
      try done.
    simpl. rewrite lookup_insert_ne; [done|]. intros ->.
    rewrite Hf in E. by injection E as ->.
  - done.
  - destruct (read_frame_shape raw c) as (_ & _ & _ & Hshape).
    destruct Hshape as [[_ ->]|(i & _ & [->|(a' & f' & _ & Hp & _ & ->)])];
      try done.
    rewrite lookup_insert_ne; [done|]. intros ->.
    rewrite Hf in Hp. by injection Hp as ->.
  - by apply reject_all_heap.
Qed.

(** X22.  A frame for a call that waits takes the call's entry out of
    the table and settles its future, and no other: with the [result]
    of the frame ([{}] when there is none), or, when the frame has an
    [error] object, with an exception made of its [message] (of its
    [code] when there is none).  An [error] member that is no object
    has no [get]: the [AttributeError] leaves the loop with the entry
    gone and the future still waiting. *)
Theorem read_frame_settles_waiting_call raw msg i a c :
  json_loads raw = Some (JObj msg) ->
  as_int (dict_get msg "id") = Some i ->
  _pending c !! i = Some a ->
  heap c !! a = Some Pending ->
  let out := read_frame json_loads py_str raw c in
  (_pending (snd out) !! i = None /\
   (forall j, j <> i -> _pending (snd out) !! j = _pending c !! j) /\
   (forall a', a' <> a -> heap (snd out) !! a' = heap c !! a') /\
   _request_id (snd out) = _request_id c /\
   next_addr (snd out) = next_addr c /\
   sent (snd out) = sent c) /\
  (dict_get msg "error" = None ->
   fst out = Ret tt /\
   heap (snd out) !! a =
     Some (Result (default (JObj []) (dict_get msg "result")))) /\
  (forall err, dict_get msg "error" = Some (JObj err) ->
   fst out = Ret tt /\
   heap (snd out) !! a =
     Some (Failed (Exception
                     (default
                        (JStr (String.append "RPC error "
                                 (py_str (dict_get err "code"))))
                        (dict_get err "message"))))) /\
  (forall v, dict_get msg "error" = Some v ->
             (forall err, v <> JObj err) ->
   fst out =
     Raise (AttributeError
              (String.append "'"
                 (String.append (type_name v)
                    "' object has no attribute 'get'"))) /\
   heap (snd out) !! a = Some Pending).
Proof.
  intros Hl Hid Hp Hh. cbv zeta. unfold read_frame.
  rewrite Hl, Hid. unfold pending_pop. rewrite Hp.
  unfold is_done. cbn [heap]. rewrite Hh. cbn [done].
  split; [|split; [|split]].
  - destruct (dict_get msg "error") as [[|b|n|s0|l|err]|];
      cbn [snd _pending heap _request_id next_addr sent set_future];
      (split; [apply lookup_delete_eq|]);
      (split; [intros j Hj; by apply lookup_delete_ne|]);
      (split; [|done]); intros a' Ha'; try done;
      by rewrite lookup_insert_ne.
  - intros ->. cbn [fst snd heap set_future]. split; [done|].
    apply lookup_insert_eq.
  - intros err ->. cbn [fst snd heap set_future]. split; [done|].
    apply lookup_insert_eq.
  - intros v -> Hv. destruct v as [|b|n|s0|l|err]; try done.
    by destruct (Hv err).
Qed.

(** X23.  [disconnect] on a client that is not connected does nothing.
    On a connected one whose socket closes it leaves the client not
    connected, with an empty table and every waiting call failed with
    "WebSocket closed"; a second [disconnect] then changes nothing. *)
Theorem disconnect_rejects_and_settles t :
  (_ws t = false -> forall close, disconnect close t = (Ret tt, t)) /\
  (_ws t = true ->
   exists t1,
     disconnect (Ret tt) t = (Ret tt, t1) /\
     connected t1 = false /\
     _pending (table t1) = ∅ /\
     (forall i a, _pending (table t) !! i = Some a ->
                  heap (table t) !! a = Some Pending ->
                  heap (table t1) !! a = Some (Failed closed)) /\
     (forall close, disconnect close t1 = (Ret tt, t1))).
Proof.
  split.
  - intros H close. unfold disconnect. by rewrite H.
  - intros H. unfold disconnect. rewrite H. eexists. split; [reflexivity|].
    split; [done|]. split; [done|]. split; [|done].
    apply reject_all_heap.
Qed.

(** X24.  When the reader meets a closed connection, every waiting call
    is rejected but the socket field is left set: the client still
    counts as connected, and [connect] returns without opening a new
    connection. *)
Theorem reader_close_keeps_connected t attempt :
  _ws t = true ->
  _pending (table (read_loop_closed t)) = ∅ /\
  (forall i a, _pending (table t) !! i = Some a ->
               heap (table t) !! a = Some Pending ->
               heap (table (read_loop_closed t)) !! a = Some (Failed closed)) /\
  connected (read_loop_closed t) = true /\
  connect attempt (read_loop_closed t) = (Ret tt, read_loop_closed t).
Proof.
  intros H. split; [done|]. split.
  - apply reject_all_heap.
  - split; [done|]. unfold connect. simpl. by rewrite H.
Qed.

End TransportFacts.

(** * Further properties of the provisioner *)

Section ProvisionerFurther.

Import provisioner provisioner_notions.

Context {G : Type}.
Variable gw : @GatewayClientProtocol G.
Variable model_dump : OpenClawAgentConfig.t -> json.

Implicit Types (l : list json) (a : json) (id : string) (d : dict).

Lemma entry_has_id_true id a : entry_has_id id a = true <-> has_id id a.
Proof.
  destruct a as [|b|n|s0|l0|d]; simpl;
    try (split; [done|by intros (d' & [=] & _)]).
  rewrite eq_str_entry. done.
Qed.

Lemma without_id_others l id :
  Forall is_entry l -> without_id l id = Ret (others id l).
Proof.
  induction 1 as [|a l [d ->] _ IH]; simpl; [done|].
  rewrite IH. by destruct (eq_str _ id).
Qed.

Lemma others_shorter l id :
  Exists (has_id id) l -> (length (others id l) < length l)%nat.
Proof.
  induction 1 as [a l Ha|a l _ IH]; simpl.
  - apply entry_has_id_true in Ha. rewrite Ha. simpl.
    pose proof (List.filter_length_le (fun a => negb (entry_has_id id a)) l).
    unfold others. lia.
  - destruct (negb (entry_has_id id a)); simpl; unfold others in *; lia.
Qed.

Lemma others_all l id :
  Forall (fun a => is_entry a /\ ~ has_id id a) l -> others id l = l.
Proof.
  induction 1 as [|a l [_ Hn] _ IH]; simpl; [done|].
  destruct (entry_has_id id a) eqn:E.
  - by apply entry_has_id_true in E.
  - simpl. by rewrite IH.
Qed.

Lemma remove_present_eq s snapshot g1 agents l agent_id :
  get_config gw (remote s) = (Ret snapshot, g1) ->
  registry_of (OpenClawConfigSnapshot.config snapshot) = Some (agents, l) ->
  Forall is_entry l ->
  Exists (has_id agent_id) l ->
  _remove_agent_from_config gw agent_id s =
    (fst (patch_config gw
            (JObj [("agents",
                    JObj (dict_set agents "list" (JList (others agent_id l))))])
            (OpenClawConfigSnapshot.hash snapshot) g1),
     {| remote :=
          snd (patch_config gw
                 (JObj [("agents",
                         JObj (dict_set agents "list"
                                 (JList (others agent_id l))))])
                 (OpenClawConfigSnapshot.hash snapshot) g1);
        calls :=
          calls s ++
          [ConfigGet;
           ConfigPatch
             (JObj [("agents",
                     JObj (dict_set agents "list" (JList (others agent_id l))))])
             (OpenClawConfigSnapshot.hash snapshot)] |}).
Proof.
  intros Hget Hreg Hl Hex. unfold _remove_agent_from_config.
  unfold bind at 1. rewrite (fetch gw _ _ _ Hget).
  destruct (registry_read _ _ _ Hreg) as [-> Hlist].
  unfold bind at 1. unfold lift at 1. rewrite Hlist.
  unfold bind at 1. unfold lift at 1. simpl py_iter. cbv iota beta.
  unfold bind at 1. unfold lift at 1. rewrite (without_id_others _ _ Hl).
  pose proof (others_shorter l agent_id Hex) as Hlt.
  destruct (Nat.eqb_spec (length (others agent_id l)) (length l)) as [E|_];
    [lia|].
  unfold call_patch_config. simpl.
  destruct (patch_config gw _ _ g1) as [r g2]. simpl.
  by rewrite <- app_assoc.
Qed.

Lemma add_absent_eq s snapshot g1 agents l agent_config :
  get_config gw (remote s) = (Ret snapshot, g1) ->
  registry_of (OpenClawConfigSnapshot.config snapshot) = Some (agents, l) ->
  Forall is_entry l ->
  ~ Exists (has_id (OpenClawAgentConfig.id agent_config)) l ->
  _add_agent_to_config gw model_dump agent_config s =
    (fst (patch_config gw
            (JObj [("agents",
                    JObj (dict_set agents "list"
                            (JList (l ++ [model_dump agent_config]))))])
            (OpenClawConfigSnapshot.hash snapshot) g1),
     {| remote :=
          snd (patch_config gw
                 (JObj [("agents",
                         JObj (dict_set agents "list"
                                 (JList (l ++ [model_dump agent_config]))))])
                 (OpenClawConfigSnapshot.hash snapshot) g1);
        calls :=
          calls s ++
          [ConfigGet;
           ConfigPatch
             (JObj [("agents",
                     JObj (dict_set agents "list"
                             (JList (l ++ [model_dump agent_config]))))])
             (OpenClawConfigSnapshot.hash snapshot)] |}).
Proof.
  intros Hget Hreg Hl Hn. unfold _add_agent_to_config.
  destruct (registry_read _ _ _ Hreg) as [Hagents Hlist].
  unfold bind at 1. rewrite (fetch gw _ _ _ Hget). rewrite Hagents.
  unfold bind at 1. unfold lift at 1. rewrite Hlist.
  unfold bind at 1. unfold lift at 1. simpl py_iter. cbv iota beta.
  unfold bind at 1. unfold lift at 1.
  rewrite (any_has_id_absent _ _ (absent_or_present _ _ Hl Hn)).
  unfold call_patch_config. simpl.
  destruct (patch_config gw _ _ g1) as [r g2]. simpl.
  by rewrite <- app_assoc.
Qed.

Lemma add_duplicate_eq s snapshot g1 agents l agent_config :
  get_config gw (remote s) = (Ret snapshot, g1) ->
  registry_of (OpenClawConfigSnapshot.config snapshot) = Some (agents, l) ->
  Forall is_entry l ->
  Exists (has_id (OpenClawAgentConfig.id agent_config)) l ->
  _add_agent_to_config gw model_dump agent_config s =
    (Raise (ValueError
              (String.append "Agent "
                 (String.append (OpenClawAgentConfig.id agent_config)
                    " already exists"))),
     {| remote := g1; calls := calls s ++ [ConfigGet] |}).
Proof.
  intros Hget Hreg Hl Hex. unfold _add_agent_to_config.
  destruct (registry_read _ _ _ Hreg) as [Hagents Hlist].
  unfold bind at 1. rewrite (fetch gw _ _ _ Hget). rewrite Hagents.
  unfold bind at 1. unfold lift at 1. rewrite Hlist.
  unfold bind at 1. unfold lift at 1. simpl py_iter. cbv iota beta.
  unfold bind at 1. unfold lift at 1.
  by rewrite (any_has_id_present _ _ Hl Hex).
Qed.


End ProvisionerFurther.

Section MockGatewayFacts.

Import provisioner provisioner_notions fixtures.

Lemma registry_of_set (config agents : dict) l :
  registry_of
    (dict_set config "agents" (JObj (dict_set agents "list" (JList l)))) =
  Some (dict_set agents "list" (JList l), l).
Proof. unfold registry_of. by rewrite !dict_get_set. Qed.

Lemma mock_patch_agents (g : MockGateway) (agents : dict) :
  _fail_patch g = false ->
  mock_patch_config (JObj [("agents", JObj agents)]) (_hash g) g =
    (Ret tt,
     {| _config := dict_set (_config g) "agents" (JObj agents);
        _hash :=
          String.append "hash-"
            (pretty (length (patch_config_calls g ++
                               [(JObj [("agents", JObj agents)], _hash g)])));
        patch_config_calls :=
          patch_config_calls g ++ [(JObj [("agents", JObj agents)], _hash g)];
        _fail_patch := _fail_patch g |}).
Proof.
  intros Hfail. unfold mock_patch_config.
  by rewrite Hfail, String.eqb_refl.
Qed.

(** X26.  Against the gateway double of the tests, adding an agent that
    is not registered and then removing it by its id gives back the
    registry list there was: both calls return, each one patches the
    configuration once, with the hash it has just read. *)
Theorem add_then_remove_round_trip
    (g : MockGateway) (model_dump : OpenClawAgentConfig.t -> json)
    agent_config agents l :
  _fail_patch g = false ->
  registry_of (_config g) = Some (agents, l) ->
  Forall (fun a => is_entry a /\ ~ has_id (OpenClawAgentConfig.id agent_config) a) l ->
  has_id (OpenClawAgentConfig.id agent_config) (model_dump agent_config) ->
  let added := _add_agent_to_config mock model_dump agent_config (at_gateway g) in
  let removed :=
    _remove_agent_from_config mock (OpenClawAgentConfig.id agent_config)
      (snd added) in
  fst added = Ret tt /\ fst removed = Ret tt /\
  (exists agents1,
      registry_of (_config (remote (snd added))) =
        Some (agents1, l ++ [model_dump agent_config])) /\
  (exists agents2,
      registry_of (_config (remote (snd removed))) = Some (agents2, l)) /\
  length (patch_config_calls (remote (snd removed))) =
    (2 + length (patch_config_calls g))%nat.
Proof.
  intros Hfail Hreg Hl Hid. cbv zeta.
  set (id := OpenClawAgentConfig.id agent_config) in *.
  assert (Forall is_entry l) as Hentries
    by (eapply Forall_impl; [exact Hl|by intros a [Ha _]]).
  assert (~ Exists (has_id id) l) as Hnew.
  { intros Hex. apply Exists_exists in Hex as (a & Ha & Hhas).
    rewrite Forall_forall in Hl. by destruct (Hl a Ha). }
  rewrite (add_absent_eq mock model_dump (at_gateway g)
             {| OpenClawConfigSnapshot.config := _config g;
                OpenClawConfigSnapshot.hash := _hash g |} g agents l
             agent_config eq_refl Hreg Hentries Hnew).
  cbn [OpenClawConfigSnapshot.hash patch_config mock fst snd remote calls].
  rewrite (mock_patch_agents g _ Hfail).
  cbn [fst snd remote].
  set (g1 := {| _config := dict_set (_config g) "agents" _ |}).
  assert (Forall is_entry (l ++ [model_dump agent_config])) as Hentries1.
  { apply Forall_app. split; [done|]. apply Forall_cons. split; [|done].
    destruct Hid as (d & -> & _). by exists d. }
  assert (Exists (has_id id) (l ++ [model_dump agent_config])) as Hthere.
  { apply Exists_app. right. by apply Exists_cons_hd. }
  assert (others id (l ++ [model_dump agent_config]) = l) as Hothers.
  { unfold others. rewrite List.filter_app. fold (others id l).
    rewrite (others_all l id Hl). simpl.
    apply entry_has_id_true in Hid. rewrite Hid. simpl. apply app_nil_r. }
  match goal with
  | |- context [_remove_agent_from_config mock id ?s1] =>
      rewrite (remove_present_eq mock s1
                 {| OpenClawConfigSnapshot.config := _config g1;
                    OpenClawConfigSnapshot.hash := _hash g1 |} g1 _ _ id
                 eq_refl (registry_of_set _ _ _) Hentries1 Hthere)
  end.
  cbn [OpenClawConfigSnapshot.hash patch_config mock fst snd remote calls].
  rewrite Hothers.
  rewrite (mock_patch_agents g1 _ Hfail).
  cbn [fst snd remote _config patch_config_calls].
  split; [done|]. split; [done|]. split; [|split].
  - eexists. apply registry_of_set.
  - eexists. unfold g1. cbn [_config]. apply registry_of_set.
  - unfold g1. cbn [patch_config_calls]. rewrite !length_app. simpl. lia.
Qed.

End MockGatewayFacts.

(** * Properties of provisioning *)

Section ProvisioningFacts.

Import tenants provisioning.

Context {G F : Type}.
Variable _gateway : @provisioner.GatewayClientProtocol G.
Variable model_dump : provisioner.OpenClawAgentConfig.t -> json.
Variable _workspace_base_dir : string.
Variable path_join : string -> string -> string.
Variable mkdir : string -> F -> outcome unit * F.
Variable write_text : string -> string -> F -> outcome unit * F.
Variable rmtree : string -> F -> F.
Variable path_exists : string -> F -> bool.
Variable rename : string -> string -> F -> outcome unit * F.
Variable with_suffix : string -> string -> string.
Variable time_now : F -> Z.
Variable exn_str : exn -> string.

Abbreviation create_workspace :=
  (@_create_workspace G F path_join mkdir write_text).
Abbreviation provision_ :=
  (provision _gateway model_dump _workspace_base_dir path_join mkdir
     write_text rmtree exn_str).
Abbreviation deprovision_ :=
  (deprovision _gateway _workspace_base_dir path_join path_exists rename
     with_suffix time_now exn_str).

Abbreviation workspace_of :=
  (provisioning_notions.workspace_of _workspace_base_dir path_join).

Lemma append_inj_l (p a b : string) :
  String.append p a = String.append p b -> a = b.
Proof.
  induction p as [|ch p IH]; [done|].
  intros H. apply IH. by injection H.
Qed.

Lemma on_fs_gw {A} (op : F -> outcome A * F) (s : @Sys G F) :
  gw (snd (on_fs op s)) = gw s.
Proof. unfold on_fs. by destruct (op (fs s)). Qed.

(** Writing the workspace does not reach the gateway. *)
Lemma create_workspace_gw w t (s : @Sys G F) :
  gw (snd (create_workspace w t s)) = gw s.
Proof.
  unfold _create_workspace, bind.
  pose proof (on_fs_gw (mkdir w) s) as H1.
  destruct (on_fs (mkdir w) s) as [[[]|e] s1]; [|done].
  pose proof (on_fs_gw (write_text (path_join w "SOUL.md") (soul_content t)) s1)
    as H2.
  destruct (on_fs (write_text (path_join w "SOUL.md") (soul_content t)) s1)
    as [[[]|e] s2]; simpl in *; [|congruence].
  rewrite on_fs_gw. congruence.
Qed.

(** X27.  Two tenants are given the same agent id exactly when they
    have the same slug, whatever their workspaces. *)
Theorem agent_id_determined_by_slug (t1 t2 : TenantRecord) w1 w2 :
  provisioner.OpenClawAgentConfig.id (build_agent_config t1 w1) =
    provisioner.OpenClawAgentConfig.id (build_agent_config t2 w2) <->
  Tenant.slug (tenant t1) = Tenant.slug (tenant t2).
Proof.
  simpl. unfold tenant_to_agent_id. split.
  - apply append_inj_l.
  - by intros ->.
Qed.

(** X28.  [provision] never raises: it returns a result for the
    tenant, [success] without an error text or [failed] with the text
    of the exception, and in the second case the last thing done is the
    removal of the workspace.  When the workspace cannot be written the
    gateway is not called at all. *)
Theorem provision_always_reports (t : TenantRecord) (s : @Sys G F) :
  exists r s',
    provision_ t s = (Ret r, s') /\
    prov_tenant_id r = Tenant.id (tenant t) /\
    prov_agent_id r = tenant_to_agent_id (Tenant.slug (tenant t)) /\
    prov_workspace_path r = workspace_of t /\
    ((prov_status r = "success" /\ prov_error r = None) \/
     (prov_status r = "failed" /\
      exists e f, prov_error r = Some (exn_str e) /\
                  fs s' = rmtree (workspace_of t) f)) /\
    (raised (fst (create_workspace (workspace_of t) t s)) -> gw s' = gw s).
Proof.
  unfold provision, try_except. change (path_join _workspace_base_dir
            (tenant_to_agent_id (Tenant.slug (tenant t))))
    with (workspace_of t).
  unfold bind at 1.
  pose proof (create_workspace_gw (workspace_of t) t s) as Hgw.
  destruct (create_workspace (workspace_of t) t s) as [[[]|e] s1];
    simpl in Hgw.
  - unfold bind at 1. unfold on_gw at 1.
    destruct (provisioner._add_agent_to_config _ _ _ (gw s1)) as [[[]|e] g1].
    + eexists _, _. split; [reflexivity|]. simpl.
      repeat (split; [done|]). split; [by left|done].
    + eexists _, _. split; [reflexivity|]. simpl.
      repeat (split; [done|]). split; [|done].
      right. split; [done|]. by exists e, (fs s1).
  - eexists _, _. split; [reflexivity|]. simpl.
    repeat (split; [done|]). split; [|done].
    right. split; [done|]. by exists e, (fs s1).
Qed.

(** X29.  Provisioning a tenant whose agent id is already registered
    fails with the text of the duplicate error and leaves the
    configuration unpatched; the workspace of that id, written just
    before, is then removed. *)
Theorem provision_duplicate_removes_workspace
    (t : TenantRecord) (s s1 : @Sys G F) snapshot g1 agents l :
  create_workspace (workspace_of t) t s = (Ret tt, s1) ->
  provisioner.get_config _gateway (provisioner.remote (gw s1)) =
    (Ret snapshot, g1) ->
  provisioner.registry_of (provisioner.OpenClawConfigSnapshot.config snapshot)
    = Some (agents, l) ->
  Forall provisioner.is_entry l ->
  Exists (provisioner.has_id (tenant_to_agent_id (Tenant.slug (tenant t)))) l ->
  provision_ t s =
    (Ret {| prov_tenant_id := Tenant.id (tenant t);
            prov_agent_id := tenant_to_agent_id (Tenant.slug (tenant t));
            prov_workspace_path := workspace_of t;
            prov_status := "failed";
            prov_error :=
              Some (exn_str
                      (ValueError
                         (String.append "Agent "
                            (String.append
                               (tenant_to_agent_id (Tenant.slug (tenant t)))
                               " already exists")))) |},
     {| gw := {| provisioner.remote := g1;
                 provisioner.calls :=
                   provisioner.calls (gw s1) ++ [provisioner.ConfigGet] |};
        fs := rmtree (workspace_of t) (fs s1) |}).
Proof.
  intros Hws Hget Hreg Hl Hex.
  unfold provision, try_except. change (path_join _workspace_base_dir
            (tenant_to_agent_id (Tenant.slug (tenant t))))
    with (workspace_of t).
  unfold bind at 1. rewrite Hws.
  unfold bind at 1. unfold on_gw at 1.
  rewrite (add_duplicate_eq _gateway model_dump (gw s1) snapshot g1 agents l
             (build_agent_config t (workspace_of t)) Hget Hreg Hl Hex).
  reflexivity.
Qed.

(** X30.  [deprovision] never raises.  When the agent cannot be removed
    from the configuration the result is [failed] with the text of the
    exception and the file system is left as it was; when it can and
    there is no workspace, the result is [success] and the file system
    is left as it was. *)
Theorem deprovision_always_reports (t : TenantRecord) (s : @Sys G F) :
  let removal :=
    provisioner._remove_agent_from_config _gateway
      (tenant_to_agent_id (Tenant.slug (tenant t))) (gw s) in
  exists r s',
    deprovision_ t s = (Ret r, s') /\
    deprov_tenant_id r = Tenant.id (tenant t) /\
    (deprov_status r = "success" /\ deprov_error r = None \/
     deprov_status r = "failed" /\ exists e, deprov_error r = Some (exn_str e)) /\
    (forall e, fst removal = Raise e ->
               deprov_status r = "failed" /\
               deprov_error r = Some (exn_str e) /\
               s' = {| gw := snd removal; fs := fs s |}) /\
    (fst removal = Ret tt ->
     path_exists (workspace_of t) (fs s) = false ->
     deprov_status r = "success" /\
     s' = {| gw := snd removal; fs := fs s |}).
Proof.
  cbv zeta. unfold deprovision, try_except. change (path_join _workspace_base_dir
            (tenant_to_agent_id (Tenant.slug (tenant t))))
    with (workspace_of t).
  unfold bind at 1. unfold on_gw at 1.
  destruct (provisioner._remove_agent_from_config _ _ (gw s)) as [[[]|e] g1].
  - unfold bind at 1. cbn [fs].
    destruct (path_exists (workspace_of t) (fs s)) eqn:Hex.
    + unfold on_fs. cbn [fs gw].
      destruct (rename (workspace_of t) _ (fs s)) as [[[]|e] f1].
      * eexists _, _. split; [reflexivity|]. simpl.
        split; [done|]. split; [by left|]. split; [done|done].
      * eexists _, _. split; [reflexivity|]. simpl.
        split; [done|]. split; [right; split; [done|by exists e]|].
        split; [done|done].
    + eexists _, _. split; [reflexivity|]. simpl.
      split; [done|]. split; [by left|]. split; [done|done].
  - eexists _, _. split; [reflexivity|]. simpl.
    split; [done|]. split; [right; split; [done|by exists e]|].
    split; [|done]. by intros e' [= <-].
Qed.

End ProvisioningFacts.

(** * Further scenarios *)

Section TenancyContextFurtherScenarios.

Import fixtures fixtures_further context_notions.

(** After the failure of C in A, B, C, D nothing is left to revert. *)
Lemma end_after_failed_initialize_witness :
  end_ (snd (initialize [bA; bB; bC_failing; bD] tenant_1 fresh)) =
    (Ret tt, snd (initialize [bA; bB; bC_failing; bD] tenant_1 fresh)).
Proof.
  apply (end_after_failed_initialize [bA; bB; bC_failing; bD] fresh tenant_1
           (RuntimeError "C failed")).
  vm_compute. reflexivity.
Defined.

(** [test_reinitializes_for_different_tenant]. *)
Lemma initialize_switches_tenant_witness :
  initialize [bA] tenant_b active_a =
    (Ret tt,
     {| ctx := {| _tenant := Some tenant_b; _initialized := true;
                  _initialized_bootstrappers := [bA] |};
        world := ["A:up"; "A:down"; "A:up"];
        trace := [Up bA tenant_a; Down bA; Up bA tenant_b];
        logged := [] |}).
Proof.
  apply (initialize_switches_tenant [bA] active_a tenant_b tenant_a
           ["A:up"; "A:down"; "A:up"] active_a_invariant);
    [reflexivity|discriminate|vm_compute; reflexivity].
Defined.

Lemma fakes_always_boot t : always_boots [bA; bB] t.
Proof. repeat constructor. Qed.

(** [test_runs_for_each_tenant_and_restores]. *)
Lemma run_for_multiple_visits_all_witness :
  fst (run_for_multiple [bA; bB] [tenant_a; tenant_b] callback_recording fresh)
    = Ret tt /\
  callbacks_of
    (trace (snd (run_for_multiple [bA; bB] [tenant_a; tenant_b]
                   callback_recording fresh))) =
    callbacks_of (trace fresh) ++ map Some [tenant_a; tenant_b] /\
  Tenant.id <$>
    _tenant (ctx (snd (run_for_multiple [bA; bB] [tenant_a; tenant_b]
                         callback_recording fresh))) =
    Tenant.id <$> _tenant (ctx fresh) /\
  _initialized (ctx (snd (run_for_multiple [bA; bB] [tenant_a; tenant_b]
                            callback_recording fresh))) =
    _initialized (ctx fresh).
Proof.
  apply (run_for_multiple_visits_all [bA; bB] [tenant_a; tenant_b]
           callback_recording fresh).
  - split; [split|]; [discriminate|by intros [? ?]|discriminate].
  - constructor; [apply fakes_always_boot|].
    constructor; [apply fakes_always_boot|]. constructor.
  - discriminate.
  - reflexivity.
Defined.

(** The callback fails for the second of three tenants. *)
Lemma run_for_multiple_stops_at_failure_witness :
  fst (run_for_multiple [bA; bB] ([tenant_a] ++ tenant_b :: [tenant_1])
         (callback_failing_for "tenant-b") fresh) =
    Raise (RuntimeError "callback boom") /\
  callbacks_of
    (trace (snd (run_for_multiple [bA; bB]
                   ([tenant_a] ++ tenant_b :: [tenant_1])
                   (callback_failing_for "tenant-b") fresh))) =
    callbacks_of (trace fresh) ++ map Some ([tenant_a] ++ [tenant_b]) /\
  active_for tenant_b
    (ctx (snd (run_for_multiple [bA; bB]
                 ([tenant_a] ++ tenant_b :: [tenant_1])
                 (callback_failing_for "tenant-b") fresh))).
Proof.
  apply (run_for_multiple_stops_at_failure [bA; bB] [tenant_a] tenant_b
           [tenant_1] (callback_failing_for "tenant-b")
           (RuntimeError "callback boom") fresh).
  - constructor; [apply fakes_always_boot|].
    constructor; [apply fakes_always_boot|]. constructor.
  - intros t' c w Hin. apply list_elem_of_singleton in Hin as ->. reflexivity.
  - reflexivity.
Defined.

(** A callback that checks its tenant is as good as one that does not. *)
Lemma run_callback_sees_tenant_witness :
  run [bA] tenant_b callback_checking_tenant active_a =
    run [bA] tenant_b callback_returning_name active_a.
Proof.
  apply (run_callback_sees_tenant [bA] tenant_b callback_checking_tenant
           callback_returning_name active_a).
  intros c w (_ & cur & Hcur & Hid).
  unfold callback_checking_tenant, callback_returning_name.
  rewrite Hcur, Hid. by rewrite String.eqb_refl.
Defined.

(** A central callback that refuses to work under a tenant works. *)
Lemma central_callback_sees_no_tenant_witness :
  central [bA] central_callback_checking active_a =
    central [bA] central_callback_working active_a.
Proof.
  apply (central_callback_sees_no_tenant [bA] central_callback_checking
           central_callback_working active_a active_a_invariant).
  intros o c w [Hnone _]. unfold central_callback_checking. by rewrite Hnone.
Defined.

End TenancyContextFurtherScenarios.

Section ResolverScenarios.

Import resolver fixtures_further.

(** No header, a claim: the JWT resolver decides and the subdomain
    resolver after it is not asked. *)
Lemma chain_first_answer_wins_witness :
  chain_resolve ([header_resolver] ++ jwt_resolver :: [subdomain_resolver])
    (request_for (Some "acme.clawdesk.com") [] [("tenant_id", JStr "tenant-9")])
    database =
  (Ret (Some "tenant-9"), database).
Proof.
  apply (chain_first_answer_wins [header_resolver] jwt_resolver
           [subdomain_resolver] _ database database);
    [reflexivity|reflexivity|discriminate].
Defined.

Lemma header_lookup_argument_witness :
  (resolve (HeaderTenantResolver lower "X-Tenant-ID" lookup_row_strict)
     (request_for None [("x-tenant-id", Some "acme")] []) database =
   resolve (HeaderTenantResolver lower "X-Tenant-ID" lookup_row)
     (request_for None [("x-tenant-id", Some "acme")] []) database) /\
  resolve (HeaderTenantResolver lower "X-Tenant-ID" lookup_row_strict)
    (request_for None [("x-tenant-id", Some "acme")] []) database =
    (Ret (Some "tenant-1"),
     {| rows := rows database; lookups := ["acme"] |}) /\
  resolve (HeaderTenantResolver lower "X-Tenant-ID" lookup_row_strict)
    (request_for None [("x-tenant-id", Some "")] []) database =
    (Ret None, database).
Proof.
  assert (forall context (value : string) (w' : Database),
             headers context !! lower "X-Tenant-ID" = Some (Some value) ->
             value <> "" ->
             lookup_row_strict value w' = lookup_row_strict value w') as Hsame
    by done.
  destruct (header_lookup_argument lower "X-Tenant-ID" lookup_row_strict
              lookup_row
              (request_for None [("x-tenant-id", Some "acme")] []) database)
    as (Heq & Hvalue & _).
  { intros value w' Hh Hne. vm_compute in Hh. injection Hh as <-.
    reflexivity. }
  split; [exact Heq|]. split.
  - apply (Hvalue "acme"); [vm_compute; reflexivity|discriminate].
  - apply (header_lookup_argument lower "X-Tenant-ID" lookup_row_strict
             lookup_row_strict
             (request_for None [("x-tenant-id", Some "")] []) database
             (Hsame _)).
    right. right. vm_compute. reflexivity.
Defined.

(** [test_resolves_from_subdomain], with capitals in the host name. *)
Lemma subdomain_resolves_label_witness :
  resolve subdomain_resolver
    (request_for (Some "Acme.ClawDesk.com") [] []) database =
  lookup_row "acme" database.
Proof.
  apply (subdomain_resolves_label lower ip_match "ClawDesk.com" lookup_row
           (request_for (Some "Acme.ClawDesk.com") [] []) database "acme");
    [reflexivity|discriminate|reflexivity|discriminate|reflexivity].
Defined.

Lemma subdomain_lookup_argument_witness :
  (resolve (SubdomainTenantResolver lower ip_match "ClawDesk.com"
              lookup_row_strict)
     (request_for (Some "a.b.clawdesk.com") [] []) database =
   resolve (SubdomainTenantResolver lower ip_match "ClawDesk.com" lookup_row)
     (request_for (Some "a.b.clawdesk.com") [] []) database) /\
  resolve (SubdomainTenantResolver lower ip_match "ClawDesk.com"
             lookup_row_strict)
    (request_for (Some "a.b.clawdesk.com") [] []) database =
    (Ret None, database).
Proof.
  destruct (subdomain_lookup_argument lower ip_match "ClawDesk.com"
              lookup_row_strict lookup_row
              (request_for (Some "a.b.clawdesk.com") [] []) database)
    as [Heq Hnone].
  { intros sub w' _ Hne Hdot. unfold lookup_row_strict. rewrite Hdot.
    by destruct (String.eqb_spec sub ""). }
  split; [exact Heq|]. apply Hnone.
  do 6 right. exists "a", "b". reflexivity.
Defined.

End ResolverScenarios.

Section RoutingScenarios.

Import routing tenants app fixtures fixtures_further.

(** A paused tenant is served through its API key and refused by id. *)
Lemma chat_ignores_status_witness :
  (exists resp,
      chat_via_api_key store "key-b" picture = Ok resp /\
      model_used resp =
        pick_model (routing_of (record_of tenant_b PAUSED))
          (analysis_of picture) /\
      session_key resp = session_key_of (record_of tenant_b PAUSED) picture) /\
  (status (record_of tenant_b PAUSED) <> ACTIVE ->
   send_message store "tenant-b" picture =
     HTTPException 403
       (String.append "Tenant is "
          (String.append (status_value (status (record_of tenant_b PAUSED)))
             ", not accepting messages"))).
Proof.
  apply (chat_ignores_status store "key-b" "tenant-b"
           (record_of tenant_b PAUSED) picture);
    [reflexivity|discriminate|reflexivity].
Defined.

Lemma send_message_reason_matches_model_witness :
  vision_model (routing_of (record_of tenant_a ACTIVE)) =
    Some "azure/gpt-4o-vision".
Proof.
  destruct (send_message_reason_matches_model store "tenant-a"
              (record_of tenant_a ACTIVE) picture
              {| tenant_id := "tenant-a"; customer_id := "c-1";
                 model_used := "azure/gpt-4o-vision";
                 routing_reason := "vision: images detected";
                 session_key := "agent:tenant-acme:customer-c-1" |})
    as (Hvision & _); [reflexivity|reflexivity|].
  apply Hvision. reflexivity.
Defined.

End RoutingScenarios.

Section TransportScenarios.

Import client transport fixtures fixtures_further.

Lemma steps_keep_table_well_formed_witness : well_formed two_in_flight.
Proof.
  apply (steps_keep_table_well_formed loads str_stub "30").
  eapply rtc_l; [apply step_begin|].
  apply rtc_once. apply (step_begin _ _ _ "config.get" (JObj []) one_in_flight).
Defined.

Lemma two_in_flight_well_formed : well_formed two_in_flight.
Proof.
  apply (step_well_formed loads str_stub "30" one_in_flight).
  - apply (step_well_formed loads str_stub "30" client.init).
    + apply init_well_formed.
    + apply (step_begin _ _ _ "config.get" (JObj []) client.init).
  - apply (step_begin _ _ _ "config.get" (JObj []) one_in_flight).
Qed.

Lemma first_answered_well_formed : well_formed first_answered.
Proof.
  apply (step_well_formed loads str_stub "30" two_in_flight).
  - apply two_in_flight_well_formed.
  - apply (step_frame loads str_stub "30" "result for 1" two_in_flight).
Qed.


(** The answer to the first call survives a late frame for it and the
    rejection of every call. *)
Lemma done_future_never_changes_witness :
  heap (_reject_all closed
          (snd (read_frame loads str_stub "error for 1" first_answered)))
    !! 0%nat =
  Some (Result (JObj [("hash", JStr "h1")])).
Proof.
  apply (done_future_never_changes loads str_stub "30" first_answered).
  - apply first_answered_well_formed.
  - eapply rtc_l; [apply (step_frame _ _ _ "error for 1")|].
    apply rtc_once. apply step_reject.
  - vm_compute. reflexivity.
  - reflexivity.
Defined.

Lemma read_frame_settles_waiting_call_witness :
  (fst (read_frame loads_further str_stub "error for 1" one_in_flight) =
     Ret tt /\
   heap (snd (read_frame loads_further str_stub "error for 1" one_in_flight))
     !! 0%nat = Some (Failed (Exception (JStr "no"))) /\
   _pending (snd (read_frame loads_further str_stub "error for 1"
                    one_in_flight)) !! 1%Z = None) /\
  (fst (read_frame loads_further str_stub "text error for 1" one_in_flight) =
     Raise (AttributeError "'str' object has no attribute 'get'") /\
   heap (snd (read_frame loads_further str_stub "text error for 1"
                one_in_flight)) !! 0%nat = Some Pending /\
   _pending (snd (read_frame loads_further str_stub "text error for 1"
                    one_in_flight)) !! 1%Z = None).
Proof.
  split.
  - destruct (read_frame_settles_waiting_call loads_further str_stub
                "error for 1"
                [("id", JInt 1);
                 ("error", JObj [("code", JInt 7); ("message", JStr "no")])]
                1%Z 0%nat one_in_flight)
      as ((Hgone & _) & _ & Herr & _);
      [reflexivity|reflexivity|vm_compute; reflexivity|vm_compute; reflexivity|].
    destruct (Herr [("code", JInt 7); ("message", JStr "no")] eq_refl)
      as [Hret Hfut].
    split; [exact Hret|]. split; [exact Hfut|exact Hgone].
  - destruct (read_frame_settles_waiting_call loads_further str_stub
                "text error for 1"
                [("id", JInt 1); ("error", JStr "boom")]
                1%Z 0%nat one_in_flight)
      as ((Hgone & _) & _ & _ & Hbad);
      [reflexivity|reflexivity|vm_compute; reflexivity|vm_compute; reflexivity|].
    destruct (Hbad (JStr "boom") eq_refl) as [Hraise Hfut]; [done|].
    split; [exact Hraise|]. split; [exact Hfut|exact Hgone].
Defined.

Lemma reader_close_keeps_connected_witness :
  connected (read_loop_closed connected_one) = true /\
  connect (Ret tt) (read_loop_closed connected_one) =
    (Ret tt, read_loop_closed connected_one).
Proof.
  destruct (reader_close_keeps_connected connected_one (Ret tt))
    as (_ & _ & Hc & Hconnect); [reflexivity|].
  by split.
Defined.

End TransportScenarios.

Section ProvisionerScenarios.

Import provisioner provisioner_notions tenants provisioning.
Import fixtures fixtures_further.

Lemma entries_are_entries ids : Forall is_entry (map entry ids).
Proof. induction ids; constructor; [by eexists|done]. Qed.


(** [test_provision] followed by [test_deprovision] on one gateway. *)
Lemma add_then_remove_round_trip_witness :
  exists agents2,
    registry_of
      (_config
         (remote
            (snd (_remove_agent_from_config mock "tenant-acme"
                    (snd (_add_agent_to_config mock dump acme_agent
                            (at_gateway (gateway_with [entry "tenant-other"]))))))))
    = Some (agents2, [entry "tenant-other"]).
Proof.
  apply (add_then_remove_round_trip (gateway_with [entry "tenant-other"]) dump
           acme_agent [("list", JList [entry "tenant-other"])]
           [entry "tenant-other"]).
  - reflexivity.
  - reflexivity.
  - constructor; [|constructor]. split; [by eexists|].
    intros (d & [= <-] & Hd). discriminate Hd.
  - by eexists.
Defined.

(** Provisioning the slug [acme] a second time. *)
Lemma provision_duplicate_removes_workspace_witness :
  provision mock dump "/srv/workspaces" disk_join disk_mkdir disk_write_text
    disk_rmtree exn_text acme acme_registered =
  (Ret {| prov_tenant_id := "tenant-1";
          prov_agent_id := "tenant-acme";
          prov_workspace_path := "/srv/workspaces/tenant-acme";
          prov_status := "failed";
          prov_error := Some "Agent tenant-acme already exists" |},
   {| provisioning.gw :=
        {| remote := gateway_with [entry "tenant-acme"];
           calls := [ConfigGet] |};
      fs := ["mkdir /srv/workspaces/tenant-acme";
             "write /srv/workspaces/tenant-acme/SOUL.md";
             "write /srv/workspaces/tenant-acme/AGENTS.md";
             "rmtree /srv/workspaces/tenant-acme"] |}).
Proof.
  rewrite (provision_duplicate_removes_workspace mock dump "/srv/workspaces"
             disk_join disk_mkdir disk_write_text disk_rmtree exn_text acme
             acme_registered
             (snd (_create_workspace disk_join disk_mkdir disk_write_text
                     "/srv/workspaces/tenant-acme" acme acme_registered))
             {| OpenClawConfigSnapshot.config :=
                  _config (gateway_with [entry "tenant-acme"]);
                OpenClawConfigSnapshot.hash := "hash-1" |}
             (gateway_with [entry "tenant-acme"])
             [("list", JList [entry "tenant-acme"])] [entry "tenant-acme"]).
  - vm_compute. reflexivity.
  - vm_compute. reflexivity.
  - reflexivity.
  - reflexivity.
  - apply (entries_are_entries ["tenant-acme"]).
  - apply Exists_cons_hd. by eexists.
Defined.

End ProvisionerScenarios.
